(** * dehistory: the settings / whitelist model and the cleaning orchestration

    A shallow embedding of the core of the extension
    (constants.js, utils.js, settingsManager.js, dataCleaner.js,
    eventHandler.js) together with the properties stated about it.

    JavaScript strings are sequences of UTF-16 code units; they are
    modelled as lists of [N].  JavaScript values that reach the core
    (flags, persisted settings) are modelled by [value].  The host
    (chrome.storage, chrome.windows, chrome.browsingData, sendResponse)
    is an explicit world that the handlers thread through a small
    state-and-exception monad. *)

From Stdlib Require Import NArith ZArith List Bool Ascii String Lia.
From stdpp Require Import base option list gmap.

Import ListNotations.
Local Open Scope N_scope.

(* ===================================================================== *)
(** ** JavaScript strings and values *)
(* ===================================================================== *)

Module JS.

(** A string is its sequence of UTF-16 code units. *)
Abbreviation jsstring := (list N).

(** An ASCII literal of the source, as code units. *)
Definition str (s : string) : jsstring :=
  List.map N_of_ascii (list_ascii_of_string s).

Definition unit_eqb (a b : N) : bool := N.eqb a b.

Fixpoint str_eqb (s t : jsstring) : bool :=
  match s, t with
  | [], [] => true
  | a :: s', b :: t' => unit_eqb a b && str_eqb s' t'
  | _, _ => false
  end.

(** [s.startsWith(p)] *)
Fixpoint startsWith (p s : jsstring) : bool :=
  match p, s with
  | [], _ => true
  | a :: p', b :: s' => unit_eqb a b && startsWith p' s'
  | _ :: _, [] => false
  end.

(** [s.endsWith(p)] *)
Definition endsWith (p s : jsstring) : bool :=
  startsWith (rev p) (rev s).

(** [s.includes(p)]: [p] occurs at some position of [s]. *)
Fixpoint includes (p s : jsstring) : bool :=
  startsWith p s ||
  match s with
  | [] => false
  | _ :: s' => includes p s'
  end.

(** [s.split(c)] for a one-unit separator [c]; never the empty array. *)
Fixpoint split (c : N) (s : jsstring) : list jsstring :=
  match s with
  | [] => [[]]
  | x :: s' =>
      if unit_eqb x c then [] :: split c s'
      else match split c s' with
           | [] => [[x]]
           | h :: r => (x :: h) :: r
           end
  end.

(** [parts.join(sep)] *)
Fixpoint join (sep : jsstring) (parts : list jsstring) : jsstring :=
  match parts with
  | [] => []
  | [p] => p
  | p :: rest => p ++ sep ++ join sep rest
  end.

(** White space and line terminators, the units [trim] strips:
    TAB, LF, VT, FF, CR, SP, NBSP, U+1680, U+2000..U+200A, U+2028,
    U+2029, U+202F, U+205F, U+3000, U+FEFF. *)
Definition is_space (c : N) : bool :=
  ((9 <=? c) && (c <=? 13)) || (c =? 32) || (c =? 160) || (c =? 5760)
  || ((8192 <=? c) && (c <=? 8202)) || (c =? 8232) || (c =? 8233)
  || (c =? 8239) || (c =? 8287) || (c =? 12288) || (c =? 65279).

Fixpoint trimStart (s : jsstring) : jsstring :=
  match s with
  | [] => []
  | c :: s' => if is_space c then trimStart s' else s
  end.

Definition trimEnd (s : jsstring) : jsstring := rev (trimStart (rev s)).

(** [s.trim()] *)
Definition trim (s : jsstring) : jsstring := trimEnd (trimStart s).

(** Decimal rendering of a non-negative integer, as a template literal
    [`${n}`] produces it. *)
Fixpoint uint_units (d : Decimal.uint) : jsstring :=
  match d with
  | Decimal.Nil => []
  | Decimal.D0 d => 48 :: uint_units d
  | Decimal.D1 d => 49 :: uint_units d
  | Decimal.D2 d => 50 :: uint_units d
  | Decimal.D3 d => 51 :: uint_units d
  | Decimal.D4 d => 52 :: uint_units d
  | Decimal.D5 d => 53 :: uint_units d
  | Decimal.D6 d => 54 :: uint_units d
  | Decimal.D7 d => 55 :: uint_units d
  | Decimal.D8 d => 56 :: uint_units d
  | Decimal.D9 d => 57 :: uint_units d
  end.

Definition number_to_string (n : N) : jsstring := uint_units (N.to_uint n).

(** Value of a digit in radix [radix], if it is one. *)
Definition digit_value (radix c : N) : option N :=
  let v :=
    if (48 <=? c) && (c <=? 57) then Some (c - 48)
    else if (97 <=? c) && (c <=? 122) then Some (c - 87)
    else if (65 <=? c) && (c <=? 90) then Some (c - 55)
    else None in
  match v with
  | Some d => if d <? radix then Some d else None
  | None => None
  end.

(** The longest prefix of digits, accumulated; [None] when there is no
    digit at all. *)
Fixpoint digits_prefix (radix : N) (acc : option N) (s : jsstring) : option N :=
  match s with
  | [] => acc
  | c :: s' =>
      match digit_value radix c with
      | Some d =>
          digits_prefix radix
            (Some (match acc with Some a => a * radix + d | None => d end)) s'
      | None => acc
      end
  end.

(** [parseInt(s)] without a radix argument: leading white space is
    skipped, a sign is read, a [0x]/[0X] prefix selects radix 16, the
    longest digit prefix is the result; [None] stands for NaN. *)
Definition parseInt (s : jsstring) : option Z :=
  let s1 := trimStart s in
  let '(neg, s2) :=
    match s1 with
    | 45 :: r => (true, r)
    | 43 :: r => (false, r)
    | _ => (false, s1)
    end in
  let '(radix, s3) :=
    match s2 with
    | 48 :: 120 :: r => (16, r)
    | 48 :: 88 :: r => (16, r)
    | _ => (10, s2)
    end in
  match digits_prefix radix None s3 with
  | Some n => Some (if neg : bool then (- Z.of_N n)%Z else Z.of_N n)
  | None => None
  end.

(** The values that reach the core: the primitives (numbers are the
    integers and NaN), and arrays of whitelist entries.  A whitelist
    entry is the object [{domain, keepCookies, keepCache}]; its domain
    is a string, its flags are whatever was stored. *)
Inductive value : Type :=
| VUndefined
| VNull
| VBool (b : bool)
| VNum (n : Z)
| VNaN
| VStr (s : jsstring)
| VArr (items : list WhitelistEntry)
with WhitelistEntry : Type :=
| mkEntry (domain : jsstring) (keepCookies keepCache : value).

Definition domain (e : WhitelistEntry) : jsstring :=
  match e with mkEntry d _ _ => d end.
Definition keepCookies (e : WhitelistEntry) : value :=
  match e with mkEntry _ c _ => c end.
Definition keepCache (e : WhitelistEntry) : value :=
  match e with mkEntry _ _ c => c end.

(** ToBoolean *)
Definition truthy (v : value) : bool :=
  match v with
  | VUndefined | VNull | VNaN => false
  | VBool b => b
  | VNum n => negb (Z.eqb n 0)
  | VStr s => match s with [] => false | _ => true end
  | VArr _ => true
  end.

(** [v === null || v === undefined] *)
Definition nullish (v : value) : bool :=
  match v with
  | VUndefined | VNull => true
  | _ => false
  end.

(** [a ?? b] *)
Definition coalesce (a b : value) : value :=
  if nullish a then b else a.

(** [v === n] for a number literal [n]. *)
Definition strict_eq_num (v : value) (n : Z) : bool :=
  match v with
  | VNum m => Z.eqb m n
  | _ => false
  end.

(** [v === s] for a string [s]. *)
Definition strict_eq_str (v : value) (s : jsstring) : bool :=
  match v with
  | VStr t => str_eqb t s
  | _ => false
  end.

(** A number as [parseInt] returns it. *)
Definition of_parsed (r : option Z) : value :=
  match r with
  | Some n => VNum n
  | None => VNaN
  end.

End JS.

Import JS.

(* ===================================================================== *)
(** ** Regular expressions *)
(* ===================================================================== *)

Module RegExp.

(** The pattern language the two regular expressions of constants.js
    and the literal of utils.js need.  A class is a list of inclusive
    ranges; [Any] is the class [[^]]. *)
Inductive regex : Type :=
| Empty
| Eps
| Class (ranges : list (N * N))
| Any
| Seq (r1 r2 : regex)
| Alt (r1 r2 : regex)
| Star (r : regex).

(** [r?], [r+], [r{0,n}] and [r{n,}] *)
Definition opt (r : regex) : regex := Alt Eps r.
Definition plus (r : regex) : regex := Seq r (Star r).

Fixpoint upto (n : nat) (r : regex) : regex :=
  match n with
  | O => Eps
  | S k => opt (Seq r (upto k r))
  end.

Fixpoint atleast (n : nat) (r : regex) : regex :=
  match n with
  | O => Star r
  | S k => Seq r (atleast k r)
  end.

Definition in_ranges (ranges : list (N * N)) (c : N) : bool :=
  existsb (fun '(lo, hi) => (lo <=? c) && (c <=? hi)) ranges.

Definition to_upper (c : N) : N :=
  if (97 <=? c) && (c <=? 122) then c - 32 else c.

Definition to_lower (c : N) : N :=
  if (65 <=? c) && (c <=? 90) then c + 32 else c.

(** Class membership.  Under the [i] flag a unit matches when its
    canonical form is the canonical form of a member of the class; for
    the ASCII classes used here that is: the unit, its upper-case or
    its lower-case form is in a range (a unit outside ASCII never
    canonicalises to an ASCII unit). *)
Definition in_class (i : bool) (ranges : list (N * N)) (c : N) : bool :=
  in_ranges ranges c
  || (i && (in_ranges ranges (to_upper c) || in_ranges ranges (to_lower c))).

Fixpoint nullable (r : regex) : bool :=
  match r with
  | Empty => false
  | Eps => true
  | Class _ => false
  | Any => false
  | Seq r1 r2 => nullable r1 && nullable r2
  | Alt r1 r2 => nullable r1 || nullable r2
  | Star _ => true
  end.

Definition mkSeq (r1 r2 : regex) : regex :=
  match r1, r2 with
  | Empty, _ => Empty
  | _, Empty => Empty
  | _, _ => Seq r1 r2
  end.

Definition mkAlt (r1 r2 : regex) : regex :=
  match r1, r2 with
  | Empty, _ => r2
  | _, Empty => r1
  | _, _ => Alt r1 r2
  end.

(** What is left of [r] after the unit [c] has been read. *)
Fixpoint deriv (i : bool) (c : N) (r : regex) : regex :=
  match r with
  | Empty => Empty
  | Eps => Empty
  | Class ranges => if in_class i ranges c then Eps else Empty
  | Any => Eps
  | Seq r1 r2 =>
      if nullable r1
      then mkAlt (mkSeq (deriv i c r1) r2) (deriv i c r2)
      else mkSeq (deriv i c r1) r2
  | Alt r1 r2 => mkAlt (deriv i c r1) (deriv i c r2)
  | Star r1 => mkSeq (deriv i c r1) (Star r1)
  end.

(** The whole of [s] matches [r]. *)
Fixpoint matchb (i : bool) (r : regex) (s : jsstring) : bool :=
  match s with
  | [] => nullable r
  | c :: s' => matchb i (deriv i c r) s'
  end.

(** A regular-expression object: the pattern between the anchors, which
    anchors are present, and the [i] flag. *)
Record RegExp : Type := mkRegExp {
  pattern : regex;
  anchorStart : bool;
  anchorEnd : bool;
  ignoreCase : bool
}.

(** [re.test(s)]: a side without its anchor may be preceded (followed)
    by anything. *)
Definition test (re : RegExp) (s : jsstring) : bool :=
  let r1 := if anchorEnd re then pattern re else Seq (pattern re) (Star Any) in
  let r2 := if anchorStart re then r1 else Seq (Star Any) r1 in
  matchb (ignoreCase re) r2 s.

(** The words of a pattern. *)
Inductive matches (i : bool) : regex -> jsstring -> Prop :=
| MEps : matches i Eps []
| MClass ranges c : in_class i ranges c = true -> matches i (Class ranges) [c]
| MAny c : matches i Any [c]
| MSeq r1 r2 s1 s2 :
    matches i r1 s1 -> matches i r2 s2 -> matches i (Seq r1 r2) (s1 ++ s2)
| MAltL r1 r2 s : matches i r1 s -> matches i (Alt r1 r2) s
| MAltR r1 r2 s : matches i r2 s -> matches i (Alt r1 r2) s
| MStarNil r : matches i (Star r) []
| MStarApp r s1 s2 :
    matches i r s1 -> matches i (Star r) s2 -> matches i (Star r) (s1 ++ s2).

End RegExp.

Import RegExp.

(* ===================================================================== *)
(** ** constants.js *)
(* ===================================================================== *)

Module Constants.

(** STORAGE_KEYS *)
Module STORAGE_KEYS.
Definition WHITELIST := str "whitelist".
Definition RUN_ON_STARTUP := str "runOnStartup".
Definition RUN_ON_CLOSE := str "runOnClose".
Definition REMOVE_DOWNLOADS := str "removeDownloads".
Definition REMOVE_FORMDATA := str "removeFormData".
Definition REMOVE_HISTORY := str "removeHistory".
Definition REMOVE_COOKIES := str "removeCookies".
Definition REMOVE_CACHE_AND_STORAGE := str "removeCacheAndStorage".
End STORAGE_KEYS.

(** WHITELIST_KEYS *)
Module WHITELIST_KEYS.
Definition DOMAIN := str "domain".
Definition KEEP_COOKIES := str "keepCookies".
Definition KEEP_CACHE := str "keepCache".
End WHITELIST_KEYS.

Definition alnum : regex := Class [(97, 122); (48, 57)].
Definition alnum_hyphen : regex := Class [(97, 122); (48, 57); (45, 45)].
Definition letter : regex := Class [(97, 122)].
Definition dot : regex := Class [(46, 46)].

(** [[a-z0-9]([a-z0-9-]{0,61}[a-z0-9])?] *)
Definition label_pattern : regex :=
  Seq alnum (opt (Seq (upto 61 alnum_hyphen) alnum)).

(** [/^([a-z0-9]([a-z0-9-]{0,61}[a-z0-9])?\.)+[a-z]{2,}$/i] *)
Definition DOMAIN_REGEX : RegExp :=
  mkRegExp (Seq (plus (Seq label_pattern dot)) (atleast 2 letter))
           true true true.

(** [/[\x00-\x1f\x7f-\x9f\u2000-\u200f\u2028-\u202f\u205f-\u206f]/] *)
Definition DANGEROUS_CHARS_REGEX : RegExp :=
  mkRegExp (Class [(0, 31); (127, 159); (8192, 8207); (8232, 8239); (8287, 8303)])
           false false false.

End Constants.

Import Constants.

(* ===================================================================== *)
(** ** utils.js: validation *)
(* ===================================================================== *)

Module Utils.

(** The nine messages of [validateDomainName], in the order of the
    checks. *)
Module Msg.
(* ドメインが空です *)
Definition empty : jsstring :=
  [12489; 12513; 12452; 12531; 12364; 31354; 12391; 12377].
(* ドメイン名が長すぎます（253文字以内） *)
Definition too_long : jsstring :=
  [12489; 12513; 12452; 12531; 21517; 12364; 38263; 12377; 12366; 12414;
   12377; 65288; 50; 53; 51; 25991; 23383; 20197; 20869; 65289].
(* 不正な文字が含まれています *)
Definition dangerous : jsstring :=
  [19981; 27491; 12394; 25991; 23383; 12364; 21547; 12414; 12428; 12390;
   12356; 12414; 12377].
(* ワイルドカード( * )は使用できません, without the blanks around the star *)
Definition wildcard : jsstring :=
  [12527; 12452; 12523; 12489; 12459; 12540; 12489; 40; 42; 41; 12399;
   20351; 29992; 12391; 12365; 12414; 12379; 12435].
(* ASCII文字のみ使用できます *)
Definition non_ascii : jsstring :=
  [65; 83; 67; 73; 73; 25991; 23383; 12398; 12415; 20351; 29992; 12391;
   12365; 12414; 12377].
(* ドメイン名の形式が不正です *)
Definition bad_format : jsstring :=
  [12489; 12513; 12452; 12531; 21517; 12398; 24418; 24335; 12364; 19981;
   27491; 12391; 12377].
(* 連続するドットは使用できません *)
Definition double_dot : jsstring :=
  [36899; 32154; 12377; 12427; 12489; 12483; 12488; 12399; 20351; 29992;
   12391; 12365; 12414; 12379; 12435].
(* ドメインの先頭または末尾にドットは使用できません *)
Definition edge_dot : jsstring :=
  [12489; 12513; 12452; 12531; 12398; 20808; 38957; 12414; 12383; 12399;
   26411; 23614; 12395; 12489; 12483; 12488; 12399; 20351; 29992; 12391;
   12365; 12414; 12379; 12435].
(* ドメインラベルが長すぎます（63文字以内） *)
Definition label_too_long : jsstring :=
  [12489; 12513; 12452; 12531; 12521; 12505; 12523; 12364; 38263; 12377;
   12366; 12414; 12377; 65288; 54; 51; 25991; 23383; 20197; 20869; 65289].
(* 行 *)
Definition line : jsstring := [34892].
(* フラグは 0 または 1 で指定してください *)
Definition bad_flag : jsstring :=
  [12501; 12521; 12464; 12399; 32; 48; 32; 12414; 12383; 12399; 32; 49;
   32; 12391; 25351; 23450; 12375; 12390; 12367; 12384; 12373; 12356].
(* フォーマットが不正です *)
Definition bad_line_format : jsstring :=
  [12501; 12457; 12540; 12510; 12483; 12488; 12364; 19981; 27491; 12391;
   12377].
End Msg.

(** [{valid, error}]; [error] is [null] on success. *)
Record Validation : Type := mkValidation {
  valid : bool;
  error : option jsstring
}.

Definition invalid (msg : jsstring) : Validation := mkValidation false (Some msg).

(** [/^[\x00-\x7F]*$/] *)
Definition ASCII_ONLY_REGEX : RegExp :=
  mkRegExp (Star (Class [(0, 127)])) true true false.

(** The loop over the labels: the first label longer than 63 units
    returns from the function. *)
Fixpoint label_loop (labels : list jsstring) : Validation :=
  match labels with
  | [] => mkValidation true None
  | label :: rest =>
      if (63 <? length label)%nat then invalid Msg.label_too_long
      else label_loop rest
  end.

Definition validateDomainName (domain : jsstring) : Validation :=
  if (length domain =? 0)%nat then invalid Msg.empty
  else if (253 <? length domain)%nat then invalid Msg.too_long
  else if test DANGEROUS_CHARS_REGEX domain then invalid Msg.dangerous
  else if includes (str "*") domain then invalid Msg.wildcard
  else if negb (test ASCII_ONLY_REGEX domain) then invalid Msg.non_ascii
  else if negb (test DOMAIN_REGEX domain) then invalid Msg.bad_format
  else if includes (str "..") domain then invalid Msg.double_dot
  else if startsWith (str ".") domain || endsWith (str ".") domain
    then invalid Msg.edge_dot
  else label_loop (split 46 domain).

(** [isValidFlag] *)
Definition isValidFlag (flagValue : jsstring) : bool :=
  str_eqb flagValue (str "0") || str_eqb flagValue (str "1").

(** [{success, entry, error}]; exactly one of [entry] and [error] is
    not [null]. *)
Module ParseResult.
Record t : Type := mk {
  success : bool;
  entry : option WhitelistEntry;
  error : option jsstring
}.
End ParseResult.

(** [`${validation.error}`] *)
Definition error_text (v : Validation) : jsstring :=
  match error v with
  | Some e => e
  | None => str "null"
  end.

(** [`行${lineNumber}: ${what} (${line})`] *)
Definition line_message (lineNumber : N) (what line : jsstring) : jsstring :=
  Msg.line ++ number_to_string lineNumber ++ str ": " ++ what
    ++ str " (" ++ line ++ str ")".

(** [parseWhitelistLine]; [lineIndex] is the 0-based index [forEach]
    passes.  Nothing in the body throws on a string, so the outer
    [catch] is not reached. *)
Definition parseWhitelistLine (line : jsstring) (lineIndex : N) : ParseResult.t :=
  let lineNumber := lineIndex + 1 in
  let parts := List.map trim (split 44 line) in
  let domain := nth 0 parts [] in
  let validation := validateDomainName domain in
  if negb (valid validation) then
    ParseResult.mk false None
      (Some (line_message lineNumber (error_text validation) line))
  else if (length parts =? 1)%nat then
    ParseResult.mk true (Some (mkEntry domain (VNum 1) (VNum 1))) None
  else if (length parts =? 3)%nat then
    let keepCookiesStr := nth 1 parts [] in
    let keepCacheStr := nth 2 parts [] in
    if negb (isValidFlag keepCookiesStr) || negb (isValidFlag keepCacheStr) then
      ParseResult.mk false None
        (Some (line_message lineNumber Msg.bad_flag line))
    else
      ParseResult.mk true
        (Some (mkEntry domain (of_parsed (parseInt keepCookiesStr))
                              (of_parsed (parseInt keepCacheStr))))
        None
  else
    ParseResult.mk false None
      (Some (line_message lineNumber Msg.bad_line_format line)).

End Utils.

Import Utils.

(* ===================================================================== *)
(** ** settingsManager.js *)
(* ===================================================================== *)

Module SettingsManager.

(** DEFAULT_SETTINGS of constants.js *)
Module DEFAULT_SETTINGS.
Definition WHITELIST_KEEP_COOKIES : value := VNum 1.
Definition WHITELIST_KEEP_CACHE : value := VNum 1.
Definition RUN_ON_STARTUP : value := VBool false.
Definition RUN_ON_CLOSE : value := VBool false.
Definition REMOVE_DOWNLOADS : value := VBool true.
Definition REMOVE_FORMDATA : value := VBool true.
Definition REMOVE_HISTORY : value := VBool true.
Definition REMOVE_COOKIES : value := VBool true.
Definition REMOVE_CACHE_AND_STORAGE : value := VBool true.
End DEFAULT_SETTINGS.

(** The fields of a SettingsManager instance.  A field holds what the
    store gave, whatever its type. *)
Record Settings : Type := mkSettings {
  whitelist : value;
  runOnStartup : value;
  runOnClose : value;
  removeDownloads : value;
  removeFormData : value;
  removeHistory : value;
  removeCookies : value;
  removeCacheAndStorage : value
}.

(** [initializeDefaults] *)
Definition initializeDefaults : Settings :=
  mkSettings (VArr [])
    DEFAULT_SETTINGS.RUN_ON_STARTUP DEFAULT_SETTINGS.RUN_ON_CLOSE
    DEFAULT_SETTINGS.REMOVE_DOWNLOADS DEFAULT_SETTINGS.REMOVE_FORMDATA
    DEFAULT_SETTINGS.REMOVE_HISTORY DEFAULT_SETTINGS.REMOVE_COOKIES
    DEFAULT_SETTINGS.REMOVE_CACHE_AND_STORAGE.

(** [result[key]]: a property that is absent reads as [undefined]. *)
Definition prop (result : gmap jsstring value) (key : jsstring) : value :=
  match result !! key with
  | Some v => v
  | None => VUndefined
  end.

(** [applyLoadedSettings]: every field is assigned, so the instance
    after the call is built from [result] alone. *)
Definition applyLoadedSettings (result : gmap jsstring value) : Settings :=
  {| whitelist := coalesce (prop result STORAGE_KEYS.WHITELIST) (VArr []);
     runOnStartup :=
       coalesce (prop result STORAGE_KEYS.RUN_ON_STARTUP)
                DEFAULT_SETTINGS.RUN_ON_STARTUP;
     runOnClose :=
       coalesce (prop result STORAGE_KEYS.RUN_ON_CLOSE)
                DEFAULT_SETTINGS.RUN_ON_CLOSE;
     removeDownloads :=
       coalesce (prop result STORAGE_KEYS.REMOVE_DOWNLOADS)
                DEFAULT_SETTINGS.REMOVE_DOWNLOADS;
     removeFormData :=
       coalesce (prop result STORAGE_KEYS.REMOVE_FORMDATA)
                DEFAULT_SETTINGS.REMOVE_FORMDATA;
     removeHistory :=
       coalesce (prop result STORAGE_KEYS.REMOVE_HISTORY)
                DEFAULT_SETTINGS.REMOVE_HISTORY;
     removeCookies :=
       coalesce (prop result STORAGE_KEYS.REMOVE_COOKIES)
                DEFAULT_SETTINGS.REMOVE_COOKIES;
     removeCacheAndStorage :=
       coalesce (prop result STORAGE_KEYS.REMOVE_CACHE_AND_STORAGE)
                DEFAULT_SETTINGS.REMOVE_CACHE_AND_STORAGE |}.

(** [entry[key]] *)
Definition entry_prop (e : WhitelistEntry) (key : jsstring) : value :=
  if str_eqb key WHITELIST_KEYS.DOMAIN then VStr (domain e)
  else if str_eqb key WHITELIST_KEYS.KEEP_COOKIES then keepCookies e
  else if str_eqb key WHITELIST_KEYS.KEEP_CACHE then keepCache e
  else VUndefined.

(** The two origins of one entry. *)
Definition origins_of (e : WhitelistEntry) : list jsstring :=
  let domain := trim (domain e) in
  [str "https://" ++ domain; str "http://" ++ domain].

(** [getOriginsByFlag]; when [this.whitelist] is not an array the call
    of [filter] throws and the [catch] returns the empty array. *)
Definition getOriginsByFlag (this : Settings) (flagName : jsstring) : list jsstring :=
  match whitelist this with
  | VArr entries =>
      List.flat_map origins_of
        (List.filter (fun e => strict_eq_num (entry_prop e flagName) 1) entries)
  | _ => []
  end.

(** [toObject] *)
Definition toObject (this : Settings) : list (jsstring * value) :=
  [ (STORAGE_KEYS.WHITELIST, whitelist this);
    (STORAGE_KEYS.RUN_ON_STARTUP, runOnStartup this);
    (STORAGE_KEYS.RUN_ON_CLOSE, runOnClose this);
    (STORAGE_KEYS.REMOVE_DOWNLOADS, removeDownloads this);
    (STORAGE_KEYS.REMOVE_FORMDATA, removeFormData this);
    (STORAGE_KEYS.REMOVE_HISTORY, removeHistory this);
    (STORAGE_KEYS.REMOVE_COOKIES, removeCookies this);
    (STORAGE_KEYS.REMOVE_CACHE_AND_STORAGE, removeCacheAndStorage this) ].

End SettingsManager.

Import SettingsManager.

(* ===================================================================== *)
(** ** options.js: the whitelist as text *)
(* ===================================================================== *)

Module Options.

(** [`${domain},${keepCookies},${keepCache}`] with
    [keepCookies = entry.keepCookies ? 1 : 0] and likewise for the
    cache flag. *)
Definition entry_line (e : WhitelistEntry) : jsstring :=
  let keepCookies : N :=
    if truthy (entry_prop e WHITELIST_KEYS.KEEP_COOKIES) then 1 else 0 in
  let keepCache : N :=
    if truthy (entry_prop e WHITELIST_KEYS.KEEP_CACHE) then 1 else 0 in
  domain e ++ str "," ++ number_to_string keepCookies
    ++ str "," ++ number_to_string keepCache.

(** [whitelist.map(entry => ...)] *)
Definition whitelist_lines (whitelist : list WhitelistEntry) : list jsstring :=
  List.map entry_line whitelist.

(** What the page puts into the text area: [lines.join('\n')]. *)
Definition textarea_value (whitelist : list WhitelistEntry) : jsstring :=
  join [10] (whitelist_lines whitelist).

(** The save handler's lines:
    [value.split('\n').map(line => line.trim()).filter(line => line.length > 0)] *)
Definition textarea_lines (text : jsstring) : list jsstring :=
  List.filter (fun line => (0 <? length line)%nat)
              (List.map trim (split 10 text)).

(** [lines.forEach((line, index) => ...)]: the entries of the lines
    that parse and the messages of those that do not, both in order. *)
Fixpoint parse_lines (lines : list jsstring) (index : N)
  : list WhitelistEntry * list jsstring :=
  match lines with
  | [] => ([], [])
  | line :: rest =>
      let result := parseWhitelistLine line index in
      let '(whitelist, invalidLines) := parse_lines rest (index + 1) in
      if ParseResult.success result then
        match ParseResult.entry result with
        | Some e => (e :: whitelist, invalidLines)
        | None => (whitelist, invalidLines)
        end
      else
        match ParseResult.error result with
        | Some m => (whitelist, m :: invalidLines)
        | None => (whitelist, invalidLines)
        end
  end.

End Options.

Import Options.

(* ===================================================================== *)
(** ** The host: storage, windows, the removal capability *)
(* ===================================================================== *)

Module Host.

(** An error object; only its [message] is read. *)
Record Error : Type := mkError { message : jsstring }.

(** The first argument of [chrome.browsingData.remove]:
    [{since}] or [{since, excludeOrigins}]. *)
Record RemovalOptions : Type := mkOptions {
  since : Z;
  excludeOrigins : option (list jsstring)
}.

(** One call of [chrome.browsingData.remove(options, dataTypes, cb)];
    [dataTypes] is the object literal, property by property. *)
Record RemovalCall : Type := mkCall {
  options : RemovalOptions;
  dataTypes : list (jsstring * value)
}.

(** What [sendResponse] is given: [{success}] or [{success, error}]. *)
Module Response.
Record t : Type := mk {
  success : bool;
  error : option jsstring
}.
End Response.

(** The world the background script runs in.  [settings] is the one
    SettingsManager instance that the cleaner and the event handler
    share.  [removals] and [responses] record, oldest first, the calls
    made to the removal capability and to [sendResponse].  [faults]
    says, for the n-th call into the host (counted by [clock]), whether
    the host reports an error for it. *)
Record World : Type := mkWorld {
  settings : Settings;
  local_store : gmap jsstring value;
  session_store : gmap jsstring value;
  normal_windows : option (list N);
  runtime_id : jsstring;
  removals : list RemovalCall;
  responses : list Response.t;
  clock : nat;
  faults : nat -> option Error
}.

Definition set_settings (s : Settings) (w : World) : World :=
  mkWorld s (local_store w) (session_store w) (normal_windows w)
    (runtime_id w) (removals w) (responses w) (clock w) (faults w).

Definition set_session_store (m : gmap jsstring value) (w : World) : World :=
  mkWorld (settings w) (local_store w) m (normal_windows w)
    (runtime_id w) (removals w) (responses w) (clock w) (faults w).

Definition log_removal (c : RemovalCall) (w : World) : World :=
  mkWorld (settings w) (local_store w) (session_store w) (normal_windows w)
    (runtime_id w) (removals w ++ [c]) (responses w) (clock w) (faults w).

Definition log_response (r : Response.t) (w : World) : World :=
  mkWorld (settings w) (local_store w) (session_store w) (normal_windows w)
    (runtime_id w) (removals w) (responses w ++ [r]) (clock w) (faults w).

Definition tick (w : World) : World :=
  mkWorld (settings w) (local_store w) (session_store w) (normal_windows w)
    (runtime_id w) (removals w) (responses w) (S (clock w)) (faults w).

(** A computation returns or throws, and leaves a world. *)
Inductive outcome (A : Type) : Type :=
| Ok (a : A)
| Throw (e : Error).

Arguments Ok {A} a.
Arguments Throw {A} e.

Definition M (A : Type) : Type := World -> outcome A * World.

Definition ret {A} (a : A) : M A := fun w => (Ok a, w).

Definition bind {A B} (m : M A) (k : A -> M B) : M B :=
  fun w =>
    match m w with
    | (Ok a, w') => k a w'
    | (Throw e, w') => (Throw e, w')
    end.

Definition throw {A} (e : Error) : M A := fun w => (Throw e, w).

(** [try { m } catch (e) { h e }] *)
Definition try_catch {A} (m : M A) (h : Error -> M A) : M A :=
  fun w =>
    match m w with
    | (Ok a, w') => (Ok a, w')
    | (Throw e, w') => h e w'
    end.

(** A promise that has been started and has settled: [None] when it
    was fulfilled, the reason when it was rejected. *)
Definition settle (m : M unit) : M (option Error) :=
  fun w =>
    match m w with
    | (Ok _, w') => (Ok None, w')
    | (Throw e, w') => (Ok (Some e), w')
    end.

(** [await Promise.all(promises)] on promises that were all started:
    the first rejection is thrown.  The host is taken to settle the
    calls in the order in which they were made. *)
Fixpoint promise_all (settled : list (option Error)) : M unit :=
  match settled with
  | [] => ret tt
  | None :: rest => promise_all rest
  | Some e :: _ => throw e
  end.

Definition get_settings : M Settings := fun w => (Ok (settings w), w).

Definition put_settings (s : Settings) : M unit :=
  fun w => (Ok tt, set_settings s w).

Definition get_runtime_id : M jsstring := fun w => (Ok (runtime_id w), w).

(** A call into the host: the clock advances; when the host reports an
    error for this call the call throws, otherwise [effect] happens. *)
Definition host_call {A} (effect : M A) : M A :=
  fun w =>
    match faults w (clock w) with
    | Some e => (Throw e, tick w)
    | None => effect (tick w)
    end.

(** The object [storage.get(keys)] resolves to: the stored items whose
    key is asked for. *)
Definition items_of (keys : list jsstring) (store : gmap jsstring value)
  : gmap jsstring value :=
  filter (fun kv => fst kv ∈ keys) store.

(** [chrome.storage.session.get(key)] *)
Definition storage_session_get (key : jsstring) : M (gmap jsstring value) :=
  host_call (fun w => (Ok (items_of [key] (session_store w)), w)).

(** [chrome.storage.session.set({[key]: v})] *)
Definition storage_session_set (key : jsstring) (v : value) : M unit :=
  host_call (fun w => (Ok tt, set_session_store (<[key := v]> (session_store w)) w)).

(** [chrome.storage.local.get(keys)] *)
Definition storage_local_get (keys : list jsstring) : M (gmap jsstring value) :=
  host_call (fun w => (Ok (items_of keys (local_store w)), w)).

(** [chrome.windows.getAll({windowTypes: ['normal']})] *)
Definition windows_getAll : M (option (list N)) :=
  host_call (fun w => (Ok (normal_windows w), w)).

(** [chrome.browsingData.remove(options, dataTypes, callback)] wrapped
    in a promise: the call is made in any case; the promise is rejected
    with [chrome.runtime.lastError] when the host sets it. *)
Definition browsingData_remove (o : RemovalOptions)
    (types : list (jsstring * value)) : M unit :=
  fun w => host_call (ret tt) (log_removal (mkCall o types) w).

(** [sendResponse(r)] *)
Definition sendResponse (r : Response.t) : M unit :=
  fun w => (Ok tt, log_response r w).

(** The world a computation leaves, and its result. *)
Definition exec {A} (m : M A) (w : World) : World := snd (m w).
Definition result {A} (m : M A) (w : World) : outcome A := fst (m w).

End Host.

Import Host.

#[export] Instance M_ret : MRet M := @ret.
#[export] Instance M_bind : MBind M := fun A B k m => bind m k.

(* ===================================================================== *)
(** ** dataCleaner.js *)
(* ===================================================================== *)

Module DataCleaner.

(** [removeBrowsingData]; the category name, the list of types and the
    count of excluded origins only feed the log. *)
Definition removeBrowsingData (o : RemovalOptions)
    (types : list (jsstring * value)) : M unit :=
  browsingData_remove o types.

(** [removeBulkData] *)
Definition removeBulkData : M unit :=
  this ← get_settings;
  let dataToRemove :=
    [ (str "appcache", VBool true);
      (str "downloads", removeDownloads this);
      (str "formData", removeFormData this);
      (str "history", removeHistory this) ] in
  removeBrowsingData (mkOptions 0 None) dataToRemove.

(** [getBulkDataTypesList] *)
Definition getBulkDataTypesList (dataToRemove : list (jsstring * value))
  : list jsstring :=
  List.map fst (List.filter (fun kv => truthy (snd kv)) dataToRemove).

(** [removeCookies] *)
Definition removeCookies : M unit :=
  this ← get_settings;
  if negb (truthy (SettingsManager.removeCookies this)) then mret tt
  else
    let excludeOrigins := getOriginsByFlag this WHITELIST_KEYS.KEEP_COOKIES in
    removeBrowsingData (mkOptions 0 (Some excludeOrigins))
      [ (str "cookies", VBool true) ].

(** [removeCacheAndStorage] *)
Definition removeCacheAndStorage : M unit :=
  this ← get_settings;
  if negb (truthy (SettingsManager.removeCacheAndStorage this)) then mret tt
  else
    let excludeOrigins := getOriginsByFlag this WHITELIST_KEYS.KEEP_CACHE in
    let dataTypes :=
      [ (str "cacheStorage", VBool true);
        (str "cache", VBool true);
        (str "fileSystems", VBool true);
        (str "indexedDB", VBool true);
        (str "localStorage", VBool true);
        (str "serviceWorkers", VBool true);
        (str "webSQL", VBool true) ] in
    removeBrowsingData (mkOptions 0 (Some excludeOrigins)) dataTypes.

(** [clearAll]: the three passes are started one after the other, then
    all are awaited; the [catch] logs and throws again. *)
Definition clearAll : M unit :=
  try_catch
    (p1 ← settle removeBulkData;
     p2 ← settle removeCookies;
     p3 ← settle removeCacheAndStorage;
     promise_all [p1; p2; p3])
    (fun error => throw error).

End DataCleaner.

(* ===================================================================== *)
(** ** settingsManager.js: load *)
(* ===================================================================== *)

Module Loader.

(** [Object.values(STORAGE_KEYS)] *)
Definition keys : list jsstring :=
  [ STORAGE_KEYS.WHITELIST; STORAGE_KEYS.RUN_ON_STARTUP;
    STORAGE_KEYS.RUN_ON_CLOSE; STORAGE_KEYS.REMOVE_DOWNLOADS;
    STORAGE_KEYS.REMOVE_FORMDATA; STORAGE_KEYS.REMOVE_HISTORY;
    STORAGE_KEYS.REMOVE_COOKIES; STORAGE_KEYS.REMOVE_CACHE_AND_STORAGE ].

(** [load]: the shared instance is overwritten; the [catch] logs and
    throws again. *)
Definition load : M unit :=
  try_catch
    (result ← storage_local_get keys;
     put_settings (applyLoadedSettings result))
    (fun error => throw error).

End Loader.

(* ===================================================================== *)
(** ** eventHandler.js *)
(* ===================================================================== *)

Module EventHandler.

(** The session key of the startup guard. *)
Definition startupCleanExecuted : jsstring := str "startupCleanExecuted".

(** [handleStartupIfNeeded]; the [catch] logs and swallows. *)
Definition handleStartupIfNeeded : M unit :=
  try_catch
    (result ← storage_session_get startupCleanExecuted;
     if truthy (prop result startupCleanExecuted) then mret tt
     else
       this ← get_settings;
       if truthy (runOnStartup this) then
         _ ← DataCleaner.clearAll;
         storage_session_set startupCleanExecuted (VBool true)
       else mret tt)
    (fun error => mret tt).

(** A message and its sender, as far as the handler reads them. *)
Record Request : Type := mkRequest { action : value }.
Record Sender : Type := mkSender { id : value }.

(** [isValidSender]: [sender.id && sender.id === chrome.runtime.id] *)
Definition isValidSender (sender : Sender) : M bool :=
  rid ← get_runtime_id;
  mret (truthy (id sender) && strict_eq_str (id sender) rid).

(** [handleDeleteDataRequest]: the response is sent when [clearAll]
    has settled. *)
Definition handleDeleteDataRequest : M unit :=
  try_catch
    (try_catch
       (_ ← DataCleaner.clearAll;
        sendResponse (Response.mk true None))
       (fun error => sendResponse (Response.mk false (Some (message error)))))
    (fun error => sendResponse (Response.mk false (Some (message error)))).

(** [handleMessage]; the result says whether a response follows
    later. *)
Definition handleMessage (request : Request) (sender : Sender) : M bool :=
  try_catch
    (ok ← isValidSender sender;
     if negb ok then
       _ ← sendResponse (Response.mk false (Some (str "Unauthorized")));
       mret false
     else if strict_eq_str (action request) (str "deleteData") then
       _ ← handleDeleteDataRequest;
       mret true
     else mret false)
    (fun error =>
       _ ← sendResponse (Response.mk false (Some (message error)));
       mret false).

(** [checkIfLastWindow]: [!windows || windows.length === 0] *)
Definition checkIfLastWindow (closedWindowId : N) : M bool :=
  windows ← windows_getAll;
  mret (match windows with
        | None => true
        | Some ws => (length ws =? 0)%nat
        end).

(** [handleWindowCloseEvent]; the [catch] logs and swallows. *)
Definition handleWindowCloseEvent (closedWindowId : N) : M unit :=
  try_catch
    (_ ← Loader.load;
     this ← get_settings;
     if negb (truthy (runOnClose this)) then mret tt
     else
       isLastWindow ← checkIfLastWindow closedWindowId;
       if isLastWindow : bool then DataCleaner.clearAll
       else mret tt)
    (fun error => mret tt).

End EventHandler.

(* ===================================================================== *)
(** ** The host: writing the persistent store *)
(* ===================================================================== *)

Module HostStore.

Definition set_local_store (m : gmap jsstring value) (w : World) : World :=
  mkWorld (settings w) m (session_store w) (normal_windows w)
    (runtime_id w) (removals w) (responses w) (clock w) (faults w).

(** The store after the items of one [set] have been written, in the
    order of the object literal. *)
Definition write_items (items : list (jsstring * value))
    (store : gmap jsstring value) : gmap jsstring value :=
  List.fold_left (fun m kv => <[fst kv := snd kv]> m) items store.

(** [chrome.storage.local.set(items, callback)]: when the host reports
    an error nothing is written. *)
Definition storage_local_set (items : list (jsstring * value)) : M unit :=
  host_call (fun w => (Ok tt, set_local_store (write_items items (local_store w)) w)).

End HostStore.

Import HostStore.

(* ===================================================================== *)
(** ** popup.js: the whitelist button *)
(* ===================================================================== *)

Module Popup.

(** [entry => entry.domain === currentDomain] *)
Definition is_current (currentDomain : jsstring) (entry : WhitelistEntry) : bool :=
  strict_eq_str (entry_prop entry WHITELIST_KEYS.DOMAIN) currentDomain.

(** [whitelist.some(...)] of [updateWhitelistButton] *)
Definition exists_in (currentDomain : jsstring) (whitelist : list WhitelistEntry)
  : bool :=
  existsb (is_current currentDomain) whitelist.

(** [whitelist.findIndex(...)]; [None] stands for -1. *)
Fixpoint findIndex (currentDomain : jsstring) (whitelist : list WhitelistEntry)
  : option nat :=
  match whitelist with
  | [] => None
  | entry :: rest =>
      if is_current currentDomain entry then Some O
      else match findIndex currentDomain rest with
           | Some i => Some (S i)
           | None => None
           end
  end.

(** [whitelist.splice(index, 1)]: the array without its element at
    [index]. *)
Fixpoint splice1 (index : nat) (whitelist : list WhitelistEntry)
  : list WhitelistEntry :=
  match whitelist, index with
  | [], _ => []
  | _ :: rest, O => rest
  | entry :: rest, S i => entry :: splice1 i rest
  end.

(** The entry the button adds: both flags at their default. *)
Definition new_entry (currentDomain : jsstring) : WhitelistEntry :=
  mkEntry currentDomain DEFAULT_SETTINGS.WHITELIST_KEEP_COOKIES
    DEFAULT_SETTINGS.WHITELIST_KEEP_CACHE.

(** The whitelist the click saves: without the first entry of the
    current domain when there is one, with a new entry at the end when
    there is none. *)
Definition toggled (currentDomain : jsstring) (whitelist : list WhitelistEntry)
  : list WhitelistEntry :=
  match findIndex currentDomain whitelist with
  | Some existingIndex => splice1 existingIndex whitelist
  | None => whitelist ++ [new_entry currentDomain]
  end.

(** [result[STORAGE_KEYS.WHITELIST] || []]; [None] when the stored value
    is truthy and not an array, on which [findIndex] throws. *)
Definition whitelist_or_empty (result : gmap jsstring value)
  : option (list WhitelistEntry) :=
  let v := prop result STORAGE_KEYS.WHITELIST in
  if truthy v then
    match v with
    | VArr entries => Some entries
    | _ => None
    end
  else Some [].

(** What the popup shows after a click. *)
Inductive Status : Type :=
| Ignored
| LoadFailed
| Unexpected
| SaveFailed
| Removed
| Added.

(** [saveWhitelistWithMessage]: a failed write shows the failure. *)
Definition saveWhitelistWithMessage (whitelist : list WhitelistEntry)
    (done : Status) : M Status :=
  try_catch
    (_ ← storage_local_set [(STORAGE_KEYS.WHITELIST, VArr whitelist)];
     mret done)
    (fun lastError => mret SaveFailed).

(** The click on the whitelist button. *)
Definition addToWhitelist_click (currentDomain : jsstring) : M Status :=
  if negb (truthy (VStr currentDomain)) then mret Ignored
  else
    try_catch
      (result ← storage_local_get [STORAGE_KEYS.WHITELIST];
       match whitelist_or_empty result with
       | None => mret Unexpected
       | Some whitelist =>
           match findIndex currentDomain whitelist with
           | Some existingIndex =>
               saveWhitelistWithMessage (splice1 existingIndex whitelist) Removed
           | None =>
               saveWhitelistWithMessage
                 (whitelist ++ [new_entry currentDomain]) Added
           end
       end)
      (fun lastError => mret LoadFailed).

End Popup.

(* ===================================================================== *)
(** ** options.js: the save button *)
(* ===================================================================== *)

Module Save.

(** The seven check boxes of the page. *)
Record Checkboxes : Type := mkCheckboxes {
  box_runOnStartup : bool;
  box_runOnClose : bool;
  box_removeDownloads : bool;
  box_removeFormData : bool;
  box_removeHistory : bool;
  box_removeCookies : bool;
  box_removeCacheAndStorage : bool
}.

(** The message of a repeated domain: the 1-based position of the entry,
    the domain, and the 1-based position of its first occurrence. *)
Definition duplicate_message (index : N) (domain : jsstring) (first : N) : jsstring :=
  Msg.line ++ number_to_string (index + 1)
    ++ [58; 32; 12489; 12513; 12452; 12531; 32; 34] ++ domain
    ++ [34; 32; 12364; 37325; 35079; 12375; 12390; 12356; 12414; 12377; 65288;
        26368; 21021; 12398; 20986; 29694; 58; 32; 34892]
    ++ number_to_string (first + 1) ++ [65289].

(** [whitelist.forEach((entry, index) => ...)] over the [Map] of the
    domains seen so far. *)
Fixpoint duplicate_scan (whitelist : list WhitelistEntry) (index : N)
    (domainMap : gmap jsstring N) : list jsstring :=
  match whitelist with
  | [] => []
  | entry :: rest =>
      let domain := JS.domain entry in
      match domainMap !! domain with
      | Some first =>
          duplicate_message index domain first
            :: duplicate_scan rest (index + 1) domainMap
      | None => duplicate_scan rest (index + 1) (<[domain := index]> domainMap)
      end
  end.

(** The object the handler stores. *)
Definition saved_items (whitelist : list WhitelistEntry) (boxes : Checkboxes)
  : list (jsstring * value) :=
  [ (STORAGE_KEYS.WHITELIST, VArr whitelist);
    (STORAGE_KEYS.RUN_ON_STARTUP, VBool (box_runOnStartup boxes));
    (STORAGE_KEYS.RUN_ON_CLOSE, VBool (box_runOnClose boxes));
    (STORAGE_KEYS.REMOVE_DOWNLOADS, VBool (box_removeDownloads boxes));
    (STORAGE_KEYS.REMOVE_FORMDATA, VBool (box_removeFormData boxes));
    (STORAGE_KEYS.REMOVE_HISTORY, VBool (box_removeHistory boxes));
    (STORAGE_KEYS.REMOVE_COOKIES, VBool (box_removeCookies boxes));
    (STORAGE_KEYS.REMOVE_CACHE_AND_STORAGE, VBool (box_removeCacheAndStorage boxes)) ].

(** What the page shows after a click on the save button. *)
Inductive Status : Type :=
| InvalidLines (invalidLines : list jsstring)
| Duplicates (duplicates : list jsstring)
| SaveFailed
| Saved.

(** The click on the save button, given the text of the text area and
    the state of the check boxes. *)
Definition save_click (text : jsstring) (boxes : Checkboxes) : M Status :=
  let lines := textarea_lines text in
  let '(whitelist, invalidLines) := parse_lines lines 0 in
  if (0 <? length invalidLines)%nat then mret (InvalidLines invalidLines)
  else
    let duplicates := duplicate_scan whitelist 0 ∅ in
    if (0 <? length duplicates)%nat then mret (Duplicates duplicates)
    else
      try_catch
        (_ ← storage_local_set (saved_items whitelist boxes);
         mret Saved)
        (fun lastError => mret SaveFailed).

End Save.

(* ===================================================================== *)
(** ** options.js: what the page shows when it opens *)
(* ===================================================================== *)

Module OptionsPage.

(** [result[STORAGE_KEYS.WHITELIST] || []]; [None] when the stored value
    is truthy and not an array, on which [map] throws. *)
Definition stored_whitelist (result : gmap jsstring value)
  : option (list WhitelistEntry) :=
  let v := prop result STORAGE_KEYS.WHITELIST in
  if truthy v then
    match v with
    | VArr entries => Some entries
    | _ => None
    end
  else Some [].

(** [element.checked = result[key] ?? fallback]: the box takes the
    truth value of what is assigned. *)
Definition checked (result : gmap jsstring value) (key : jsstring)
    (fallback : value) : bool :=
  truthy (coalesce (prop result key) fallback).

(** The text area and the check boxes after [DOMContentLoaded], given the
    items read from the store; [None] when the handler throws before it
    fills them. *)
Definition shown (result : gmap jsstring value)
  : option (jsstring * Save.Checkboxes) :=
  match stored_whitelist result with
  | None => None
  | Some whitelist =>
      Some (textarea_value whitelist,
            Save.mkCheckboxes
              (checked result STORAGE_KEYS.RUN_ON_STARTUP
                 DEFAULT_SETTINGS.RUN_ON_STARTUP)
              (checked result STORAGE_KEYS.RUN_ON_CLOSE
                 DEFAULT_SETTINGS.RUN_ON_CLOSE)
              (checked result STORAGE_KEYS.REMOVE_DOWNLOADS
                 DEFAULT_SETTINGS.REMOVE_DOWNLOADS)
              (checked result STORAGE_KEYS.REMOVE_FORMDATA
                 DEFAULT_SETTINGS.REMOVE_FORMDATA)
              (checked result STORAGE_KEYS.REMOVE_HISTORY
                 DEFAULT_SETTINGS.REMOVE_HISTORY)
              (checked result STORAGE_KEYS.REMOVE_COOKIES
                 DEFAULT_SETTINGS.REMOVE_COOKIES)
              (checked result STORAGE_KEYS.REMOVE_CACHE_AND_STORAGE
                 DEFAULT_SETTINGS.REMOVE_CACHE_AND_STORAGE))
  end.

End OptionsPage.

(* ===================================================================== *)
(** ** background.js: the listeners *)
(* ===================================================================== *)

Module Background.

(** [loadSettings]: the [catch] logs and swallows. *)
Definition loadSettings : M unit :=
  try_catch Loader.load (fun error => mret tt).

(** The [onMessage] listener. *)
Definition onMessage (request : EventHandler.Request)
    (sender : EventHandler.Sender) : M bool :=
  EventHandler.handleMessage request sender.

(** The [onRemoved] listener. *)
Definition onRemoved (windowId : N) : M unit :=
  try_catch (EventHandler.handleWindowCloseEvent windowId)
            (fun error => mret tt).

(** The [onStartup] listener. *)
Definition onStartup : M unit :=
  _ ← loadSettings;
  EventHandler.handleStartupIfNeeded.

(** The [onInstalled] listener. *)
Definition onInstalled : M unit := loadSettings.

End Background.

(* ===================================================================== *)
(** ** The words of the specification, as definitions to compare with *)
(* ===================================================================== *)

Module Spec.

(** "Value if not nullish": the persisted value when there is one and
    it is neither [null] nor [undefined], else the default. *)
Definition value_if_not_nullish (persisted : option value) (default : value)
  : value :=
  match persisted with
  | None => default
  | Some VUndefined => default
  | Some VNull => default
  | Some v => v
  end.

(** What one whitelist entry contributes for a flag value: both
    origins when the flag is the number 1, nothing otherwise. *)
Definition contribution (flag : value) (e : WhitelistEntry) : list jsstring :=
  match flag with
  | VNum 1 => [str "https://" ++ trim (domain e);
               str "http://" ++ trim (domain e)]
  | _ => []
  end.

(** The three removal calls of one cleaning run. *)
Definition bulk_call (s : Settings) : RemovalCall :=
  {| options := {| since := 0; excludeOrigins := None |};
     dataTypes := [ (str "appcache", VBool true);
                    (str "downloads", removeDownloads s);
                    (str "formData", removeFormData s);
                    (str "history", removeHistory s) ] |}.

Definition cookie_call (s : Settings) : RemovalCall :=
  {| options := {| since := 0;
                   excludeOrigins := Some (getOriginsByFlag s (str "keepCookies")) |};
     dataTypes := [ (str "cookies", VBool true) ] |}.

Definition cache_call (s : Settings) : RemovalCall :=
  {| options := {| since := 0;
                   excludeOrigins := Some (getOriginsByFlag s (str "keepCache")) |};
     dataTypes := [ (str "cacheStorage", VBool true);
                    (str "cache", VBool true);
                    (str "fileSystems", VBool true);
                    (str "indexedDB", VBool true);
                    (str "localStorage", VBool true);
                    (str "serviceWorkers", VBool true);
                    (str "webSQL", VBool true) ] |}.

(** The calls of one run of [clearAll] under settings [s], in the
    order in which they are made. *)
Definition cleaning_calls (s : Settings) : list RemovalCall :=
  [bulk_call s]
  ++ (if truthy (SettingsManager.removeCookies s) then [cookie_call s] else [])
  ++ (if truthy (SettingsManager.removeCacheAndStorage s) then [cache_call s] else []).

End Spec.

(* ===================================================================== *)
(** ** Worlds along a run, and the vocabulary of the statements *)
(* ===================================================================== *)

(** The world after the removal calls [cs] have been made in it. *)
Definition after_calls (cs : list RemovalCall) (w : World) : World :=
  mkWorld (settings w) (local_store w) (session_store w) (normal_windows w)
    (runtime_id w) (removals w ++ cs) (responses w)
    (length cs + clock w) (faults w).

(** What a removal promise settles to: the fault of its host call. *)
Definition settled_at (w : World) (n : nat) : option Error := faults w (n + clock w).

(** The first rejection among the promises of the calls [0 .. n-1]. *)
Fixpoint first_fault (w : World) (from n : nat) : option Error :=
  match n with
  | O => None
  | S k =>
      match settled_at w from with
      | Some e => Some e
      | None => first_fault w (S from) k
      end
  end.

(** The session guard is set: [result.startupCleanExecuted] is truthy. *)
Definition guard_set (w : World) : bool :=
  truthy (prop (session_store w) EventHandler.startupCleanExecuted).

(** The world after the guard has been written. *)
Definition with_guard (w : World) : World :=
  set_session_store
    (<[EventHandler.startupCleanExecuted := VBool true]> (session_store w)) w.

(** The response that reports how [clearAll] ended. *)
Definition report (o : outcome unit) : Response.t :=
  match o with
  | Ok _ => Response.mk true None
  | Throw e => Response.mk false (Some (message e))
  end.

(** The settings a reload reads from the persistent store. *)
Definition reloaded (w : World) : Settings :=
  applyLoadedSettings (items_of Loader.keys (local_store w)).

(** [!windows || windows.length === 0] *)
Definition no_window_left (windows : option (list N)) : bool :=
  match windows with
  | None => true
  | Some ws => (length ws =? 0)%nat
  end.

(** The text of a flag and the number it stands for. *)
Definition flag_text (b : bool) : jsstring := if b then str "1" else str "0".
Definition flag_number (b : bool) : Z := if b then 1%Z else 0%Z.

(** Removing the first entry of the domain, as one recursion. *)
Fixpoint without_first (d : jsstring) (wl : list WhitelistEntry)
  : list WhitelistEntry :=
  match wl with
  | [] => []
  | e :: rest => if Popup.is_current d e then rest else e :: without_first d rest
  end.

(** A flag as the options page stores it: a boolean, or nothing yet. *)
Definition boolean_or_absent (v : value) : Prop :=
  v = VUndefined \/ v = VNull \/ exists b, v = VBool b.

(** An entry as the editing boundary stores it: a valid domain and two
    flags that are the numbers 0 or 1. *)
Definition well_formed (e : WhitelistEntry) : Prop :=
  valid (validateDomainName (domain e)) = true
  /\ (keepCookies e = VNum 0 \/ keepCookies e = VNum 1)
  /\ (keepCache e = VNum 0 \/ keepCache e = VNum 1).

(* ===================================================================== *)
(** ** The shape of a domain name *)
(* ===================================================================== *)

Module Rules.

(** The code units of a label. *)
Definition is_digit (c : N) : bool := (48 <=? c) && (c <=? 57).
Definition is_letter (c : N) : bool :=
  ((65 <=? c) && (c <=? 90)) || ((97 <=? c) && (c <=? 122)).
Definition is_alnum (c : N) : bool := is_letter c || is_digit c.
Definition is_hyphen (c : N) : bool := c =? 45.
Definition is_label_unit (c : N) : bool := is_alnum c || is_hyphen c.

(** A label: alphanumeric, possibly hyphenated, neither starting nor
    ending with a hyphen (so not empty). *)
Definition label_rule (l : jsstring) : bool :=
  match l with
  | [] => false
  | first :: _ =>
      forallb is_label_unit l
      && negb (is_hyphen first) && negb (is_hyphen (List.last l first))
  end.

(** The final label: at least two letters, and letters only. *)
Definition tld_rule (t : jsstring) : bool :=
  (2 <=? length t)%nat && forallb is_letter t.

(** The label/TLD rules as they are worded: the name is one or more
    dot-separated labels, each of them a label in the sense above; the
    final one is made of two or more letters; the whole is at most 253
    units long and every label at most 63. *)
Definition stated_rules (d : jsstring) : bool :=
  let labels := split 46 d in
  (length d <=? 253)%nat
  && (1 <=? length labels)%nat
  && forallb label_rule labels
  && tld_rule (List.last labels [])
  && forallb (fun l => (length l <=? 63)%nat) labels.

(** The label/TLD rules as the pattern has them: one or more labels,
    each followed by a dot, and then the final label, so two labels at
    least; the whole is at most 253 units long and every label at most
    63. *)
Definition domain_rules (d : jsstring) : bool :=
  let labels := split 46 d in
  (length d <=? 253)%nat
  && (2 <=? length labels)%nat
  && forallb label_rule (removelast labels)
  && tld_rule (List.last labels [])
  && forallb (fun l => (length l <=? 63)%nat) labels.

(** What [DOMAIN_REGEX] alone asks of a name: as above, without the
    bound on the whole and with the bound of 63 on every label but the
    final one. *)
Definition domain_shape (d : jsstring) : bool :=
  let labels := split 46 d in
  (2 <=? length labels)%nat
  && forallb (fun l => label_rule l && (length l <=? 63)%nat) (removelast labels)
  && tld_rule (List.last labels []).

(** The checks of [validateDomainName] in their order, each with the
    message it returns when it fails. *)
Definition checks : list ((jsstring -> bool) * jsstring) :=
  [ (fun d => (length d =? 0)%nat, Msg.empty);
    (fun d => (253 <? length d)%nat, Msg.too_long);
    (fun d => test DANGEROUS_CHARS_REGEX d, Msg.dangerous);
    (fun d => includes (str "*") d, Msg.wildcard);
    (fun d => negb (test ASCII_ONLY_REGEX d), Msg.non_ascii);
    (fun d => negb (test DOMAIN_REGEX d), Msg.bad_format);
    (fun d => includes (str "..") d, Msg.double_dot);
    (fun d => startsWith (str ".") d || endsWith (str ".") d, Msg.edge_dot);
    (fun d => existsb (fun l => (63 <? length l)%nat) (split 46 d),
     Msg.label_too_long) ].

(** The verdict of the first check that fails, if any. *)
Definition first_failure (d : jsstring) : Validation :=
  match List.find (fun chk => fst chk d) checks with
  | Some chk => invalid (snd chk)
  | None => mkValidation true None
  end.

End Rules.

Import Rules.

(* ===================================================================== *)
(** ** Concrete sessions and whitelists *)
(* ===================================================================== *)

(** A session in which the host rejects the first removal call: the
    store holds [runOnStartup: true] only in memory, the guard is unset,
    and the call numbered 1 (the bulk removal of the first run; call 0 is
    the read of the guard) fails. *)
Definition failing_session : World :=
  {| settings :=
       {| whitelist := VArr [];
          runOnStartup := VBool true; runOnClose := VBool false;
          removeDownloads := VBool true; removeFormData := VBool true;
          removeHistory := VBool true; removeCookies := VBool true;
          removeCacheAndStorage := VBool true |};
     local_store := ∅;
     session_store := ∅;
     normal_windows := Some [1];
     runtime_id := str "dehistory";
     removals := [];
     responses := [];
     clock := 0;
     faults := fun n =>
       match n with
       | 1%nat => Some (mkError (str "removal failed"))
       | _ => None
       end |}.

(** A world with the default settings, empty stores and a host that never
    reports an error. *)
Definition quiet_world : World :=
  {| settings := initializeDefaults;
     local_store := ∅;
     session_store := ∅;
     normal_windows := Some [];
     runtime_id := str "dehistory";
     removals := [];
     responses := [];
     clock := 0;
     faults := fun _ => None |}.

(** A world whose store asks for cleaning on close, with no normal
    window left, and the same world with one window still open. *)
Definition closing_world (windows : list N) : World :=
  {| settings := initializeDefaults;
     local_store := <[str "runOnClose" := VBool true]> ∅;
     session_store := ∅;
     normal_windows := Some windows;
     runtime_id := str "dehistory";
     removals := [];
     responses := [];
     clock := 0;
     faults := fun _ => None |}.

(** A session whose host never reports an error, with [runOnStartup]
    true and the guard unset. *)
Definition startup_session : World :=
  {| settings :=
       {| whitelist := VArr [];
          runOnStartup := VBool true; runOnClose := VBool false;
          removeDownloads := VBool true; removeFormData := VBool true;
          removeHistory := VBool true; removeCookies := VBool true;
          removeCacheAndStorage := VBool true |};
     local_store := ∅;
     session_store := ∅;
     normal_windows := Some [1];
     runtime_id := str "dehistory";
     removals := [];
     responses := [];
     clock := 0;
     faults := fun _ => None |}.

(** A process that has just started, with its default settings in
    memory, a store that asks for cleaning at startup, and a host that
    fails the first read of the store. *)
Definition unreadable_store : World :=
  {| settings := initializeDefaults;
     local_store := <[str "runOnStartup" := VBool true]> ∅;
     session_store := ∅;
     normal_windows := Some [1];
     runtime_id := str "dehistory";
     removals := [];
     responses := [];
     clock := 0;
     faults := fun n =>
       match n with
       | O => Some (mkError (str "read failed"))
       | _ => None
       end |}.

(** The whitelist of the specification's example. *)
Definition example_whitelist : list WhitelistEntry :=
  [ mkEntry (str "a.com") (VNum 1) (VNum 0);
    mkEntry (str "b.com") (VNum 0) (VNum 1) ].

(* ===================================================================== *)
(** ** Proof steps *)
(* ===================================================================== *)

Ltac keys_differ :=
  let H := fresh in intro H; vm_compute in H; discriminate H.

Ltac no_branch t :=
  lazymatch t with
  | context [if _ then _ else _] => fail
  | _ => idtac
  end.

Ltac split_tests :=
  repeat match goal with
  | |- context [N.leb ?a ?b] =>
      no_branch a; no_branch b; destruct (N.leb_spec a b); cbn [andb orb negb]
  | |- context [N.eqb ?a ?b] =>
      no_branch a; no_branch b; destruct (N.eqb_spec a b); cbn [andb orb negb]
  end;
  try reflexivity; try lia.

(* ===================================================================== *)
(** ** Settings: defaults and exclusion origins *)
(* ===================================================================== *)

Section SettingsFacts.

Lemma coalesce_prop (result : gmap jsstring value) (key : jsstring) (d : value) :
  coalesce (prop result key) d = Spec.value_if_not_nullish (result !! key) d.
Proof.
  unfold coalesce, prop, Spec.value_if_not_nullish.
  destruct (result !! key) as [v|]; [destruct v|]; reflexivity.
Qed.

Lemma prop_items_of (keys : list jsstring) (store : gmap jsstring value)
    (key : jsstring) :
  key ∈ keys -> prop (items_of keys store) key = prop store key.
Proof.
  intros Hin. unfold prop, items_of.
  rewrite map_lookup_filter.
  destruct (store !! key) as [v|]; simpl; [|reflexivity].
  rewrite option_guard_True by exact Hin. reflexivity.
Qed.

Lemma prop_items_of_empty (keys : list jsstring) (key : jsstring) :
  prop (items_of keys ∅) key = VUndefined.
Proof.
  unfold prop, items_of. rewrite map_filter_empty, lookup_empty. reflexivity.
Qed.

End SettingsFacts.

(** C8.  Applied to the empty store, [applyLoadedSettings] gives exactly
    the documented defaults; every field is the value-if-not-nullish of
    the lookup of its own key and its own default; a persisted [false]
    or [0] is kept and an absent, [null] or [undefined] value falls back
    to the default. *)
Theorem applyLoadedSettings_defaults_nullish :
  applyLoadedSettings ∅ =
    {| whitelist := VArr [];
       runOnStartup := VBool false;
       runOnClose := VBool false;
       removeDownloads := VBool true;
       removeFormData := VBool true;
       removeHistory := VBool true;
       removeCookies := VBool true;
       removeCacheAndStorage := VBool true |}
  /\ applyLoadedSettings (items_of Loader.keys ∅) = applyLoadedSettings ∅
  /\ (forall result : gmap jsstring value,
        applyLoadedSettings result =
          {| whitelist :=
               Spec.value_if_not_nullish (result !! str "whitelist") (VArr []);
             runOnStartup :=
               Spec.value_if_not_nullish (result !! str "runOnStartup") (VBool false);
             runOnClose :=
               Spec.value_if_not_nullish (result !! str "runOnClose") (VBool false);
             removeDownloads :=
               Spec.value_if_not_nullish (result !! str "removeDownloads") (VBool true);
             removeFormData :=
               Spec.value_if_not_nullish (result !! str "removeFormData") (VBool true);
             removeHistory :=
               Spec.value_if_not_nullish (result !! str "removeHistory") (VBool true);
             removeCookies :=
               Spec.value_if_not_nullish (result !! str "removeCookies") (VBool true);
             removeCacheAndStorage :=
               Spec.value_if_not_nullish (result !! str "removeCacheAndStorage")
                 (VBool true) |})
  /\ (forall d : value,
        Spec.value_if_not_nullish (Some (VBool false)) d = VBool false
        /\ Spec.value_if_not_nullish (Some (VNum 0)) d = VNum 0
        /\ Spec.value_if_not_nullish None d = d
        /\ Spec.value_if_not_nullish (Some VNull) d = d
        /\ Spec.value_if_not_nullish (Some VUndefined) d = d
        /\ (forall v, v <> VNull -> v <> VUndefined ->
              Spec.value_if_not_nullish (Some v) d = v)).
Proof.
  assert (Hgen : forall result : gmap jsstring value,
    applyLoadedSettings result =
      {| whitelist :=
           Spec.value_if_not_nullish (result !! str "whitelist") (VArr []);
         runOnStartup :=
           Spec.value_if_not_nullish (result !! str "runOnStartup") (VBool false);
         runOnClose :=
           Spec.value_if_not_nullish (result !! str "runOnClose") (VBool false);
         removeDownloads :=
           Spec.value_if_not_nullish (result !! str "removeDownloads") (VBool true);
         removeFormData :=
           Spec.value_if_not_nullish (result !! str "removeFormData") (VBool true);
         removeHistory :=
           Spec.value_if_not_nullish (result !! str "removeHistory") (VBool true);
         removeCookies :=
           Spec.value_if_not_nullish (result !! str "removeCookies") (VBool true);
         removeCacheAndStorage :=
           Spec.value_if_not_nullish (result !! str "removeCacheAndStorage")
             (VBool true) |}).
  { intros result. unfold applyLoadedSettings.
    rewrite !coalesce_prop. reflexivity. }
  split; [|split; [|split]].
  - rewrite Hgen, !lookup_empty. reflexivity.
  - unfold applyLoadedSettings. rewrite !prop_items_of_empty.
    unfold prop. rewrite !lookup_empty. reflexivity.
  - exact Hgen.
  - intros d. repeat split.
    intros v Hn Hu. destruct v; try reflexivity; congruence.
Qed.

Lemma applyLoadedSettings_defaults_nullish_witness :
  Spec.value_if_not_nullish (Some (VStr (str "yes"))) (VBool false)
    = VStr (str "yes").
Proof.
  apply (proj2 (proj2 (proj2 (proj2 (proj2
    (proj2 (proj2 (proj2 applyLoadedSettings_defaults_nullish)) (VBool false)))))));
    discriminate.
Defined.

Section Origins.

Lemma entry_prop_keepCookies (e : WhitelistEntry) :
  entry_prop e (str "keepCookies") = keepCookies e.
Proof. reflexivity. Qed.

Lemma entry_prop_keepCache (e : WhitelistEntry) :
  entry_prop e (str "keepCache") = keepCache e.
Proof. reflexivity. Qed.

Lemma strict_eq_num_1 (v : value) : strict_eq_num v 1 = true <-> v = VNum 1.
Proof.
  destruct v; simpl; try (split; [discriminate | congruence]).
  rewrite Z.eqb_eq. split; congruence.
Qed.

Lemma contribution_spec (v : value) (e : WhitelistEntry) :
  Spec.contribution v e = if strict_eq_num v 1 then origins_of e else [].
Proof.
  destruct v as [| |b|n| |s|l]; try reflexivity.
  destruct n as [|p|p]; try reflexivity.
  destruct p; reflexivity.
Qed.

Lemma origins_by_contribution (read : WhitelistEntry -> value)
    (entries : list WhitelistEntry) :
  List.flat_map origins_of
    (List.filter (fun e => strict_eq_num (read e) 1) entries)
  = List.concat (List.map (fun e => Spec.contribution (read e) e) entries).
Proof.
  induction entries as [|e entries IH]; [reflexivity|].
  cbn [List.filter List.map List.concat].
  rewrite contribution_spec.
  destruct (strict_eq_num (read e) 1).
  - cbn [List.flat_map]. rewrite IH. reflexivity.
  - rewrite IH. reflexivity.
Qed.

End Origins.

(** C2.  For a whitelist [entries] and either flag name,
    [getOriginsByFlag] is the concatenation, in whitelist order, of what
    each entry contributes: [https://domain] then [http://domain] (domain
    trimmed) when the entry's flag is the number 1, nothing when it is 0
    or any other value; and on the two-entry whitelist of the
    specification the result for [keepCookies] is exactly the two origins
    of [a.com]. *)
Theorem getOriginsByFlag_spec :
  (forall (s : Settings) (entries : list WhitelistEntry),
      whitelist s = VArr entries ->
      getOriginsByFlag s (str "keepCookies")
        = List.concat (List.map (fun e => Spec.contribution (keepCookies e) e) entries)
      /\ getOriginsByFlag s (str "keepCache")
        = List.concat (List.map (fun e => Spec.contribution (keepCache e) e) entries))
  /\ (forall e : WhitelistEntry,
        Spec.contribution (VNum 1) e
          = [str "https://" ++ trim (domain e); str "http://" ++ trim (domain e)]
        /\ Spec.contribution (VNum 0) e = []
        /\ (forall v, v <> VNum 1 -> Spec.contribution v e = []))
  /\ (getOriginsByFlag
          {| whitelist := VArr [ mkEntry (str "a.com") (VNum 1) (VNum 0);
                                 mkEntry (str "b.com") (VNum 0) (VNum 1) ];
             runOnStartup := VBool false; runOnClose := VBool false;
             removeDownloads := VBool true; removeFormData := VBool true;
             removeHistory := VBool true; removeCookies := VBool true;
             removeCacheAndStorage := VBool true |}
          (str "keepCookies")
        = [str "https://a.com"; str "http://a.com"]).
Proof.
  split; [|split].
  - intros s entries Hw. unfold getOriginsByFlag. rewrite Hw.
    split.
    + rewrite <- (origins_by_contribution keepCookies). reflexivity.
    + rewrite <- (origins_by_contribution keepCache). reflexivity.
  - intros e. split; [reflexivity|]. split; [reflexivity|].
    intros v Hv. rewrite contribution_spec.
    destruct (strict_eq_num v 1) eqn:E; [|reflexivity].
    apply strict_eq_num_1 in E. contradiction.
  - vm_compute. reflexivity.
Qed.

Lemma getOriginsByFlag_spec_witness :
  getOriginsByFlag
    (mkSettings (VArr example_whitelist) VNull VNull VNull VNull VNull VNull VNull)
    (str "keepCache")
  = List.concat
      (List.map (fun e => Spec.contribution (keepCache e) e) example_whitelist).
Proof.
  apply (proj2 (proj1 getOriginsByFlag_spec
    (mkSettings (VArr example_whitelist) VNull VNull VNull VNull VNull VNull VNull)
    example_whitelist eq_refl)).
Defined.

(* ===================================================================== *)
(** ** The cleaner *)
(* ===================================================================== *)

Section Cleaner.

Lemma removeBrowsingData_run (o : RemovalOptions) (types : list (jsstring * value))
    (w : World) :
  DataCleaner.removeBrowsingData o types w =
    (match settled_at w 0 with Some e => Throw e | None => Ok tt end,
     after_calls [mkCall o types] w).
Proof.
  unfold DataCleaner.removeBrowsingData, browsingData_remove, host_call, settled_at.
  cbn. destruct (faults w (clock w)); reflexivity.
Qed.

Lemma after_calls_nil (w : World) : after_calls [] w = w.
Proof. destruct w. unfold after_calls. cbn. rewrite app_nil_r. reflexivity. Qed.

Lemma after_calls_app (cs1 cs2 : list RemovalCall) (w : World) :
  after_calls cs2 (after_calls cs1 w) = after_calls (cs1 ++ cs2) w.
Proof.
  unfold after_calls. cbn. f_equal.
  - rewrite app_assoc. reflexivity.
  - rewrite length_app. lia.
Qed.

Lemma removeBulkData_run (w : World) :
  DataCleaner.removeBulkData w =
    (match settled_at w 0 with Some e => Throw e | None => Ok tt end,
     after_calls [Spec.bulk_call (settings w)] w).
Proof.
  unfold DataCleaner.removeBulkData, mbind, M_bind, bind, get_settings.
  rewrite removeBrowsingData_run. reflexivity.
Qed.

Lemma removeCookies_run (w : World) :
  DataCleaner.removeCookies w =
    if truthy (SettingsManager.removeCookies (settings w)) then
      (match settled_at w 0 with Some e => Throw e | None => Ok tt end,
       after_calls [Spec.cookie_call (settings w)] w)
    else (Ok tt, w).
Proof.
  unfold DataCleaner.removeCookies, mbind, M_bind, bind, get_settings.
  destruct (truthy (SettingsManager.removeCookies (settings w))); cbn.
  - rewrite removeBrowsingData_run. reflexivity.
  - reflexivity.
Qed.

Lemma removeCacheAndStorage_run (w : World) :
  DataCleaner.removeCacheAndStorage w =
    if truthy (SettingsManager.removeCacheAndStorage (settings w)) then
      (match settled_at w 0 with Some e => Throw e | None => Ok tt end,
       after_calls [Spec.cache_call (settings w)] w)
    else (Ok tt, w).
Proof.
  unfold DataCleaner.removeCacheAndStorage, mbind, M_bind, bind, get_settings.
  destruct (truthy (SettingsManager.removeCacheAndStorage (settings w))); cbn.
  - rewrite removeBrowsingData_run. reflexivity.
  - reflexivity.
Qed.

Lemma settled_at_after (cs : list RemovalCall) (w : World) (n : nat) :
  settled_at (after_calls cs w) n = settled_at w (n + length cs).
Proof. unfold settled_at, after_calls. cbn. f_equal. lia. Qed.

(** One run of [clearAll]: its calls are made whatever the host answers,
    and it throws the first rejection, if any. *)
Lemma clearAll_run (w : World) :
  DataCleaner.clearAll w =
    (match first_fault w 0 (length (Spec.cleaning_calls (settings w))) with
     | Some e => Throw e
     | None => Ok tt
     end,
     after_calls (Spec.cleaning_calls (settings w)) w).
Proof.
  unfold DataCleaner.clearAll, try_catch, mbind, M_bind, bind, settle.
  rewrite removeBulkData_run.
  unfold Spec.cleaning_calls.
  set (s := settings w).
  assert (Hs1 : settings (after_calls [Spec.bulk_call s] w) = s) by reflexivity.
  destruct (truthy (SettingsManager.removeCookies s)) eqn:Ec;
  destruct (truthy (SettingsManager.removeCacheAndStorage s)) eqn:Es.
  all: destruct (settled_at w 0) as [e0|] eqn:E0.
  all: rewrite removeCookies_run, Hs1, Ec.
  all: rewrite ?settled_at_after; cbn [length Nat.add].
  all: destruct (settled_at w 1) as [e1|] eqn:E1.
  all: rewrite removeCacheAndStorage_run; cbn [settings after_calls]; fold s;
       rewrite Es.
  all: rewrite ?settled_at_after; cbn [length Nat.add].
  all: try destruct (settled_at w 2) as [e2|] eqn:E2.
  all: cbn [promise_all throw ret first_fault app length];
       rewrite ?E0, ?E1, ?E2; cbn.
  all: rewrite ?after_calls_app; reflexivity.
Qed.

End Cleaner.

(** C1.  For every world, hence every Settings value, [clearAll] makes
    exactly these removal calls, in this order and whatever the host
    answers: the bulk call ([appcache: true], downloads, form data and
    history as the three flags say, [since: 0], no origin excluded);
    then, unless [removeCookies] is falsy, the cookie call ([since: 0],
    excluding [getOriginsByFlag(keepCookies)]); then, unless
    [removeCacheAndStorage] is falsy, the cache/storage call (the seven
    types, [since: 0], excluding [getOriginsByFlag(keepCache)]).  Each
    pass on its own makes its one call or, when its flag is falsy,
    none. *)
Theorem clearAll_three_passes (w : World) :
  let s := settings w in
  let bulk :=
    {| options := {| since := 0; excludeOrigins := None |};
       dataTypes := [ (str "appcache", VBool true);
                      (str "downloads", removeDownloads s);
                      (str "formData", removeFormData s);
                      (str "history", removeHistory s) ] |} in
  let cookies :=
    {| options := {| since := 0;
                     excludeOrigins := Some (getOriginsByFlag s (str "keepCookies")) |};
       dataTypes := [ (str "cookies", VBool true) ] |} in
  let storage :=
    {| options := {| since := 0;
                     excludeOrigins := Some (getOriginsByFlag s (str "keepCache")) |};
       dataTypes := [ (str "cacheStorage", VBool true);
                      (str "cache", VBool true);
                      (str "fileSystems", VBool true);
                      (str "indexedDB", VBool true);
                      (str "localStorage", VBool true);
                      (str "serviceWorkers", VBool true);
                      (str "webSQL", VBool true) ] |} in
  removals (exec DataCleaner.removeBulkData w) = removals w ++ [bulk]
  /\ removals (exec DataCleaner.removeCookies w) =
       removals w ++ (if truthy (removeCookies s) then [cookies] else [])
  /\ removals (exec DataCleaner.removeCacheAndStorage w) =
       removals w ++ (if truthy (removeCacheAndStorage s) then [storage] else [])
  /\ removals (exec DataCleaner.clearAll w) =
       removals w ++ [bulk]
         ++ (if truthy (removeCookies s) then [cookies] else [])
         ++ (if truthy (removeCacheAndStorage s) then [storage] else [])
  /\ truthy (VBool false) = false
  /\ settings (exec DataCleaner.clearAll w) = s.
Proof.
  intros s bulk cookies storage. unfold exec.
  rewrite removeBulkData_run, removeCookies_run, removeCacheAndStorage_run,
    clearAll_run.
  fold s.
  repeat split.
  - destruct (truthy (removeCookies s)); cbn; [reflexivity|].
    rewrite app_nil_r. reflexivity.
  - destruct (truthy (removeCacheAndStorage s)); cbn; [reflexivity|].
    rewrite app_nil_r. reflexivity.
Qed.

(* ===================================================================== *)
(** ** The startup trigger *)
(* ===================================================================== *)

Section Startup.

Lemma prop_items_of_single (key : jsstring) (store : gmap jsstring value) :
  prop (items_of [key] store) key = prop store key.
Proof. apply prop_items_of. apply list_elem_of_singleton. reflexivity. Qed.

Lemma guard_set_tick (w : World) : guard_set (tick w) = guard_set w.
Proof. reflexivity. Qed.

Lemma guard_set_after_calls (cs : list RemovalCall) (w : World) :
  guard_set (after_calls cs w) = guard_set w.
Proof. reflexivity. Qed.

Lemma guard_set_with_guard (w : World) : guard_set (with_guard w) = true.
Proof.
  unfold guard_set, with_guard, prop. cbn.
  rewrite lookup_insert_eq. reflexivity.
Qed.

(** The whole effect of the startup handler. *)
Lemma handleStartupIfNeeded_run (w : World) :
  EventHandler.handleStartupIfNeeded w =
    (Ok tt,
     match faults w (clock w) with
     | Some _ => tick w
     | None =>
         if guard_set w then tick w
         else if truthy (runOnStartup (settings w)) then
           let w1 := after_calls (Spec.cleaning_calls (settings w)) (tick w) in
           match result DataCleaner.clearAll (tick w) with
           | Throw _ => w1
           | Ok _ =>
               match faults w1 (clock w1) with
               | Some _ => tick w1
               | None => tick (with_guard w1)
               end
           end
         else tick w
     end).
Proof.
  unfold EventHandler.handleStartupIfNeeded, try_catch, mbind, M_bind, bind,
    mret, M_ret, ret, storage_session_get, host_call, get_settings.
  destruct (faults w (clock w)) as [e|] eqn:Ef; [reflexivity|].
  rewrite prop_items_of_single.
  change (truthy (prop (session_store (tick w)) EventHandler.startupCleanExecuted))
    with (guard_set w).
  destruct (guard_set w); [reflexivity|].
  cbn [settings tick].
  destruct (truthy (runOnStartup (settings w))); [|reflexivity].
  unfold result. rewrite clearAll_run. cbn [fst settings tick].
  destruct (first_fault (tick w) 0 _) as [e|]; [reflexivity|].
  unfold storage_session_set, host_call.
  set (w1 := after_calls _ (tick w)).
  destruct (faults w1 (clock w1)); reflexivity.
Qed.

End Startup.

(** C3, as the code has it.  When the guard is set, or when its read
    fails, the handler makes no removal call and leaves the session store
    alone.  When the guard is
    unset and [runOnStartup] is falsy it neither cleans nor sets the
    guard.  When the guard is unset, its read succeeds and [runOnStartup]
    is truthy, the handler makes the calls of one [clearAll], and the
    guard is set afterwards exactly when that [clearAll] succeeded and
    the write of the guard succeeded too; so the guard is set only after
    a successful full run.  Once a call has set the guard, a second call
    makes no removal call. *)
Theorem handleStartupIfNeeded_guarded (w : World) :
  let handler := EventHandler.handleStartupIfNeeded in
  let w' := exec handler w in
  let w1 := after_calls (Spec.cleaning_calls (settings w)) (tick w) in
  (guard_set w = true ->
     removals w' = removals w /\ session_store w' = session_store w)
  /\ (faults w (clock w) <> None ->
        removals w' = removals w /\ session_store w' = session_store w)
  /\ (guard_set w = false -> truthy (runOnStartup (settings w)) = false ->
        removals w' = removals w /\ session_store w' = session_store w)
  /\ (guard_set w = false -> truthy (runOnStartup (settings w)) = true ->
      faults w (clock w) = None ->
        removals w' = removals w ++ Spec.cleaning_calls (settings w)
        /\ (guard_set w' = true <->
              result DataCleaner.clearAll (tick w) = Ok tt
              /\ faults w1 (clock w1) = None))
  /\ (guard_set w = false -> guard_set w' = true ->
        result DataCleaner.clearAll (tick w) = Ok tt)
  /\ (guard_set w' = true -> removals (exec handler w') = removals w').
Proof.
  intros handler w' w1.
  assert (Hset : forall v : World, guard_set v = true ->
            removals (exec handler v) = removals v
            /\ session_store (exec handler v) = session_store v).
  { intros v Hg. unfold exec, handler. rewrite handleStartupIfNeeded_run.
    cbn [snd]. rewrite Hg. destruct (faults v (clock v)); split; reflexivity. }
  assert (Hrun : exec handler w = w') by reflexivity.
  unfold exec, handler in Hrun. rewrite handleStartupIfNeeded_run in Hrun.
  cbn [snd] in Hrun. fold w1 in Hrun.
  split; [exact (Hset w)|].
  split.
  { intros Hf. rewrite <- Hrun.
    destruct (faults w (clock w)); [split; reflexivity | congruence]. }
  split.
  { intros Hg Hr. rewrite Hg, Hr in Hrun. rewrite <- Hrun.
    destruct (faults w (clock w)); split; reflexivity. }
  split.
  { intros Hg Hr Hf. rewrite Hf, Hg, Hr in Hrun. cbv zeta in Hrun.
    destruct (result DataCleaner.clearAll (tick w)) as [[]|e] eqn:Ec.
    - destruct (faults w1 (clock w1)) as [e|] eqn:E1; rewrite <- Hrun.
      + split; [reflexivity|].
        rewrite guard_set_tick. unfold w1. rewrite guard_set_after_calls.
        rewrite guard_set_tick, Hg.
        split; [discriminate|]. intros [_ H]. discriminate.
      + split; [reflexivity|].
        rewrite guard_set_tick, guard_set_with_guard. split; auto.
    - rewrite <- Hrun. split; [reflexivity|].
      unfold w1. rewrite guard_set_after_calls, guard_set_tick, Hg.
      split; [discriminate|]. intros [H _]. discriminate. }
  split.
  { intros Hg Hg'. rewrite Hg in Hrun. rewrite <- Hrun in Hg'.
    destruct (faults w (clock w)).
    { rewrite guard_set_tick in Hg'. congruence. }
    destruct (truthy (runOnStartup (settings w))).
    2:{ rewrite guard_set_tick in Hg'. congruence. }
    cbv zeta in Hg'.
    destruct (result DataCleaner.clearAll (tick w)) as [[]|e]; [reflexivity|].
    unfold w1 in Hg'. rewrite guard_set_after_calls, guard_set_tick in Hg'.
    congruence. }
  intros Hg'. exact (proj1 (Hset w' Hg')).
Qed.

Lemma handleStartupIfNeeded_guarded_witness :
  guard_set (exec EventHandler.handleStartupIfNeeded startup_session) = true
  /\ removals (exec EventHandler.handleStartupIfNeeded
                (exec EventHandler.handleStartupIfNeeded startup_session))
     = removals (exec EventHandler.handleStartupIfNeeded startup_session).
Proof.
  assert (Hset : guard_set (exec EventHandler.handleStartupIfNeeded startup_session)
                 = true).
  { apply (proj2 (proj1 (proj2 (proj2 (proj2
             (handleStartupIfNeeded_guarded startup_session))))
             eq_refl eq_refl eq_refl)).
    split; vm_compute; reflexivity. }
  split; [exact Hset|].
  apply (proj2 (proj2 (proj2 (proj2 (proj2
           (handleStartupIfNeeded_guarded startup_session)))))).
  exact Hset.
Defined.

(** C3, as stated, fails: in [failing_session] the guard is unset and
    [runOnStartup] is true; the first call of the handler makes the three
    removal calls of a [clearAll] that fails and leaves the guard unset;
    the second call in the same session is not a no-op: it makes three
    more removal calls. *)
Lemma handleStartupIfNeeded_twice_cleans_twice :
  guard_set failing_session = false
  /\ runOnStartup (settings failing_session) = VBool true
  /\ length (removals (exec EventHandler.handleStartupIfNeeded failing_session)) = 3%nat
  /\ guard_set (exec EventHandler.handleStartupIfNeeded failing_session) = false
  /\ length (removals (exec EventHandler.handleStartupIfNeeded
               (exec EventHandler.handleStartupIfNeeded failing_session))) = 6%nat.
Proof. vm_compute. repeat split; reflexivity. Qed.

(* ===================================================================== *)
(** ** The message trigger *)
(* ===================================================================== *)

Section Messages.

Lemma str_eqb_eq (s t : jsstring) : str_eqb s t = true <-> s = t.
Proof.
  revert t. induction s as [|a s IH]; intros [|b t]; cbn;
    try (split; [discriminate|congruence]); [tauto|].
  unfold unit_eqb. rewrite andb_true_iff, N.eqb_eq, IH.
  split; [intros [-> ->]; reflexivity | intros [= -> ->]; auto].
Qed.

Lemma str_eqb_refl (s : jsstring) : str_eqb s s = true.
Proof. apply str_eqb_eq. reflexivity. Qed.

Lemma strict_eq_str_true (v : value) (s : jsstring) :
  strict_eq_str v s = true <-> v = VStr s.
Proof.
  destruct v; cbn; try (split; [discriminate|congruence]).
  rewrite str_eqb_eq. split; congruence.
Qed.

Lemma handleDeleteDataRequest_run (w : World) :
  EventHandler.handleDeleteDataRequest w =
    (Ok tt,
     log_response (report (result DataCleaner.clearAll w))
       (after_calls (Spec.cleaning_calls (settings w)) w)).
Proof.
  unfold EventHandler.handleDeleteDataRequest, try_catch, mbind, M_bind, bind,
    result.
  rewrite clearAll_run. cbn [fst].
  destruct (first_fault w 0 _); reflexivity.
Qed.

Lemma handleMessage_run (request : EventHandler.Request)
    (sender : EventHandler.Sender) (w : World) :
  EventHandler.handleMessage request sender w =
    if truthy (EventHandler.id sender)
       && strict_eq_str (EventHandler.id sender) (runtime_id w)
    then
      if strict_eq_str (EventHandler.action request) (str "deleteData")
      then (Ok true,
            log_response (report (result DataCleaner.clearAll w))
              (after_calls (Spec.cleaning_calls (settings w)) w))
      else (Ok false, w)
    else (Ok false,
          log_response (Response.mk false (Some (str "Unauthorized"))) w).
Proof.
  unfold EventHandler.handleMessage, EventHandler.isValidSender, try_catch,
    mbind, M_bind, bind, mret, M_ret, ret, get_runtime_id.
  destruct (truthy (EventHandler.id sender)
            && strict_eq_str (EventHandler.id sender) (runtime_id w));
    cbn [negb].
  - destruct (strict_eq_str (EventHandler.action request) (str "deleteData")).
    + rewrite handleDeleteDataRequest_run. reflexivity.
    + reflexivity.
  - reflexivity.
Qed.

End Messages.

(** C5.  A message whose sender's id is not the extension's own id is
    answered [{success: false, error: 'Unauthorized'}], the handler
    returns [false], and nothing else in the world changes: no removal
    call is made.  A [deleteData] request of the extension itself makes
    the calls of one [clearAll] and is then answered [{success: true}]
    when [clearAll] succeeded and [{success: false, error: message}],
    with the message of the error [clearAll] threw, when it failed. *)
Theorem handleMessage_authorization
    (request : EventHandler.Request) (sender : EventHandler.Sender) (w : World) :
  let run := EventHandler.handleMessage request sender in
  (EventHandler.id sender <> VStr (runtime_id w) ->
     run w = (Ok false,
              log_response (Response.mk false (Some (str "Unauthorized"))) w)
     /\ removals (exec run w) = removals w
     /\ responses (exec run w) =
          responses w ++ [Response.mk false (Some (str "Unauthorized"))])
  /\ (EventHandler.id sender = VStr (runtime_id w) -> runtime_id w <> [] ->
      EventHandler.action request = VStr (str "deleteData") ->
        result run w = Ok true
        /\ removals (exec run w) = removals w ++ Spec.cleaning_calls (settings w)
        /\ (result DataCleaner.clearAll w = Ok tt ->
              responses (exec run w) = responses w ++ [Response.mk true None])
        /\ (forall e, result DataCleaner.clearAll w = Throw e ->
              responses (exec run w) =
                responses w ++ [Response.mk false (Some (message e))])).
Proof.
  intros run. unfold run, exec, result.
  rewrite handleMessage_run. unfold result.
  split.
  - intros Hid.
    destruct (strict_eq_str (EventHandler.id sender) (runtime_id w)) eqn:E.
    { apply strict_eq_str_true in E. contradiction. }
    rewrite andb_false_r. repeat split.
  - intros Hid Hne Hact. rewrite Hid, Hact. cbn [strict_eq_str truthy].
    rewrite !str_eqb_refl.
    destruct (runtime_id w) as [|c r] eqn:Er; [congruence|].
    cbn [andb fst snd].
    repeat split.
    + intros Hok. rewrite Hok. reflexivity.
    + intros e He. rewrite He. reflexivity.
Qed.

Lemma handleMessage_authorization_witness :
  responses (exec (EventHandler.handleMessage
                     (EventHandler.mkRequest (VStr (str "deleteData")))
                     (EventHandler.mkSender (VStr (str "intruder"))))
                  quiet_world)
    = [Response.mk false (Some (str "Unauthorized"))]
  /\ responses (exec (EventHandler.handleMessage
                     (EventHandler.mkRequest (VStr (str "deleteData")))
                     (EventHandler.mkSender (VStr (str "dehistory"))))
                  quiet_world)
    = [Response.mk true None].
Proof.
  split.
  - apply (proj1 (handleMessage_authorization
             (EventHandler.mkRequest (VStr (str "deleteData")))
             (EventHandler.mkSender (VStr (str "intruder"))) quiet_world)).
    vm_compute. discriminate.
  - apply (proj2 (handleMessage_authorization
             (EventHandler.mkRequest (VStr (str "deleteData")))
             (EventHandler.mkSender (VStr (str "dehistory"))) quiet_world)).
    + reflexivity.
    + vm_compute. discriminate.
    + reflexivity.
    + vm_compute. reflexivity.
Defined.

(* ===================================================================== *)
(** ** The window-close trigger *)
(* ===================================================================== *)

Section WindowClose.

Lemma load_run (w : World) :
  Loader.load w =
    match faults w (clock w) with
    | Some e => (Throw e, tick w)
    | None => (Ok tt, set_settings (reloaded w) (tick w))
    end.
Proof.
  unfold Loader.load, try_catch, mbind, M_bind, bind, storage_local_get,
    host_call, put_settings, throw.
  destruct (faults w (clock w)); reflexivity.
Qed.

Lemma handleWindowCloseEvent_run (closedWindowId : N) (w : World) :
  EventHandler.handleWindowCloseEvent closedWindowId w =
    (Ok tt,
     match faults w (clock w) with
     | Some _ => tick w
     | None =>
         let w1 := set_settings (reloaded w) (tick w) in
         if truthy (runOnClose (reloaded w)) then
           match faults w (S (clock w)) with
           | Some _ => tick w1
           | None =>
               if no_window_left (normal_windows w)
               then after_calls (Spec.cleaning_calls (reloaded w)) (tick w1)
               else tick w1
           end
         else w1
     end).
Proof.
  unfold EventHandler.handleWindowCloseEvent, try_catch, mbind, M_bind, bind.
  rewrite load_run.
  destruct (faults w (clock w)) as [e|] eqn:Ef; [reflexivity|].
  unfold get_settings. cbn [settings set_settings].
  destruct (truthy (runOnClose (reloaded w))); cbn [negb]; [|reflexivity].
  unfold EventHandler.checkIfLastWindow, mbind, M_bind, bind, windows_getAll,
    host_call, mret, M_ret, ret.
  cbn [faults clock set_settings tick normal_windows].
  destruct (faults w (S (clock w))); [reflexivity|].
  fold (no_window_left (normal_windows w)).
  destruct (no_window_left (normal_windows w)); [|reflexivity].
  rewrite clearAll_run. cbn [settings set_settings tick].
  destruct (first_fault _ 0 _); reflexivity.
Qed.

Lemma cleaning_calls_nonempty (s : Settings) : Spec.cleaning_calls s <> [].
Proof. unfold Spec.cleaning_calls. discriminate. Qed.

End WindowClose.

(** C4.  On a window-close event whose reload of the settings succeeds,
    the shared settings are first replaced by what the persistent store
    holds, and the decision is taken on these.  When the reloaded
    [runOnClose] is falsy nothing more happens: no removal call, no query
    of the windows.  When it is truthy and the query of the open normal
    windows answers with the array [ws], the calls of one [clearAll]
    (under the reloaded settings) are made when [ws] is empty and no
    removal call is made when [ws] holds one window or more; since a
    [clearAll] always makes a call, a removal happens exactly when [ws]
    is empty. *)
Theorem handleWindowCloseEvent_last_window (closedWindowId : N) (w : World) :
  faults w (clock w) = None ->
  let s' := applyLoadedSettings (items_of Loader.keys (local_store w)) in
  let w' := exec (EventHandler.handleWindowCloseEvent closedWindowId) w in
  settings w' = s'
  /\ (truthy (runOnClose s') = false ->
        removals w' = removals w /\ clock w' = S (clock w))
  /\ (truthy (runOnClose s') = true -> faults w (S (clock w)) = None ->
      forall ws : list N, normal_windows w = Some ws ->
        (ws = [] -> removals w' = removals w ++ Spec.cleaning_calls s')
        /\ (ws <> [] -> removals w' = removals w)
        /\ (removals w' <> removals w <-> ws = [])).
Proof.
  intros Hload s' w'.
  assert (Hrun : exec (EventHandler.handleWindowCloseEvent closedWindowId) w = w')
    by reflexivity.
  unfold exec in Hrun. rewrite handleWindowCloseEvent_run in Hrun.
  cbn [snd] in Hrun. rewrite Hload in Hrun.
  change (reloaded w) with s' in Hrun. cbv zeta in Hrun.
  split.
  { rewrite <- Hrun. destruct (truthy (runOnClose s')); [|reflexivity].
    destruct (faults w (S (clock w))); [reflexivity|].
    destruct (no_window_left (normal_windows w)); reflexivity. }
  split.
  { intros Hoff. rewrite Hoff in Hrun. rewrite <- Hrun. split; reflexivity. }
  intros Hon Hquery ws Hws.
  rewrite Hon, Hquery, Hws in Hrun.
  destruct ws as [|x ws]; cbn [no_window_left length Nat.eqb] in Hrun;
    rewrite <- Hrun.
  - split; [reflexivity|]. split; [congruence|].
    split; [reflexivity|]. intros _. cbn [removals after_calls tick set_settings].
    intros Heq. apply (cleaning_calls_nonempty s').
    rewrite <- (app_nil_r (removals w)) in Heq at 2.
    apply app_inv_head in Heq. exact Heq.
  - split; [discriminate|]. split; [reflexivity|].
    split; [intros H; exfalso; apply H; reflexivity | discriminate].
Qed.

Lemma handleWindowCloseEvent_last_window_witness :
  length (removals (exec (EventHandler.handleWindowCloseEvent 7) (closing_world [])))
    = 3%nat
  /\ removals (exec (EventHandler.handleWindowCloseEvent 7) (closing_world [4]))
    = [].
Proof.
  split.
  - assert (H := proj1 (proj2 (proj2
      (handleWindowCloseEvent_last_window 7 (closing_world []) eq_refl))
        ltac:(vm_compute; reflexivity) eq_refl [] eq_refl) eq_refl).
    rewrite H. vm_compute. reflexivity.
  - apply (proj1 (proj2 (proj2 (proj2
      (handleWindowCloseEvent_last_window 7 (closing_world [4]) eq_refl))
        ltac:(vm_compute; reflexivity) eq_refl [4] eq_refl))).
    discriminate.
Defined.

(* ===================================================================== *)
(** ** Whitelist lines *)
(* ===================================================================== *)

Section Lines.

Lemma isValidFlag_spec (f : jsstring) :
  isValidFlag f = true <-> f = str "0" \/ f = str "1".
Proof.
  unfold isValidFlag. rewrite orb_true_iff, !str_eqb_eq. reflexivity.
Qed.

Lemma isValidFlag_flag_text (b : bool) : isValidFlag (flag_text b) = true.
Proof. destruct b; reflexivity. Qed.

Lemma parseInt_flag_text (b : bool) :
  of_parsed (parseInt (flag_text b)) = VNum (flag_number b).
Proof. destruct b; reflexivity. Qed.

Lemma split_nonempty (c : N) (s : jsstring) : split c s <> [].
Proof.
  induction s as [|x s IH]; cbn; [discriminate|].
  destruct (unit_eqb x c); [discriminate|].
  destruct (split c s); discriminate.
Qed.

(** The number of parts is one more than the number of separators. *)
Lemma split_length (c : N) (s : jsstring) :
  length (split c s) = S (length (List.filter (fun x => unit_eqb x c) s)).
Proof.
  induction s as [|x s IH]; [reflexivity|].
  cbn [split List.filter].
  destruct (unit_eqb x c); cbn [length].
  - rewrite IH. reflexivity.
  - destruct (split c s) as [|h r] eqn:E.
    + exfalso. exact (split_nonempty c s E).
    + exact IH.
Qed.

End Lines.

(** C6.  [parseWhitelistLine] splits the line on the comma, so that a
    line with [k] commas has [k + 1] parts, and trims each part.  When
    the first part fails [validateDomainName] the result is the failure
    carrying that check's message, whatever the other parts are.
    Otherwise: one part gives the entry with both flags 1; three parts
    give the entry with the two flags as numbers when the second and the
    third part are each the text [0] or [1], and the flag failure when
    they are not; any other number of parts gives the format failure.
    Every failure message is [行], the decimal of [lineIndex + 1], [: ],
    the reason, and the original line in brackets.  In particular
    [parseWhitelistLine("example.com,2,1", 0)] is the flag failure for
    line 1. *)
Theorem parseWhitelistLine_cases (line : jsstring) (lineIndex : N) :
  let parts := List.map trim (split 44 line) in
  let domain := nth 0 parts [] in
  let checked := validateDomainName domain in
  let failure (what : jsstring) :=
    ParseResult.mk false None
      (Some (Msg.line ++ number_to_string (lineIndex + 1) ++ str ": " ++ what
               ++ str " (" ++ line ++ str ")")) in
  length parts = S (length (List.filter (fun c => N.eqb c 44) line))
  /\ (valid checked = false ->
        parseWhitelistLine line lineIndex = failure (error_text checked))
  /\ (valid checked = true -> length parts = 1%nat ->
        parseWhitelistLine line lineIndex =
          ParseResult.mk true (Some (mkEntry domain (VNum 1) (VNum 1))) None)
  /\ (valid checked = true -> length parts = 3%nat ->
        (forall keepCookies keepCache : bool,
            nth 1 parts [] = flag_text keepCookies ->
            nth 2 parts [] = flag_text keepCache ->
            parseWhitelistLine line lineIndex =
              ParseResult.mk true
                (Some (mkEntry domain (VNum (flag_number keepCookies))
                                      (VNum (flag_number keepCache)))) None)
        /\ (~ ((nth 1 parts [] = str "0" \/ nth 1 parts [] = str "1")
               /\ (nth 2 parts [] = str "0" \/ nth 2 parts [] = str "1")) ->
            parseWhitelistLine line lineIndex = failure Msg.bad_flag))
  /\ (valid checked = true -> length parts <> 1%nat -> length parts <> 3%nat ->
        parseWhitelistLine line lineIndex = failure Msg.bad_line_format)
  /\ parseWhitelistLine (str "example.com,2,1") 0 =
       ParseResult.mk false None
         (Some (Msg.line ++ str "1: " ++ Msg.bad_flag ++ str " (example.com,2,1)")).
Proof.
  intros parts domain checked failure.
  unfold parseWhitelistLine, line_message.
  fold parts. fold domain. fold checked.
  split.
  { unfold parts. rewrite length_map. apply split_length. }
  split.
  { intros Hv. rewrite Hv. reflexivity. }
  split.
  { intros Hv Hl. rewrite Hv, Hl. reflexivity. }
  split.
  { intros Hv Hl. rewrite Hv, Hl. cbn [negb Nat.eqb].
    split.
    - intros fc fk Hc Hk. rewrite Hc, Hk, !isValidFlag_flag_text.
      cbn [negb orb]. rewrite !parseInt_flag_text. reflexivity.
    - intros Hbad.
      destruct (isValidFlag (nth 1 parts [])) eqn:E1;
        destruct (isValidFlag (nth 2 parts [])) eqn:E2; try reflexivity.
      exfalso. apply Hbad.
      split; apply isValidFlag_spec; assumption. }
  split.
  { intros Hv H1 H3. rewrite Hv. cbn [negb].
    apply Nat.eqb_neq in H1, H3. rewrite H1, H3. reflexivity. }
  vm_compute. reflexivity.
Qed.

Lemma parseWhitelistLine_cases_witness :
  parseWhitelistLine (str " example.com , 1 ,0") 4 =
    ParseResult.mk true (Some (mkEntry (str "example.com") (VNum 1) (VNum 0))) None
  /\ parseWhitelistLine (str "example.com,1") 4 =
    ParseResult.mk false None
      (Some (Msg.line ++ str "5: " ++ Msg.bad_line_format ++ str " (example.com,1)")).
Proof.
  split.
  - apply (proj1 (proj1 (proj2 (proj2 (proj2
      (parseWhitelistLine_cases (str " example.com , 1 ,0") 4))))
        ltac:(vm_compute; reflexivity) eq_refl) true false eq_refl eq_refl).
  - apply (proj1 (proj2 (proj2 (proj2 (proj2
      (parseWhitelistLine_cases (str "example.com,1") 4)))))
        ltac:(vm_compute; reflexivity)); vm_compute; discriminate.
Defined.

(* ===================================================================== *)
(** ** Regular expressions: the matcher decides the words of a pattern *)
(* ===================================================================== *)

Section RegexTheory.

Variable i : bool.

Lemma matches_empty_inv (s : jsstring) : ~ matches i Empty s.
Proof. intros H. inversion H. Qed.

Lemma matches_eps_inv (s : jsstring) : matches i Eps s -> s = [].
Proof. intros H. inversion H. reflexivity. Qed.

Lemma matches_class_inv (cs : list (N * N)) (s : jsstring) :
  matches i (Class cs) s -> exists c, s = [c] /\ in_class i cs c = true.
Proof. intros H. inversion H; subst. eauto. Qed.

Lemma matches_any_inv (s : jsstring) : matches i Any s -> exists c, s = [c].
Proof. intros H. inversion H; subst. eauto. Qed.

Lemma matches_seq_inv (r1 r2 : regex) (s : jsstring) :
  matches i (Seq r1 r2) s ->
  exists s1 s2, s = s1 ++ s2 /\ matches i r1 s1 /\ matches i r2 s2.
Proof. intros H. inversion H; subst. eauto. Qed.

Lemma matches_alt_inv (r1 r2 : regex) (s : jsstring) :
  matches i (Alt r1 r2) s -> matches i r1 s \/ matches i r2 s.
Proof. intros H. inversion H; subst; auto. Qed.

Lemma matches_star_inv (r : regex) (s : jsstring) :
  matches i (Star r) s ->
  s = [] \/
  exists c s1 s2,
    s = (c :: s1) ++ s2 /\ matches i r (c :: s1) /\ matches i (Star r) s2.
Proof.
  intros H. remember (Star r) as r0 eqn:Er.
  induction H as [| | | | | | r' | r' s1 s2 H1 _ H2 IH2]; try discriminate.
  - left. reflexivity.
  - injection Er as ->.
    destruct s1 as [|c s1].
    + apply IH2. reflexivity.
    + right. exists c, s1, s2. auto.
Qed.

Lemma matches_mkSeq (r1 r2 : regex) (s : jsstring) :
  matches i (mkSeq r1 r2) s <-> matches i (Seq r1 r2) s.
Proof.
  assert (Hl : forall r, ~ matches i (Seq Empty r) s).
  { intros r H. apply matches_seq_inv in H as (s1 & s2 & _ & H & _).
    exact (matches_empty_inv _ H). }
  assert (Hr : forall r, ~ matches i (Seq r Empty) s).
  { intros r H. apply matches_seq_inv in H as (s1 & s2 & _ & _ & H).
    exact (matches_empty_inv _ H). }
  destruct r1, r2; cbn [mkSeq]; try tauto;
    (split; [intros H; exfalso; exact (matches_empty_inv _ H)|]);
    intros H; exfalso; first [exact (Hl _ H) | exact (Hr _ H)].
Qed.

Lemma matches_mkAlt (r1 r2 : regex) (s : jsstring) :
  matches i (mkAlt r1 r2) s <-> matches i (Alt r1 r2) s.
Proof.
  assert (Hl : forall r, matches i (Alt Empty r) s <-> matches i r s).
  { intros r. split; [|apply MAltR].
    intros H. apply matches_alt_inv in H as [H|H]; [|exact H].
    exfalso. exact (matches_empty_inv _ H). }
  assert (Hr : forall r, matches i (Alt r Empty) s <-> matches i r s).
  { intros r. split; [|apply MAltL].
    intros H. apply matches_alt_inv in H as [H|H]; [exact H|].
    exfalso. exact (matches_empty_inv _ H). }
  destruct r1, r2; cbn [mkAlt]; rewrite ?Hl, ?Hr; tauto.
Qed.

Lemma nullable_spec (r : regex) : nullable r = true <-> matches i r [].
Proof.
  induction r as [| | cs | | r1 IH1 r2 IH2 | r1 IH1 r2 IH2 | r IH]; cbn [nullable].
  - split; [discriminate|]. intros H. exfalso. exact (matches_empty_inv _ H).
  - split; [constructor | reflexivity].
  - split; [discriminate|]. intros H.
    apply matches_class_inv in H as (c & Hc & _). discriminate.
  - split; [discriminate|]. intros H.
    apply matches_any_inv in H as (c & Hc). discriminate.
  - rewrite andb_true_iff, IH1, IH2. split.
    + intros [H1 H2]. exact (MSeq i r1 r2 [] [] H1 H2).
    + intros H. apply matches_seq_inv in H as (s1 & s2 & Hs & H1 & H2).
      symmetry in Hs. apply app_eq_nil in Hs as [-> ->]. auto.
  - rewrite orb_true_iff, IH1, IH2. split.
    + intros [H|H]; [apply MAltL | apply MAltR]; exact H.
    + apply matches_alt_inv.
  - split; [constructor | reflexivity].
Qed.

Lemma deriv_spec (r : regex) (c : N) (s : jsstring) :
  matches i (deriv i c r) s <-> matches i r (c :: s).
Proof.
  revert s.
  induction r as [| | cs | | r1 IH1 r2 IH2 | r1 IH1 r2 IH2 | r IH];
    intros s; cbn [deriv].
  - split; intros H; exfalso; exact (matches_empty_inv _ H).
  - split; intros H; exfalso.
    + exact (matches_empty_inv _ H).
    + apply matches_eps_inv in H. discriminate.
  - destruct (in_class i cs c) eqn:E; split; intros H.
    + apply matches_eps_inv in H as ->. constructor. exact E.
    + apply matches_class_inv in H as (c' & [= -> ->] & _). constructor.
    + exfalso. exact (matches_empty_inv _ H).
    + apply matches_class_inv in H as (c' & [= -> ->] & H). congruence.
  - split; intros H.
    + apply matches_eps_inv in H as ->. constructor.
    + apply matches_any_inv in H as (c' & [= -> ->]). constructor.
  - assert (Hcons : matches i (Seq (deriv i c r1) r2) s <->
                    exists s1 s2, s = s1 ++ s2
                      /\ matches i r1 (c :: s1) /\ matches i r2 s2).
    { split.
      - intros H. apply matches_seq_inv in H as (s1 & s2 & -> & H1 & H2).
        exists s1, s2. rewrite <- IH1. auto.
      - intros (s1 & s2 & -> & H1 & H2). apply MSeq; [|exact H2].
        apply IH1. exact H1. }
    destruct (nullable r1) eqn:En.
    + rewrite matches_mkAlt. split.
      * intros H. apply matches_alt_inv in H as [H|H].
        -- apply matches_mkSeq, Hcons in H as (s1 & s2 & -> & H1 & H2).
           exact (MSeq i r1 r2 (c :: s1) s2 H1 H2).
        -- apply IH2 in H. apply nullable_spec in En.
           exact (MSeq i r1 r2 [] (c :: s) En H).
      * intros H. apply matches_seq_inv in H as (s1 & s2 & Hs & H1 & H2).
        destruct s1 as [|c' s1]; cbn in Hs.
        -- subst s2. apply MAltR, IH2. exact H2.
        -- injection Hs as -> ->. apply MAltL, matches_mkSeq, Hcons. eauto.
    + rewrite matches_mkSeq, Hcons. split.
      * intros (s1 & s2 & -> & H1 & H2). exact (MSeq i r1 r2 (c :: s1) s2 H1 H2).
      * intros H. apply matches_seq_inv in H as (s1 & s2 & Hs & H1 & H2).
        destruct s1 as [|c' s1]; cbn in Hs.
        -- apply nullable_spec in H1. congruence.
        -- injection Hs as -> ->. eauto.
  - rewrite matches_mkAlt. split.
    + intros H. apply matches_alt_inv in H as [H|H];
        [apply MAltL, IH1 | apply MAltR, IH2]; exact H.
    + intros H. apply matches_alt_inv in H as [H|H];
        [apply MAltL, IH1 | apply MAltR, IH2]; exact H.
  - rewrite matches_mkSeq. split.
    + intros H. apply matches_seq_inv in H as (s1 & s2 & -> & H1 & H2).
      apply IH in H1. exact (MStarApp i r (c :: s1) s2 H1 H2).
    + intros H. apply matches_star_inv in H as [H|(c' & s1 & s2 & Hs & H1 & H2)];
        [discriminate|].
      cbn in Hs. injection Hs as -> ->.
      apply MSeq; [apply IH; exact H1 | exact H2].
Qed.

(** The matcher is sound and complete for the words of a pattern. *)
Lemma matchb_spec (r : regex) (s : jsstring) :
  matchb i r s = true <-> matches i r s.
Proof.
  revert r. induction s as [|c s IH]; intros r; cbn [matchb].
  - apply nullable_spec.
  - rewrite IH. apply deriv_spec.
Qed.

(** Words of the patterns built from one class. *)
Lemma matches_class (cs : list (N * N)) (s : jsstring) :
  matches i (Class cs) s <-> exists c, s = [c] /\ in_class i cs c = true.
Proof.
  split; [apply matches_class_inv|].
  intros (c & -> & H). constructor. exact H.
Qed.

Lemma matches_star_class (cs : list (N * N)) (s : jsstring) :
  matches i (Star (Class cs)) s <-> forallb (in_class i cs) s = true.
Proof.
  induction s as [|c s IH].
  - split; [reflexivity | constructor].
  - cbn [forallb]. rewrite andb_true_iff, <- IH. split.
    + intros H.
      apply matches_star_inv in H as [H|(c' & s1 & s2 & Hs & H1 & H2)];
        [discriminate|].
      apply matches_class_inv in H1 as (c'' & [= -> ->] & Hc).
      cbn in Hs. injection Hs as -> ->. auto.
    + intros [Hc Hs].
      exact (MStarApp i (Class cs) [c] s (MClass i cs c Hc) Hs).
Qed.

Lemma matches_star_any (s : jsstring) : matches i (Star Any) s.
Proof.
  induction s as [|c s IH]; [constructor|].
  exact (MStarApp i Any [c] s (MAny i c) IH).
Qed.

Lemma matches_upto_class (n : nat) (cs : list (N * N)) (s : jsstring) :
  matches i (upto n (Class cs)) s <->
  (length s <= n)%nat /\ forallb (in_class i cs) s = true.
Proof.
  revert s. induction n as [|n IH]; intros s; cbn [upto].
  - split.
    + intros H. apply matches_eps_inv in H as ->. cbn. auto.
    + intros [Hl _]. destruct s; [constructor | cbn in Hl; lia].
  - unfold opt. split.
    + intros H. apply matches_alt_inv in H as [H|H].
      * apply matches_eps_inv in H as ->. cbn. split; [lia | reflexivity].
      * apply matches_seq_inv in H as (s1 & s2 & -> & H1 & H2).
        apply matches_class_inv in H1 as (c & -> & Hc).
        apply IH in H2 as [Hl Hf]. cbn. rewrite Hc, Hf. split; [lia | reflexivity].
    + intros [Hl Hf]. destruct s as [|c s]; [apply MAltL; constructor|].
      cbn in Hl, Hf. apply andb_true_iff in Hf as [Hc Hf].
      apply MAltR. apply (MSeq i (Class cs) _ [c] s); [constructor; exact Hc|].
      apply IH. split; [lia | exact Hf].
Qed.

Lemma matches_atleast_class (n : nat) (cs : list (N * N)) (s : jsstring) :
  matches i (atleast n (Class cs)) s <->
  (n <= length s)%nat /\ forallb (in_class i cs) s = true.
Proof.
  revert s. induction n as [|n IH]; intros s; cbn [atleast].
  - rewrite matches_star_class. split; [intros H; split; [lia | exact H] | tauto].
  - split.
    + intros H. apply matches_seq_inv in H as (s1 & s2 & -> & H1 & H2).
      apply matches_class_inv in H1 as (c & -> & Hc).
      apply IH in H2 as [Hl Hf]. cbn. rewrite Hc, Hf. split; [lia | reflexivity].
    + intros [Hl Hf]. destruct s as [|c s]; [cbn in Hl; lia|].
      cbn in Hl, Hf. apply andb_true_iff in Hf as [Hc Hf].
      apply (MSeq i (Class cs) _ [c] s); [constructor; exact Hc|].
      apply IH. split; [lia | exact Hf].
Qed.

End RegexTheory.

Section Classes.

Lemma class_alnum (c : N) : in_class true [(97, 122); (48, 57)] c = is_alnum c.
Proof.
  unfold in_class, in_ranges, to_upper, to_lower, is_alnum, is_letter, is_digit.
  cbn [existsb]. split_tests.
Qed.

Lemma class_alnum_hyphen (c : N) :
  in_class true [(97, 122); (48, 57); (45, 45)] c = is_label_unit c.
Proof.
  unfold in_class, in_ranges, to_upper, to_lower, is_label_unit, is_alnum,
    is_letter, is_digit, is_hyphen.
  cbn [existsb]. split_tests.
Qed.

Lemma class_letter (c : N) : in_class true [(97, 122)] c = is_letter c.
Proof.
  unfold in_class, in_ranges, to_upper, to_lower, is_letter.
  cbn [existsb]. split_tests.
Qed.

Lemma class_dot (c : N) : in_class true [(46, 46)] c = (c =? 46).
Proof.
  unfold in_class, in_ranges, to_upper, to_lower.
  cbn [existsb]. split_tests.
Qed.

Lemma alnum_label_unit (c : N) :
  is_alnum c = is_label_unit c && negb (is_hyphen c).
Proof.
  unfold is_label_unit, is_alnum, is_letter, is_digit, is_hyphen. split_tests.
Qed.

Lemma letter_label_unit (c : N) : is_letter c = true -> is_label_unit c = true.
Proof.
  unfold is_label_unit, is_alnum. intros ->. reflexivity.
Qed.

Lemma label_unit_not_dot (c : N) : is_label_unit c = true -> c <> 46.
Proof.
  unfold is_label_unit, is_alnum, is_letter, is_digit, is_hyphen.
  intros H ->. discriminate H.
Qed.

(** No unit of a label is a control or special-space unit, a star, or
    outside ASCII; nor is the dot. *)
Lemma label_unit_harmless (c : N) :
  is_label_unit c = true \/ c = 46 ->
  in_class false [(0, 31); (127, 159); (8192, 8207); (8232, 8239); (8287, 8303)] c
    = false
  /\ c <> 42 /\ in_class false [(0, 127)] c = true.
Proof.
  unfold is_label_unit, is_alnum, is_letter, is_digit, is_hyphen, in_class,
    in_ranges.
  cbn [existsb andb orb].
  intros [H| ->]; [|repeat split; discriminate].
  repeat rewrite ?orb_true_iff, ?andb_true_iff, ?N.leb_le, ?N.eqb_eq in H.
  repeat split.
  - rewrite !orb_false_r. split_tests.
  - lia.
  - rewrite !orb_false_r. apply andb_true_iff. rewrite !N.leb_le. lia.
Qed.

End Classes.

Section Splitting.

Variable c : N.

Lemma split_no_sep (s : jsstring) : ~ In c s -> split c s = [s].
Proof.
  induction s as [|x s IH]; intros Hn; [reflexivity|].
  cbn [split]. unfold unit_eqb.
  destruct (N.eqb_spec x c) as [->|Hx].
  - exfalso. apply Hn. left. reflexivity.
  - rewrite IH; [reflexivity|]. intros H. apply Hn. right. exact H.
Qed.

Lemma split_app_sep (l rest : jsstring) :
  ~ In c l -> split c (l ++ c :: rest) = l :: split c rest.
Proof.
  induction l as [|x l IH]; intros Hn; cbn [app split]; unfold unit_eqb.
  - rewrite N.eqb_refl. reflexivity.
  - destruct (N.eqb_spec x c) as [->|Hx].
    + exfalso. apply Hn. left. reflexivity.
    + rewrite IH; [reflexivity|]. intros H. apply Hn. right. exact H.
Qed.

(** Labels that hold no separator, each followed by one, and a final
    part: splitting gives back the labels and the final part. *)
Lemma split_labels (ls : list jsstring) (t : jsstring) :
  Forall (fun l => ~ In c l) ls -> ~ In c t ->
  split c (List.concat (List.map (fun l => l ++ [c]) ls) ++ t) = ls ++ [t].
Proof.
  intros Hls Ht. induction Hls as [|l ls Hl _ IH]; cbn [List.map List.concat app].
  - apply split_no_sep. exact Ht.
  - rewrite <- !app_assoc. cbn [app]. rewrite split_app_sep by exact Hl.
    rewrite IH. reflexivity.
Qed.

(** Splitting loses nothing: the parts but the last, each followed by
    the separator, and then the last part, are the string. *)
Lemma join_split (s : jsstring) :
  List.concat (List.map (fun l => l ++ [c]) (removelast (split c s)))
    ++ List.last (split c s) [] = s.
Proof.
  induction s as [|x s IH]; [reflexivity|].
  cbn [split]. unfold unit_eqb.
  destruct (split c s) as [|h r] eqn:Es.
  { exfalso. exact (split_nonempty c s Es). }
  destruct (N.eqb_spec x c) as [->|Hx].
  - change (removelast ([] :: h :: r)) with ([] :: removelast (h :: r)).
    change (List.last ([] :: h :: r) []) with (List.last (h :: r) []).
    cbn [List.map List.concat app]. rewrite IH. reflexivity.
  - destruct r as [|p ps].
    + cbn in IH. cbn. rewrite IH. reflexivity.
    + change (removelast ((x :: h) :: p :: ps))
        with ((x :: h) :: removelast (p :: ps)).
      change (List.last ((x :: h) :: p :: ps) [])
        with (List.last (p :: ps) []).
      change (removelast (h :: p :: ps)) with (h :: removelast (p :: ps)) in IH.
      change (List.last (h :: p :: ps) []) with (List.last (p :: ps) []) in IH.
      cbn [List.map List.concat app] in IH |- *.
      rewrite <- !app_assoc in IH |- *. cbn [app] in IH |- *.
      rewrite IH. reflexivity.
Qed.

Lemma parts_removelast_last (s : jsstring) :
  split c s = removelast (split c s) ++ [List.last (split c s) []].
Proof. apply app_removelast_last. apply split_nonempty. Qed.

(** Two separators in a row leave an empty part after the first one. *)
Lemma includes_two_seps (s : jsstring) :
  includes [c; c] s = true -> In [] (List.tl (split c s)).
Proof.
  induction s as [|x s IH]; [discriminate|].
  cbn [includes]. intros H. apply orb_true_iff in H as [H|H].
  - cbn [startsWith] in H. unfold unit_eqb in H.
    destruct s as [|y s]; [rewrite andb_false_r in H; discriminate|].
    apply andb_true_iff in H as [Hx H]. apply andb_true_iff in H as [Hy _].
    apply N.eqb_eq in Hx, Hy. subst x y.
    cbn [split]. unfold unit_eqb. rewrite N.eqb_refl. left. reflexivity.
  - specialize (IH H). cbn [split]. unfold unit_eqb.
    destruct (split c s) as [|h r] eqn:Es; [contradiction|].
    destruct (x =? c); cbn [List.tl] in IH |- *; [right|]; exact IH.
Qed.

Lemma startsWith_sep (s : jsstring) :
  startsWith [c] s = true -> List.hd [] (split c s) = [].
Proof.
  destruct s as [|x s]; [discriminate|].
  cbn [startsWith split]. unfold unit_eqb. rewrite andb_true_r.
  intros H. apply N.eqb_eq in H. subst x. rewrite N.eqb_refl. reflexivity.
Qed.

Lemma split_snoc_sep (s : jsstring) :
  List.last (split c (s ++ [c])) [] = [].
Proof.
  induction s as [|x s IH]; cbn [app split]; unfold unit_eqb.
  - rewrite N.eqb_refl. reflexivity.
  - destruct (split c (s ++ [c])) as [|h r] eqn:Es.
    { exfalso. exact (split_nonempty c _ Es). }
    destruct (x =? c).
    + exact IH.
    + destruct r as [|p ps]; [|exact IH].
      exfalso. assert (Hlen := split_length c (s ++ [c])).
      rewrite Es, List.filter_app, length_app in Hlen.
      cbn [List.filter] in Hlen. unfold unit_eqb in Hlen.
      rewrite N.eqb_refl in Hlen. cbn [length] in Hlen. lia.
Qed.

Lemma endsWith_sep (s : jsstring) :
  endsWith [c] s = true -> List.last (split c s) [] = [].
Proof.
  unfold endsWith. cbn [rev app]. intros H.
  destruct (rev s) as [|x r] eqn:Er; [discriminate|].
  cbn [startsWith] in H. unfold unit_eqb in H. rewrite andb_true_r in H.
  apply N.eqb_eq in H. subst x.
  assert (Hs : s = rev r ++ [c]).
  { rewrite <- (rev_involutive s), Er. reflexivity. }
  rewrite Hs. apply split_snoc_sep.
Qed.

(** [s.includes(c)] for a single unit. *)
Lemma includes_unit (s : jsstring) : includes [c] s = true <-> In c s.
Proof.
  induction s as [|x s IH]; cbn [includes startsWith In].
  - split; [discriminate | contradiction].
  - unfold unit_eqb. rewrite andb_true_r, orb_true_iff, IH, N.eqb_eq.
    split; (intros [H|H]; [left; congruence | right; exact H]).
Qed.

End Splitting.

Section DomainPattern.

Lemma forallb_eq {A} (f g : A -> bool) (l : list A) :
  (forall x, f x = g x) -> forallb f l = forallb g l.
Proof.
  intros H. induction l as [|x l IH]; [reflexivity|].
  cbn [forallb]. rewrite H, IH. reflexivity.
Qed.

Lemma label_rule_units (l : jsstring) :
  label_rule l = true -> forallb is_label_unit l = true.
Proof.
  destruct l as [|a l]; [discriminate|]. unfold label_rule.
  intros H. apply andb_true_iff in H as [H _]. apply andb_true_iff in H as [H _].
  exact H.
Qed.

Lemma label_rule_no_dot (l : jsstring) : label_rule l = true -> ~ In 46 l.
Proof.
  intros H Hin. apply label_rule_units in H.
  rewrite forallb_forall in H. apply (label_unit_not_dot 46); auto.
Qed.

Lemma tld_rule_no_dot (t : jsstring) : tld_rule t = true -> ~ In 46 t.
Proof.
  unfold tld_rule. intros H Hin. apply andb_true_iff in H as [_ H].
  rewrite forallb_forall in H. specialize (H 46 Hin). discriminate.
Qed.

(** The words of the label pattern are the labels of at most 63 units. *)
Lemma matches_label_pattern (l : jsstring) :
  matches true label_pattern l <->
  label_rule l = true /\ (length l <= 63)%nat.
Proof.
  unfold label_pattern, alnum, alnum_hyphen, opt. split.
  - intros H. apply matches_seq_inv in H as (s1 & s2 & -> & H1 & H2).
    apply matches_class_inv in H1 as (a & -> & Ha).
    rewrite class_alnum, alnum_label_unit in Ha.
    apply andb_true_iff in Ha as [Hau Hah].
    apply matches_alt_inv in H2 as [H2|H2].
    + apply matches_eps_inv in H2 as ->. cbn. rewrite Hau, Hah.
      split; [reflexivity | lia].
    + apply matches_seq_inv in H2 as (m & e & -> & Hm & He).
      apply matches_upto_class in Hm as [Hlen Hm].
      rewrite (forallb_eq _ _ _ class_alnum_hyphen) in Hm.
      apply matches_class_inv in He as (b & -> & Hb).
      rewrite class_alnum, alnum_label_unit in Hb.
      apply andb_true_iff in Hb as [Hbu Hbh].
      split.
      * cbn [app label_rule forallb].
        change (a :: m ++ [b]) with ((a :: m) ++ [b]). rewrite last_last.
        rewrite forallb_app. cbn [forallb]. rewrite Hau, Hm, Hbu, Hah, Hbh.
        reflexivity.
      * cbn [app length]. rewrite length_app. cbn [length]. lia.
  - intros [Hr Hlen]. destruct l as [|a rest]; [discriminate|].
    unfold label_rule in Hr.
    apply andb_true_iff in Hr as [Hr Hlast]. apply andb_true_iff in Hr as [Hu Hah].
    cbn [forallb] in Hu. apply andb_true_iff in Hu as [Hau Hu].
    assert (Ha : in_class true [(97, 122); (48, 57)] a = true).
    { rewrite class_alnum, alnum_label_unit, Hau, Hah. reflexivity. }
    apply (MSeq true _ _ [a] rest); [constructor; exact Ha|].
    destruct rest as [|r0 rest']; [apply MAltL; constructor|].
    destruct (exists_last (l := r0 :: rest') ltac:(discriminate)) as (m & b & E).
    rewrite E in Hu, Hlast, Hlen |- *.
    change (a :: m ++ [b]) with ((a :: m) ++ [b]) in Hlast.
    rewrite last_last in Hlast.
    rewrite forallb_app in Hu. apply andb_true_iff in Hu as [Hm Hb].
    cbn [forallb] in Hb. rewrite andb_true_r in Hb.
    cbn [length] in Hlen. rewrite length_app in Hlen. cbn [length] in Hlen.
    apply MAltR. apply MSeq.
    + apply matches_upto_class. split; [lia|].
      rewrite (forallb_eq _ _ _ class_alnum_hyphen). exact Hm.
    + constructor. rewrite class_alnum, alnum_label_unit, Hb, Hlast. reflexivity.
Qed.

(** Words of a starred pattern: concatenations of words of the pattern. *)
Lemma matches_star_concat (i : bool) (r : regex) (s : jsstring) :
  matches i (Star r) s <->
  exists ss, Forall (matches i r) ss /\ s = List.concat ss.
Proof.
  split.
  - intros H. remember (Star r) as r0 eqn:Er.
    induction H as [| | | | | | r' | r' s1 s2 H1 _ H2 IH2]; try discriminate.
    + exists []. split; [constructor | reflexivity].
    + injection Er as ->. destruct (IH2 eq_refl) as (ss & Hss & ->).
      exists (s1 :: ss). split; [constructor; assumption | reflexivity].
  - intros (ss & Hss & ->). induction Hss as [|s1 ss H1 _ IH]; cbn [List.concat].
    + constructor.
    + apply MStarApp; assumption.
Qed.

(** Words of [(label\.)*]: labels, each followed by a dot. *)
Lemma matches_dotted_labels (s : jsstring) :
  matches true (Star (Seq label_pattern dot)) s <->
  exists ls,
    Forall (fun l => label_rule l = true /\ (length l <= 63)%nat) ls
    /\ s = List.concat (List.map (fun l => l ++ [46]) ls).
Proof.
  rewrite matches_star_concat. split.
  - intros (ss & Hss & ->). induction Hss as [|s1 ss H1 _ (ls & Hls & IH)].
    + exists []. split; [constructor | reflexivity].
    + apply matches_seq_inv in H1 as (l & d & -> & Hl & Hd).
      apply matches_class_inv in Hd as (c & -> & Hc).
      rewrite class_dot in Hc. apply N.eqb_eq in Hc as ->.
      apply matches_label_pattern in Hl.
      exists (l :: ls). split; [constructor; assumption|].
      cbn [List.map List.concat]. rewrite IH. reflexivity.
  - intros (ls & Hls & ->).
    exists (List.map (fun l => l ++ [46]) ls). split; [|reflexivity].
    induction Hls as [|l ls Hl _ IH]; cbn [List.map]; constructor; [|exact IH].
    apply MSeq; [apply matches_label_pattern; exact Hl|].
    constructor. reflexivity.
Qed.

Lemma matches_tld (t : jsstring) :
  matches true (atleast 2 letter) t <-> tld_rule t = true.
Proof.
  unfold letter, tld_rule. rewrite matches_atleast_class.
  rewrite (forallb_eq _ _ _ class_letter), andb_true_iff, Nat.leb_le.
  reflexivity.
Qed.

(** The words of the pattern of [DOMAIN_REGEX]. *)
Lemma matches_domain_pattern (d : jsstring) :
  matches true (pattern DOMAIN_REGEX) d <-> domain_shape d = true.
Proof.
  cbn [pattern DOMAIN_REGEX]. unfold plus, domain_shape. split.
  - intros H. apply matches_seq_inv in H as (s1 & t & -> & H1 & Ht).
    apply matches_seq_inv in H1 as (s0 & s2 & -> & H0 & H2).
    apply matches_seq_inv in H0 as (l0 & d0 & -> & Hl0 & Hd0).
    apply matches_class_inv in Hd0 as (c & -> & Hc).
    rewrite class_dot in Hc. apply N.eqb_eq in Hc as ->.
    apply matches_label_pattern in Hl0.
    apply matches_dotted_labels in H2 as (ls & Hls & ->).
    apply matches_tld in Ht.
    change ((l0 ++ [46]) ++ List.concat (List.map (fun l => l ++ [46]) ls))
      with (List.concat (List.map (fun l => l ++ [46]) (l0 :: ls))).
    assert (Hall : Forall (fun l => label_rule l = true /\ (length l <= 63)%nat)
                     (l0 :: ls)) by (constructor; assumption).
    rewrite split_labels.
    + rewrite removelast_last, last_last, Ht, andb_true_r.
      apply andb_true_iff. split.
      * rewrite length_app. cbn [length]. apply Nat.leb_le. lia.
      * apply forallb_forall. intros l Hl.
        rewrite List.Forall_forall in Hall. destruct (Hall l Hl) as [Hr Hlen].
        rewrite Hr. apply Nat.leb_le. exact Hlen.
    + eapply List.Forall_impl; [|exact Hall]. intros l [Hr _].
      apply label_rule_no_dot. exact Hr.
    + apply tld_rule_no_dot. exact Ht.
  - intros H. apply andb_true_iff in H as [H Ht].
    apply andb_true_iff in H as [Hn Hls]. apply Nat.leb_le in Hn.
    rewrite <- (join_split 46 d).
    set (ls := removelast (split 46 d)) in *.
    assert (Hlen : length (split 46 d) = S (length ls)).
    { rewrite (parts_removelast_last 46 d) at 1. fold ls.
      rewrite length_app. cbn [length]. lia. }
    destruct ls as [|l0 ls]; [cbn [length] in Hlen; lia|].
    cbn [forallb] in Hls. apply andb_true_iff in Hls as [Hl0 Hls].
    cbn [List.map List.concat].
    apply MSeq; [|apply matches_tld; exact Ht].
    apply MSeq.
    + apply MSeq; [|constructor; reflexivity].
      apply matches_label_pattern.
      apply andb_true_iff in Hl0 as [Hr Hl]. apply Nat.leb_le in Hl. auto.
    + apply matches_dotted_labels. exists ls. split; [|reflexivity].
      apply List.Forall_forall. intros l Hl. rewrite forallb_forall in Hls.
      specialize (Hls l Hl). apply andb_true_iff in Hls as [Hr Hlen'].
      apply Nat.leb_le in Hlen'. auto.
Qed.

(** [DOMAIN_REGEX.test] decides the shape. *)
Lemma test_DOMAIN_REGEX (d : jsstring) : test DOMAIN_REGEX d = domain_shape d.
Proof.
  apply eq_true_iff_eq. unfold test. cbn [anchorStart anchorEnd ignoreCase DOMAIN_REGEX].
  change (Seq (plus (Seq label_pattern dot)) (atleast 2 letter))
    with (pattern DOMAIN_REGEX).
  rewrite matchb_spec. apply matches_domain_pattern.
Qed.

End DomainPattern.

Section Checks.

Lemma test_DANGEROUS_CHARS_REGEX (d : jsstring) :
  test DANGEROUS_CHARS_REGEX d =
    existsb (in_class false
               [(0, 31); (127, 159); (8192, 8207); (8232, 8239); (8287, 8303)]) d.
Proof.
  apply eq_true_iff_eq. unfold test.
  cbn [anchorStart anchorEnd ignoreCase pattern DANGEROUS_CHARS_REGEX].
  rewrite matchb_spec, existsb_exists. split.
  - intros H. apply matches_seq_inv in H as (s1 & s2 & -> & _ & H).
    apply matches_seq_inv in H as (s3 & s4 & -> & H & _).
    apply matches_class_inv in H as (c & -> & Hc).
    exists c. split; [|exact Hc].
    apply in_or_app. right. left. reflexivity.
  - intros (c & Hin & Hc). apply in_split in Hin as (l1 & l2 & ->).
    apply MSeq; [apply matches_star_any|].
    apply (MSeq false _ _ [c] l2); [constructor; exact Hc | apply matches_star_any].
Qed.

Lemma test_ASCII_ONLY_REGEX (d : jsstring) :
  test ASCII_ONLY_REGEX d = forallb (in_class false [(0, 127)]) d.
Proof.
  apply eq_true_iff_eq. unfold test.
  cbn [anchorStart anchorEnd ignoreCase pattern ASCII_ONLY_REGEX].
  rewrite matchb_spec. apply matches_star_class.
Qed.

Lemma ascii_class (c : N) : in_class false [(0, 127)] c = (c <=? 127).
Proof.
  unfold in_class, in_ranges. cbn [existsb andb orb]. rewrite !orb_false_r.
  destruct c; reflexivity.
Qed.

Lemma label_loop_spec (labels : list jsstring) :
  label_loop labels =
    if existsb (fun l => (63 <? length l)%nat) labels
    then invalid Msg.label_too_long
    else mkValidation true None.
Proof.
  induction labels as [|l labels IH]; [reflexivity|].
  cbn [label_loop existsb]. destruct (63 <? length l)%nat; [reflexivity | exact IH].
Qed.

(** The function is its cascade of checks. *)
Lemma validateDomainName_first_failure (d : jsstring) :
  validateDomainName d = first_failure d.
Proof.
  unfold validateDomainName, first_failure, checks. cbn [List.find fst snd].
  rewrite label_loop_spec.
  repeat match goal with
  | |- (if ?b then _ else _) = _ => destruct b; [reflexivity|]
  end.
  reflexivity.
Qed.

(** The verdict is positive exactly when no check fires. *)
Lemma validateDomainName_valid (d : jsstring) :
  valid (validateDomainName d) = true <->
  (length d =? 0)%nat = false
  /\ (253 <? length d)%nat = false
  /\ test DANGEROUS_CHARS_REGEX d = false
  /\ includes (str "*") d = false
  /\ test ASCII_ONLY_REGEX d = true
  /\ test DOMAIN_REGEX d = true
  /\ includes (str "..") d = false
  /\ (startsWith (str ".") d || endsWith (str ".") d) = false
  /\ existsb (fun l => (63 <? length l)%nat) (split 46 d) = false.
Proof.
  unfold validateDomainName. rewrite label_loop_spec.
  destruct (length d =? 0)%nat; [cbn; intuition discriminate|].
  destruct (253 <? length d)%nat; [cbn; intuition discriminate|].
  destruct (test DANGEROUS_CHARS_REGEX d); [cbn; intuition discriminate|].
  destruct (includes (str "*") d); [cbn; intuition discriminate|].
  destruct (test ASCII_ONLY_REGEX d); cbn [negb]; [|cbn; intuition discriminate].
  destruct (test DOMAIN_REGEX d); cbn [negb]; [|cbn; intuition discriminate].
  destruct (includes (str "..") d); [cbn; intuition discriminate|].
  destruct (startsWith (str ".") d || endsWith (str ".") d);
    [cbn; intuition discriminate|].
  destruct (existsb _ (split 46 d)); cbn; intuition discriminate.
Qed.

Lemma shape_parts (d : jsstring) :
  domain_shape d = true ->
  forall p, In p (split 46 d) ->
    (label_rule p = true /\ (length p <= 63)%nat /\ In p (removelast (split 46 d)))
    \/ (tld_rule p = true /\ p = List.last (split 46 d) []).
Proof.
  unfold domain_shape. intros H p Hp.
  apply andb_true_iff in H as [H Ht]. apply andb_true_iff in H as [_ Hls].
  rewrite (parts_removelast_last 46 d) in Hp.
  apply in_app_or in Hp as [Hp|[<-|[]]].
  - left. rewrite forallb_forall in Hls. specialize (Hls p Hp).
    apply andb_true_iff in Hls as [Hr Hl]. apply Nat.leb_le in Hl. auto.
  - right. auto.
Qed.

Lemma shape_parts_nonempty (d : jsstring) :
  domain_shape d = true -> ~ In [] (split 46 d).
Proof.
  intros H Hin. destruct (shape_parts d H [] Hin) as [(Hr & _)|(Ht & _)];
    discriminate.
Qed.

Lemma shape_units (d : jsstring) :
  domain_shape d = true ->
  forall c, In c d -> is_label_unit c = true \/ c = 46.
Proof.
  intros H c Hc. rewrite <- (join_split 46 d) in Hc.
  apply in_app_or in Hc as [Hc|Hc].
  - apply in_concat in Hc as (x & Hx & Hc).
    apply in_map_iff in Hx as (l & <- & Hl).
    apply in_app_or in Hc as [Hc|[<-|[]]]; [|right; reflexivity].
    left.
    assert (Hl' : In l (split 46 d)).
    { rewrite (parts_removelast_last 46 d). apply in_or_app. left. exact Hl. }
    destruct (shape_parts d H l Hl') as [(Hr & _)|(Ht & _)].
    + apply label_rule_units in Hr. rewrite forallb_forall in Hr. auto.
    + unfold tld_rule in Ht. apply andb_true_iff in Ht as [_ Ht].
      rewrite forallb_forall in Ht. apply letter_label_unit. auto.
  - left.
    assert (Hl : In (List.last (split 46 d) []) (split 46 d)).
    { rewrite (parts_removelast_last 46 d) at 2. apply in_or_app.
      right. left. reflexivity. }
    destruct (shape_parts d H _ Hl) as [(Hr & _)|(Ht & _)].
    + apply label_rule_units in Hr. rewrite forallb_forall in Hr. auto.
    + unfold tld_rule in Ht. apply andb_true_iff in Ht as [_ Ht].
      rewrite forallb_forall in Ht. apply letter_label_unit. auto.
Qed.

(** Whatever [DOMAIN_REGEX] accepts passes the six checks around it. *)
Lemma shape_passes (d : jsstring) :
  test DOMAIN_REGEX d = true ->
  (length d =? 0)%nat = false
  /\ test DANGEROUS_CHARS_REGEX d = false
  /\ includes (str "*") d = false
  /\ test ASCII_ONLY_REGEX d = true
  /\ includes (str "..") d = false
  /\ (startsWith (str ".") d || endsWith (str ".") d) = false.
Proof.
  rewrite test_DOMAIN_REGEX. intros H.
  assert (Hu := shape_units d H). assert (Hp := shape_parts_nonempty d H).
  split.
  { destruct d; [discriminate H | reflexivity]. }
  split.
  { rewrite test_DANGEROUS_CHARS_REGEX. apply not_true_is_false. intros E.
    apply existsb_exists in E as (c & Hc & E).
    destruct (label_unit_harmless c (Hu c Hc)) as (Hd & _ & _). congruence. }
  split.
  { apply not_true_is_false. intros E.
    apply (includes_unit 42) in E.
    destruct (label_unit_harmless 42 (Hu 42 E)) as (_ & Hs & _). congruence. }
  split.
  { rewrite test_ASCII_ONLY_REGEX. apply forallb_forall. intros c Hc.
    destruct (label_unit_harmless c (Hu c Hc)) as (_ & _ & Ha). exact Ha. }
  split.
  { apply not_true_is_false. intros E. apply (includes_two_seps 46) in E.
    apply Hp. destruct (split 46 d); [contradiction | right; exact E]. }
  apply orb_false_iff. split; apply not_true_is_false; intros E.
  - apply (startsWith_sep 46) in E. apply Hp.
    destruct (split 46 d) as [|h r] eqn:Es; [exact (split_nonempty 46 d Es)|].
    cbn [List.hd] in E. subst h. left. reflexivity.
  - apply (endsWith_sep 46) in E. apply Hp.
    rewrite (parts_removelast_last 46 d), E. apply in_or_app.
    right. left. reflexivity.
Qed.

End Checks.

Section Verdict.

Lemma no_long_label (labels : list jsstring) :
  existsb (fun l => (63 <? length l)%nat) labels = false <->
  forallb (fun l => (length l <=? 63)%nat) labels = true.
Proof.
  induction labels as [|l labels IH]; cbn [existsb forallb]; [tauto|].
  rewrite orb_false_iff, andb_true_iff, IH, Nat.ltb_ge, Nat.leb_le. reflexivity.
Qed.

(** The verdict in three conditions. *)
Lemma validateDomainName_core (d : jsstring) :
  valid (validateDomainName d) = true <->
  (length d <= 253)%nat
  /\ test DOMAIN_REGEX d = true
  /\ forallb (fun l => (length l <=? 63)%nat) (split 46 d) = true.
Proof.
  rewrite validateDomainName_valid, no_long_label, Nat.ltb_ge. split.
  - intros (_ & Hl & _ & _ & _ & Hre & _ & _ & Hlab). auto.
  - intros (Hl & Hre & Hlab).
    destruct (shape_passes d Hre) as (H1 & H2 & H3 & H4 & H5 & H6).
    repeat split; assumption.
Qed.

Lemma shape_bounded (d : jsstring) :
  domain_shape d = true ->
  Forall (fun l => (length l <= 63)%nat) (removelast (split 46 d)).
Proof.
  unfold domain_shape. intros H.
  apply andb_true_iff in H as [H _]. apply andb_true_iff in H as [_ H].
  apply List.Forall_forall. intros l Hl. rewrite forallb_forall in H.
  specialize (H l Hl). apply andb_true_iff in H as [_ H].
  apply Nat.leb_le. exact H.
Qed.

Lemma rules_shape (d : jsstring) :
  domain_rules d = true <->
  (length d <= 253)%nat /\ domain_shape d = true
  /\ forallb (fun l => (length l <=? 63)%nat) (split 46 d) = true.
Proof.
  unfold domain_rules, domain_shape.
  rewrite !andb_true_iff, Nat.leb_le. split.
  - intros ((((Hl & Hn) & Hr) & Ht) & Hb). repeat split; try assumption.
    apply forallb_forall. intros l Hin.
    rewrite forallb_forall in Hr, Hb. rewrite (Hr l Hin). cbn [andb].
    apply Hb. rewrite (parts_removelast_last 46 d). apply in_or_app. left.
    exact Hin.
  - intros (Hl & ((Hn & Hr) & Ht) & Hb). repeat split; try assumption.
    apply forallb_forall. intros l Hin. rewrite forallb_forall in Hr.
    specialize (Hr l Hin). apply andb_true_iff in Hr as [Hr _]. exact Hr.
Qed.

Lemma letter_not_hyphen (c : N) : is_letter c = true -> is_hyphen c = false.
Proof.
  unfold is_letter, is_hyphen. intros H.
  repeat rewrite ?orb_true_iff, ?andb_true_iff, ?N.leb_le in H.
  apply N.eqb_neq. lia.
Qed.

Lemma tld_rule_label (t : jsstring) : tld_rule t = true -> label_rule t = true.
Proof.
  unfold tld_rule. intros H. apply andb_true_iff in H as [Hn Hl].
  destruct t as [|a t]; [discriminate Hn|].
  rewrite forallb_forall in Hl. unfold label_rule.
  assert (Hlast : In (List.last (a :: t) a) (a :: t)).
  { destruct (exists_last (l := a :: t) ltac:(discriminate)) as (m & b & E).
    rewrite E, last_last. apply in_or_app. right. left. reflexivity. }
  rewrite (letter_not_hyphen a), (letter_not_hyphen _ (Hl _ Hlast));
    [|apply Hl; left; reflexivity].
  rewrite !andb_true_r. apply forallb_forall. intros c Hc.
  apply letter_label_unit, Hl, Hc.
Qed.

(** The rules of the pattern are the rules as worded together with the
    presence of a second label. *)
Lemma rules_stated (d : jsstring) :
  domain_rules d = true <->
  stated_rules d = true /\ (2 <= length (split 46 d))%nat.
Proof.
  unfold domain_rules, stated_rules.
  rewrite !andb_true_iff, !Nat.leb_le. split.
  - intros ((((Hl & Hn) & Hr) & Ht) & Hb). repeat split; try assumption; [lia|].
    rewrite (parts_removelast_last 46 d), forallb_app. cbn [forallb].
    rewrite Hr, (tld_rule_label _ Ht). reflexivity.
  - intros (((((Hl & _) & Hr) & Ht) & Hb) & Hn). repeat split; try assumption.
    rewrite (parts_removelast_last 46 d), forallb_app in Hr.
    apply andb_true_iff in Hr as [Hr _]. exact Hr.
Qed.

End Verdict.

(** C10.  The verdict of [validateDomainName] is positive exactly when
    the name is at most 253 units long, matches [DOMAIN_REGEX], and each
    of its dot-separated labels is at most 63 units long.  The other
    checks (empty, dangerous units, wildcard, non-ASCII, consecutive
    dots, leading or trailing dot) reject only names that [DOMAIN_REGEX]
    rejects too.  When [DOMAIN_REGEX] matches, every label but the final
    one is at most 63 units long, so that the label check can fire on the
    final label only; and it does fire there: a final label of 64 letters
    passes the regular expression and fails the label check. *)
Theorem validateDomainName_three_conditions (d : jsstring) :
  (valid (validateDomainName d) = true <->
     (length d <= 253)%nat
     /\ test DOMAIN_REGEX d = true
     /\ Forall (fun l => (length l <= 63)%nat) (split 46 d))
  /\ ((length d = 0%nat
       \/ test DANGEROUS_CHARS_REGEX d = true
       \/ includes (str "*") d = true
       \/ test ASCII_ONLY_REGEX d = false
       \/ includes (str "..") d = true
       \/ startsWith (str ".") d = true
       \/ endsWith (str ".") d = true) ->
      test DOMAIN_REGEX d = false)
  /\ (test DOMAIN_REGEX d = true ->
        Forall (fun l => (length l <= 63)%nat) (removelast (split 46 d)))
  /\ (validateDomainName d = invalid Msg.label_too_long ->
        Forall (fun l => (length l <= 63)%nat) (removelast (split 46 d))
        /\ (63 < length (List.last (split 46 d) []))%nat)
  /\ (test DOMAIN_REGEX (str "a." ++ repeat 97 64) = true
      /\ validateDomainName (str "a." ++ repeat 97 64) = invalid Msg.label_too_long).
Proof.
  assert (Hbound : test DOMAIN_REGEX d = true ->
            Forall (fun l => (length l <= 63)%nat) (removelast (split 46 d))).
  { rewrite test_DOMAIN_REGEX. apply shape_bounded. }
  split.
  { rewrite validateDomainName_core. rewrite List.Forall_forall, forallb_forall.
    split; intros (Hl & Hre & Hlab); repeat split; try assumption;
      intros l Hin; specialize (Hlab l Hin); apply Nat.leb_le; exact Hlab. }
  split.
  { intros Hfire. apply not_true_is_false. intros Hre.
    destruct (shape_passes d Hre) as (H1 & H2 & H3 & H4 & H5 & H6).
    apply orb_false_iff in H6 as [H6 H7]. apply Nat.eqb_neq in H1.
    destruct Hfire as [H|[H|[H|[H|[H|[H|H]]]]]]; congruence. }
  split; [exact Hbound|].
  split.
  { intros Hv.
    assert (Hre : test DOMAIN_REGEX d = true
                  /\ existsb (fun l => (63 <? length l)%nat) (split 46 d) = true).
    { unfold validateDomainName in Hv. rewrite label_loop_spec in Hv.
      repeat match type of Hv with
      | (if ?b then _ else _) = _ =>
          destruct b eqn:?; [try (vm_compute in Hv; discriminate Hv)|]
      end; try (vm_compute in Hv; discriminate Hv).
      split; [|reflexivity].
      match goal with H : negb (test DOMAIN_REGEX d) = false |- _ =>
        apply negb_false_iff in H; exact H end. }
    destruct Hre as [Hre Hlong]. specialize (Hbound Hre). split; [exact Hbound|].
    apply existsb_exists in Hlong as (l & Hin & Hl). apply Nat.ltb_lt in Hl.
    rewrite (parts_removelast_last 46 d) in Hin.
    apply in_app_or in Hin as [Hin|[<-|[]]]; [|exact Hl].
    rewrite List.Forall_forall in Hbound. specialize (Hbound l Hin). lia. }
  split; vm_compute; reflexivity.
Qed.

Lemma validateDomainName_three_conditions_witness :
  valid (validateDomainName (str "example.com")) = true
  /\ test DOMAIN_REGEX (str "exa*mple.com") = false.
Proof.
  split.
  - apply (proj1 (validateDomainName_three_conditions (str "example.com"))).
    split; [vm_compute; lia|]. split; [vm_compute; reflexivity|].
    repeat constructor; vm_compute; lia.
  - apply (proj1 (proj2 (validateDomainName_three_conditions (str "exa*mple.com")))).
    right. right. left. vm_compute. reflexivity.
Defined.

(** C7, as stated, fails: [localhost] is one label of nine letters, within
    every bound, so it follows the rules as they are worded; the function
    rejects it, with the message of the format check. *)
Lemma validateDomainName_single_label :
  stated_rules (str "localhost") = true
  /\ valid (validateDomainName (str "localhost")) = false
  /\ validateDomainName (str "localhost") = invalid Msg.bad_format.
Proof. vm_compute. repeat split; reflexivity. Qed.

(** C7, as the code has it.  [validateDomainName] returns valid exactly
    for the names that follow the label/TLD rules and have two labels at
    least: one or more labels, each followed by a dot, and then a final
    label; every label before the final one alphanumeric, possibly
    hyphenated, neither starting nor ending with a hyphen; the final
    label made of two or more letters; letters of either case; at most
    253 units in all and at most 63 in every label.  It returns invalid
    for every input that holds a star, two dots in a row, a leading or a
    trailing dot, a label of more than 63 units, or a unit outside ASCII.
    Its result is that of the first check that fails, in the fixed order
    of [checks]. *)
Theorem validateDomainName_rules (d : jsstring) :
  (valid (validateDomainName d) = true <->
     stated_rules d = true /\ (2 <= length (split 46 d))%nat)
  /\ (valid (validateDomainName d) = true <-> domain_rules d = true)
  /\ ((In 42 d
       \/ includes (str "..") d = true
       \/ startsWith (str ".") d = true
       \/ endsWith (str ".") d = true
       \/ Exists (fun l => (63 < length l)%nat) (split 46 d)
       \/ Exists (fun c => 127 < c) d) ->
      valid (validateDomainName d) = false)
  /\ validateDomainName d = first_failure d
  /\ List.map snd checks =
       [ Msg.empty; Msg.too_long; Msg.dangerous; Msg.wildcard; Msg.non_ascii;
         Msg.bad_format; Msg.double_dot; Msg.edge_dot; Msg.label_too_long ].
Proof.
  assert (Hrules : valid (validateDomainName d) = true <-> domain_rules d = true).
  { rewrite validateDomainName_core, rules_shape, test_DOMAIN_REGEX. reflexivity. }
  split.
  { rewrite Hrules. apply rules_stated. }
  split; [exact Hrules|].
  split.
  { intros Hbad. apply not_true_is_false. intros Hv.
    apply validateDomainName_valid in Hv
      as (_ & _ & _ & Hstar & Hascii & _ & Hdd & Hedge & Hlab).
    apply orb_false_iff in Hedge as [Hs He].
    destruct Hbad as [H|[H|[H|[H|[H|H]]]]]; try congruence.
    - apply (includes_unit 42) in H. change (str "*") with [42] in Hstar.
      congruence.
    - apply List.Exists_exists in H as (l & Hin & Hl).
      apply no_long_label in Hlab. rewrite forallb_forall in Hlab.
      specialize (Hlab l Hin). apply Nat.leb_le in Hlab. lia.
    - apply List.Exists_exists in H as (c & Hin & Hc).
      rewrite test_ASCII_ONLY_REGEX, forallb_forall in Hascii.
      specialize (Hascii c Hin). rewrite ascii_class in Hascii.
      apply N.leb_le in Hascii. lia. }
  split; [apply validateDomainName_first_failure | reflexivity].
Qed.

Lemma validateDomainName_rules_witness :
  valid (validateDomainName (str "Sub-1.Example.COM")) = true
  /\ valid (validateDomainName (str "a..com")) = false.
Proof.
  split.
  - apply (proj1 (validateDomainName_rules (str "Sub-1.Example.COM"))).
    split; [vm_compute; reflexivity | vm_compute; lia].
  - apply (proj1 (proj2 (proj2 (validateDomainName_rules (str "a..com"))))).
    right. left. vm_compute. reflexivity.
Defined.

(* ===================================================================== *)
(** ** The whitelist as text, and back *)
(* ===================================================================== *)

Section RoundTrip.

Lemma trimStart_id (s : jsstring) :
  (forall c, In c s -> is_space c = false) -> trimStart s = s.
Proof.
  destruct s as [|c s]; [reflexivity|]. intros H. cbn [trimStart].
  rewrite (H c); [reflexivity | left; reflexivity].
Qed.

Lemma trim_id (s : jsstring) :
  (forall c, In c s -> is_space c = false) -> trim s = s.
Proof.
  intros H. unfold trim, trimEnd. rewrite (trimStart_id s H).
  rewrite trimStart_id; [apply rev_involutive|].
  intros c Hc. apply H. apply in_rev. exact Hc.
Qed.

Lemma label_unit_not_space (c : N) :
  is_label_unit c = true \/ c = 46 -> is_space c = false /\ c <> 44 /\ c <> 10.
Proof.
  unfold is_label_unit, is_alnum, is_letter, is_digit, is_hyphen, is_space.
  intros [H| ->]; [|repeat split; discriminate].
  repeat rewrite ?orb_true_iff, ?andb_true_iff, ?N.leb_le, ?N.eqb_eq in H.
  repeat split; [|lia|lia].
  repeat match goal with
  | |- context [N.leb ?a ?b] => destruct (N.leb_spec a b); cbn [andb orb]
  | |- context [N.eqb ?a ?b] => destruct (N.eqb_spec a b); cbn [andb orb]
  end; try reflexivity; lia.
Qed.

Lemma valid_units (d : jsstring) :
  valid (validateDomainName d) = true ->
  forall c, In c d -> is_space c = false /\ c <> 44 /\ c <> 10.
Proof.
  intros Hv c Hc. apply validateDomainName_core in Hv as (_ & Hre & _).
  rewrite test_DOMAIN_REGEX in Hre.
  apply label_unit_not_space. exact (shape_units d Hre c Hc).
Qed.

(** The line of a well-formed entry, part by part. *)
Lemma entry_line_parts (e : WhitelistEntry) :
  well_formed e ->
  exists fc fk : bool,
    keepCookies e = VNum (flag_number fc) /\ keepCache e = VNum (flag_number fk)
    /\ entry_line e = domain e ++ [44] ++ flag_text fc ++ [44] ++ flag_text fk
    /\ List.map trim (split 44 (entry_line e))
         = [domain e; flag_text fc; flag_text fk].
Proof.
  intros (Hv & Hc & Hk).
  assert (Hline : forall fc fk : bool,
    List.map trim (split 44 (domain e ++ [44] ++ flag_text fc ++ [44] ++ flag_text fk))
      = [domain e; flag_text fc; flag_text fk]).
  { intros fc fk. cbn [app]. rewrite split_app_sep.
    - cbn [List.map]. rewrite trim_id.
      + destruct fc, fk; reflexivity.
      + intros c Hin. apply (valid_units _ Hv c Hin).
    - intros Hin. destruct (valid_units _ Hv 44 Hin) as (_ & H & _). congruence. }
  destruct e as [d c k]. cbn [domain keepCookies keepCache] in *.
  destruct Hc as [-> | ->]; destruct Hk as [-> | ->].
  - exists false, false. repeat split. apply (Hline false false).
  - exists false, true. repeat split. apply (Hline false true).
  - exists true, false. repeat split. apply (Hline true false).
  - exists true, true. repeat split. apply (Hline true true).
Qed.

(** One line back to its entry. *)
Lemma parse_entry_line (e : WhitelistEntry) (index : N) :
  well_formed e ->
  parseWhitelistLine (entry_line e) index = ParseResult.mk true (Some e) None.
Proof.
  intros Hwf. destruct (entry_line_parts e Hwf) as (fc & fk & Hc & Hk & _ & Hparts).
  destruct Hwf as (Hv & _ & _).
  unfold parseWhitelistLine. rewrite Hparts. cbn [nth length Nat.eqb].
  rewrite Hv. cbn [negb]. rewrite !isValidFlag_flag_text. cbn [negb orb].
  rewrite !parseInt_flag_text, <- Hc, <- Hk. destruct e; reflexivity.
Qed.

Lemma parse_lines_whitelist (whitelist : list WhitelistEntry) (index : N) :
  Forall well_formed whitelist ->
  parse_lines (whitelist_lines whitelist) index = (whitelist, []).
Proof.
  intros H. revert index.
  induction H as [|e whitelist He _ IH]; intros index; [reflexivity|].
  cbn [whitelist_lines List.map parse_lines].
  rewrite (parse_entry_line e index He).
  fold (whitelist_lines whitelist). rewrite IH. reflexivity.
Qed.

(** Joining with a separator that no part holds, and splitting again. *)
Lemma split_join (c : N) (parts : list jsstring) :
  parts <> [] -> Forall (fun p => ~ In c p) parts ->
  split c (join [c] parts) = parts.
Proof.
  intros Hne H. induction H as [|p parts Hp Hps IH]; [congruence|].
  destruct parts as [|q parts].
  - cbn [join]. apply split_no_sep. exact Hp.
  - change (join [c] (p :: q :: parts)) with (p ++ [c] ++ join [c] (q :: parts)).
    cbn [app]. rewrite split_app_sep by exact Hp.
    rewrite IH; [reflexivity | discriminate].
Qed.

Lemma entry_line_units (e : WhitelistEntry) :
  well_formed e ->
  entry_line e <> []
  /\ forall c, In c (entry_line e) -> is_space c = false /\ c <> 10.
Proof.
  intros Hwf. destruct (entry_line_parts e Hwf) as (fc & fk & _ & _ & Hline & _).
  destruct Hwf as (Hv & _ & _). rewrite Hline. split.
  - destruct (domain e); discriminate.
  - intros c Hin. apply in_app_or in Hin as [Hin|Hin].
    + destruct (valid_units _ Hv c Hin) as (H1 & _ & H2). auto.
    + destruct fc, fk; cbn in Hin;
        repeat (destruct Hin as [<-|Hin]; [split; [reflexivity|discriminate]|]);
        contradiction.
Qed.

Lemma trimmed_lines_id (lines : list jsstring) :
  Forall (fun l => l <> []
            /\ forall c, In c l -> is_space c = false /\ c <> 10) lines ->
  List.filter (fun line => (0 <? length line)%nat) (List.map trim lines) = lines.
Proof.
  intros H. induction H as [|l ls (Hne & Hl) _ IH]; [reflexivity|].
  cbn [List.map List.filter]. rewrite trim_id by (intros c Hc; apply Hl, Hc).
  destruct l as [|c l]; [congruence|].
  change ((0 <? length (c :: l))%nat) with true. cbn iota. rewrite IH.
  reflexivity.
Qed.

(** What the page shows, read back by the save handler, is the lines. *)
Lemma textarea_lines_value (whitelist : list WhitelistEntry) :
  Forall well_formed whitelist ->
  textarea_lines (textarea_value whitelist) = whitelist_lines whitelist.
Proof.
  intros H. unfold textarea_lines, textarea_value.
  destruct whitelist as [|e0 rest]; [reflexivity|].
  assert (Hlines : Forall (fun l => l <> []
            /\ forall c, In c l -> is_space c = false /\ c <> 10)
            (whitelist_lines (e0 :: rest))).
  { unfold whitelist_lines. apply List.Forall_forall. intros l Hl.
    apply in_map_iff in Hl as (e & <- & He).
    rewrite List.Forall_forall in H. apply entry_line_units. auto. }
  rewrite split_join.
  - apply trimmed_lines_id. exact Hlines.
  - discriminate.
  - eapply List.Forall_impl; [|exact Hlines]. intros l (_ & Hl) Hin.
    destruct (Hl 10 Hin) as [_ Hc]. congruence.
Qed.

End RoundTrip.

(** C9.  For a whitelist whose entries have valid domains (unique or
    not) and flags that are the numbers 0 or 1: the line
    [domain,keepCookies,keepCache] of every entry parses, at any line
    index, to success with that very entry; parsing the lines of the
    whitelist in order gives back the whitelist and no error; and so does
    parsing what the save handler reads from the text the options page
    shows. *)
Theorem whitelist_text_round_trip (whitelist : list WhitelistEntry) :
  Forall (fun e => valid (validateDomainName (domain e)) = true
                   /\ (keepCookies e = VNum 0 \/ keepCookies e = VNum 1)
                   /\ (keepCache e = VNum 0 \/ keepCache e = VNum 1)) whitelist ->
  List.NoDup (List.map domain whitelist) ->
  (forall (e : WhitelistEntry) (index : N), In e whitelist ->
      parseWhitelistLine
        (domain e ++ str ","
           ++ number_to_string (if truthy (keepCookies e) then 1 else 0)
           ++ str ","
           ++ number_to_string (if truthy (keepCache e) then 1 else 0)) index
        = ParseResult.mk true (Some e) None)
  /\ (forall index : N,
        parse_lines (whitelist_lines whitelist) index = (whitelist, []))
  /\ parse_lines (textarea_lines (textarea_value whitelist)) 0 = (whitelist, []).
Proof.
  intros Hwf _. split; [|split].
  - intros e index He. rewrite List.Forall_forall in Hwf.
    apply (parse_entry_line e index). apply Hwf. exact He.
  - intros index. apply parse_lines_whitelist. exact Hwf.
  - rewrite textarea_lines_value by exact Hwf.
    apply parse_lines_whitelist. exact Hwf.
Qed.

Lemma whitelist_text_round_trip_witness :
  parse_lines (textarea_lines (textarea_value example_whitelist)) 0
    = (example_whitelist, []).
Proof.
  apply (whitelist_text_round_trip example_whitelist).
  - repeat (apply List.Forall_cons || apply List.Forall_nil);
      (split; [vm_compute; reflexivity|]);
      split; ((left; reflexivity) || (right; reflexivity)).
  - apply List.NoDup_cons; [intros [H|[]]; discriminate H|].
    apply List.NoDup_cons; [intros []|]. apply List.NoDup_nil.
Defined.

(* ===================================================================== *)
(** ** The examples of the specification *)
(* ===================================================================== *)

Example parse_domain_only :
  parseWhitelistLine (str "example.com") 0 =
    ParseResult.mk true (Some (mkEntry (str "example.com") (VNum 1) (VNum 1))) None.
Proof. vm_compute. reflexivity. Qed.

Example parse_with_flags :
  parseWhitelistLine (str "example.com,1,0") 2 =
    ParseResult.mk true (Some (mkEntry (str "example.com") (VNum 1) (VNum 0))) None.
Proof. vm_compute. reflexivity. Qed.

Example validate_wildcard :
  validateDomainName (str "*.example.com") = invalid Msg.wildcard.
Proof. vm_compute. reflexivity. Qed.

Example validate_hyphen_edge :
  validateDomainName (str "-a.com") = invalid Msg.bad_format.
Proof. vm_compute. reflexivity. Qed.

Example validate_non_ascii :
  validateDomainName (str "a" ++ [233] ++ str ".com") = invalid Msg.non_ascii.
Proof. vm_compute. reflexivity. Qed.

Example validate_control_before_ascii :
  validateDomainName (str "a" ++ [128] ++ str ".com") = invalid Msg.dangerous.
Proof. vm_compute. reflexivity. Qed.

Example close_with_window_left :
  removals (exec (EventHandler.handleWindowCloseEvent 7) (closing_world [4; 9])) = [].
Proof. vm_compute. reflexivity. Qed.

Example startup_once :
  length (removals (exec EventHandler.handleStartupIfNeeded
            (exec EventHandler.handleStartupIfNeeded startup_session))) = 3%nat.
Proof. vm_compute. reflexivity. Qed.

(* ===================================================================== *)
(** ** The whitelist button of the popup *)
(* ===================================================================== *)

Section PopupFacts.

Lemma is_current_eq (d : jsstring) (e : WhitelistEntry) :
  Popup.is_current d e = true <-> domain e = d.
Proof.
  unfold Popup.is_current.
  change (entry_prop e WHITELIST_KEYS.DOMAIN) with (VStr (domain e)).
  cbn [strict_eq_str]. apply str_eqb_eq.
Qed.

Lemma is_current_new_entry (d : jsstring) :
  Popup.is_current d (Popup.new_entry d) = true.
Proof. apply is_current_eq. reflexivity. Qed.

Lemma exists_in_domains (d : jsstring) (wl : list WhitelistEntry) :
  Popup.exists_in d wl = true <-> In d (List.map domain wl).
Proof.
  unfold Popup.exists_in. rewrite existsb_exists, in_map_iff. split.
  - intros (e & He & Hc). exists e. split; [apply is_current_eq; exact Hc | exact He].
  - intros (e & Hd & He). exists e. split; [exact He | apply is_current_eq; exact Hd].
Qed.

Lemma findIndex_None (d : jsstring) (wl : list WhitelistEntry) :
  Popup.findIndex d wl = None <-> Popup.exists_in d wl = false.
Proof.
  unfold Popup.exists_in.
  induction wl as [|e wl IH]; cbn [Popup.findIndex existsb]; [tauto|].
  destruct (Popup.is_current d e); cbn [orb].
  - split; discriminate.
  - rewrite <- IH. destruct (Popup.findIndex d wl); split; congruence.
Qed.

Lemma toggled_absent (d : jsstring) (wl : list WhitelistEntry) :
  Popup.exists_in d wl = false -> Popup.toggled d wl = wl ++ [Popup.new_entry d].
Proof.
  intros H. apply findIndex_None in H. unfold Popup.toggled. rewrite H.
  reflexivity.
Qed.

Lemma toggled_present (d : jsstring) (wl : list WhitelistEntry) :
  Popup.exists_in d wl = true -> Popup.toggled d wl = without_first d wl.
Proof.
  unfold Popup.toggled, Popup.exists_in.
  induction wl as [|e wl IH]; cbn [existsb Popup.findIndex without_first];
    [discriminate|].
  destruct (Popup.is_current d e); cbn [orb]; [reflexivity|].
  intros H. specialize (IH H).
  destruct (Popup.findIndex d wl) as [i|] eqn:Ei.
  - cbn [Popup.splice1]. rewrite IH. reflexivity.
  - apply findIndex_None in Ei. unfold Popup.exists_in in Ei. congruence.
Qed.

End PopupFacts.

Section PopupToggle.

Lemma without_first_domains (d x : jsstring) (wl : list WhitelistEntry) :
  In x (List.map domain (without_first d wl)) -> In x (List.map domain wl).
Proof.
  induction wl as [|e wl IH]; cbn [without_first List.map]; [tauto|].
  destruct (Popup.is_current d e); cbn [List.map In]; [tauto|].
  intros [H|H]; [left; exact H | right; apply IH; exact H].
Qed.

Lemma without_first_unique (d : jsstring) (wl : list WhitelistEntry) :
  List.NoDup (List.map domain wl) ->
  List.NoDup (List.map domain (without_first d wl)).
Proof.
  induction wl as [|e wl IH]; cbn [without_first List.map]; [tauto|].
  intros H. apply List.NoDup_cons_iff in H as [Hn Hd].
  destruct (Popup.is_current d e); [exact Hd|].
  cbn [List.map]. apply List.NoDup_cons; [|apply IH; exact Hd].
  intros Hin. apply Hn. apply (without_first_domains d). exact Hin.
Qed.

Lemma without_first_gone (d : jsstring) (wl : list WhitelistEntry) :
  List.NoDup (List.map domain wl) ->
  Popup.exists_in d (without_first d wl) = false.
Proof.
  induction wl as [|e wl IH]; cbn [without_first List.map]; [reflexivity|].
  intros H. apply List.NoDup_cons_iff in H as [Hn Hd].
  destruct (Popup.is_current d e) eqn:Ec.
  - apply is_current_eq in Ec. apply not_true_is_false. intros Hex.
    apply exists_in_domains in Hex. congruence.
  - unfold Popup.exists_in. cbn [existsb]. rewrite Ec. apply IH. exact Hd.
Qed.

Lemma without_first_others (d : jsstring) (wl : list WhitelistEntry) :
  List.filter (fun e => negb (Popup.is_current d e)) (without_first d wl)
  = List.filter (fun e => negb (Popup.is_current d e)) wl.
Proof.
  induction wl as [|e wl IH]; cbn [without_first List.filter]; [reflexivity|].
  destruct (Popup.is_current d e) eqn:Ec; cbn [negb List.filter]; [reflexivity|].
  rewrite Ec, IH. reflexivity.
Qed.

Lemma without_first_appended (d : jsstring) (wl : list WhitelistEntry) :
  Popup.exists_in d wl = false ->
  without_first d (wl ++ [Popup.new_entry d]) = wl.
Proof.
  unfold Popup.exists_in.
  induction wl as [|e wl IH]; cbn [app without_first existsb].
  - rewrite is_current_new_entry. reflexivity.
  - destruct (Popup.is_current d e); cbn [orb]; [discriminate|].
    intros H. rewrite (IH H). reflexivity.
Qed.

Lemma NoDup_app_singleton_absent {A} (l : list A) (x : A) :
  List.NoDup l -> ~ In x l -> List.NoDup (l ++ [x]).
Proof.
  induction l as [|a l IH]; cbn [app]; intros Hu Hn.
  - apply List.NoDup_cons; [intros [] | apply List.NoDup_nil].
  - apply List.NoDup_cons_iff in Hu as [Ha Hu].
    apply List.NoDup_cons.
    + intros Hin. apply in_app_or in Hin as [Hin|[<-|[]]]; [exact (Ha Hin)|].
      apply Hn. left. reflexivity.
    + apply IH; [exact Hu|]. intros Hin. apply Hn. right. exact Hin.
Qed.

Lemma exists_in_app (d : jsstring) (wl1 wl2 : list WhitelistEntry) :
  Popup.exists_in d (wl1 ++ wl2) = Popup.exists_in d wl1 || Popup.exists_in d wl2.
Proof. unfold Popup.exists_in. apply existsb_app. Qed.

End PopupToggle.

(** X1.  A click on the whitelist button flips whether the current
    domain is on the whitelist: a domain that is absent is present
    afterwards, as a new last entry with both flags 1; a domain that is
    present is absent afterwards, provided no two entries share a
    domain (only the first entry of the domain is removed). *)
Theorem popup_toggle_flips_membership (d : jsstring) (wl : list WhitelistEntry) :
  (Popup.exists_in d wl = false ->
     Popup.toggled d wl = wl ++ [mkEntry d (VNum 1) (VNum 1)]
     /\ Popup.exists_in d (Popup.toggled d wl) = true)
  /\ (Popup.exists_in d wl = true -> List.NoDup (List.map domain wl) ->
        Popup.exists_in d (Popup.toggled d wl) = false).
Proof.
  split.
  - intros H. rewrite (toggled_absent d wl H). split; [reflexivity|].
    rewrite exists_in_app, H. unfold Popup.exists_in. cbn [existsb orb].
    rewrite is_current_new_entry. reflexivity.
  - intros H Hu. rewrite (toggled_present d wl H).
    apply without_first_gone. exact Hu.
Qed.

Lemma popup_toggle_flips_membership_witness :
  Popup.exists_in (str "a.com") (Popup.toggled (str "a.com") example_whitelist)
    = false
  /\ Popup.exists_in (str "c.org") (Popup.toggled (str "c.org") example_whitelist)
    = true.
Proof.
  split.
  - apply (proj2 (popup_toggle_flips_membership (str "a.com") example_whitelist)).
    + reflexivity.
    + apply List.NoDup_cons; [intros [H|[]]; discriminate H|].
      apply List.NoDup_cons; [intros []|]. apply List.NoDup_nil.
  - apply (proj1 (popup_toggle_flips_membership (str "c.org") example_whitelist)).
    reflexivity.
Defined.

(** X2.  A click on the whitelist button leaves the entries of every
    other domain as they are, in their order. *)
Theorem popup_toggle_keeps_other_entries (d : jsstring) (wl : list WhitelistEntry) :
  List.filter (fun e => negb (Popup.is_current d e)) (Popup.toggled d wl)
  = List.filter (fun e => negb (Popup.is_current d e)) wl.
Proof.
  destruct (Popup.exists_in d wl) eqn:E.
  - rewrite (toggled_present d wl E). apply without_first_others.
  - rewrite (toggled_absent d wl E), List.filter_app. cbn [List.filter].
    rewrite is_current_new_entry. cbn [negb]. apply app_nil_r.
Qed.

(** X3.  A click on the whitelist button keeps the domains of the
    whitelist pairwise distinct. *)
Theorem popup_toggle_keeps_domains_unique (d : jsstring) (wl : list WhitelistEntry) :
  List.NoDup (List.map domain wl) ->
  List.NoDup (List.map domain (Popup.toggled d wl)).
Proof.
  intros Hu. destruct (Popup.exists_in d wl) eqn:E.
  - rewrite (toggled_present d wl E). apply without_first_unique. exact Hu.
  - rewrite (toggled_absent d wl E), List.map_app. cbn [List.map domain Popup.new_entry].
    apply NoDup_app_singleton_absent; [exact Hu|].
    intros Hin. apply exists_in_domains in Hin. congruence.
Qed.

Lemma popup_toggle_keeps_domains_unique_witness :
  List.NoDup (List.map domain (Popup.toggled (str "c.org") example_whitelist)).
Proof.
  apply (popup_toggle_keeps_domains_unique (str "c.org") example_whitelist).
  apply List.NoDup_cons; [intros [H|[]]; discriminate H|].
  apply List.NoDup_cons; [intros []|]. apply List.NoDup_nil.
Defined.

(** X4.  Adding a domain with the button and clicking again gives back
    the whitelist as it was. *)
Theorem popup_add_then_remove (d : jsstring) (wl : list WhitelistEntry) :
  Popup.exists_in d wl = false ->
  Popup.toggled d (Popup.toggled d wl) = wl.
Proof.
  intros H. rewrite (toggled_absent d wl H).
  rewrite toggled_present.
  - apply without_first_appended. exact H.
  - rewrite exists_in_app. unfold Popup.exists_in at 2. cbn [existsb].
    rewrite is_current_new_entry. apply orb_true_r.
Qed.

Lemma popup_add_then_remove_witness :
  Popup.toggled (str "c.org") (Popup.toggled (str "c.org") example_whitelist)
    = example_whitelist.
Proof.
  apply (popup_add_then_remove (str "c.org") example_whitelist). reflexivity.
Defined.

(* ===================================================================== *)
(** ** Exclusion lists *)
(* ===================================================================== *)

Section Exclusions.

Lemma in_kept_origins (read : WhitelistEntry -> value)
    (entries : list WhitelistEntry) (o : jsstring) :
  In o (List.flat_map origins_of
          (List.filter (fun e => strict_eq_num (read e) 1) entries)) <->
  exists e, In e entries /\ read e = VNum 1 /\ In o (origins_of e).
Proof.
  rewrite in_flat_map. split.
  - intros (e & He & Ho). apply filter_In in He as [He Hf].
    apply strict_eq_num_1 in Hf. eauto.
  - intros (e & He & Hf & Ho). exists e. split; [|exact Ho].
    apply filter_In. split; [exact He | apply strict_eq_num_1; exact Hf].
Qed.

Lemma length_kept_origins (entries : list WhitelistEntry) :
  length (List.flat_map origins_of entries) = (2 * length entries)%nat.
Proof.
  induction entries as [|e entries IH]; [reflexivity|].
  cbn [List.flat_map]. rewrite length_app, IH. cbn [origins_of length]. lia.
Qed.

Lemma getOriginsByFlag_keepCookies (s : Settings) (entries : list WhitelistEntry) :
  whitelist s = VArr entries ->
  getOriginsByFlag s (str "keepCookies") =
    List.flat_map origins_of
      (List.filter (fun e => strict_eq_num (keepCookies e) 1) entries).
Proof. intros H. unfold getOriginsByFlag. rewrite H. reflexivity. Qed.

Lemma getOriginsByFlag_keepCache (s : Settings) (entries : list WhitelistEntry) :
  whitelist s = VArr entries ->
  getOriginsByFlag s (str "keepCache") =
    List.flat_map origins_of
      (List.filter (fun e => strict_eq_num (keepCache e) 1) entries).
Proof. intros H. unfold getOriginsByFlag. rewrite H. reflexivity. Qed.

Lemma str_eqb_neq (a b : jsstring) : a <> b -> str_eqb a b = false.
Proof.
  intros H. apply not_true_is_false. intros E. apply str_eqb_eq in E. congruence.
Qed.

End Exclusions.

(** X5.  An origin is excluded from the cookie pass exactly when it is
    the https or the http origin of an entry whose [keepCookies] is the
    number 1, and likewise for the cache/storage pass and [keepCache];
    each list holds two origins for every such entry. *)
Theorem exclusion_origins_membership (s : Settings) (entries : list WhitelistEntry) :
  whitelist s = VArr entries ->
  (forall o : jsstring,
      In o (getOriginsByFlag s (str "keepCookies")) <->
      exists e, In e entries /\ keepCookies e = VNum 1
        /\ (o = str "https://" ++ trim (domain e)
            \/ o = str "http://" ++ trim (domain e)))
  /\ (forall o : jsstring,
      In o (getOriginsByFlag s (str "keepCache")) <->
      exists e, In e entries /\ keepCache e = VNum 1
        /\ (o = str "https://" ++ trim (domain e)
            \/ o = str "http://" ++ trim (domain e)))
  /\ length (getOriginsByFlag s (str "keepCookies")) =
       (2 * length (List.filter (fun e => strict_eq_num (keepCookies e) 1) entries))%nat
  /\ length (getOriginsByFlag s (str "keepCache")) =
       (2 * length (List.filter (fun e => strict_eq_num (keepCache e) 1) entries))%nat.
Proof.
  intros Hw.
  rewrite (getOriginsByFlag_keepCookies s entries Hw),
    (getOriginsByFlag_keepCache s entries Hw).
  assert (Ho : forall e o, In o (origins_of e) <->
            o = str "https://" ++ trim (domain e)
            \/ o = str "http://" ++ trim (domain e)).
  { intros e o. unfold origins_of. cbn [In]. intuition congruence. }
  repeat split.
  - intros H. apply in_kept_origins in H as (e & He & Hf & H).
    exists e. rewrite <- Ho. auto.
  - intros (e & He & Hf & H). apply in_kept_origins. exists e. rewrite Ho. auto.
  - intros H. apply in_kept_origins in H as (e & He & Hf & H).
    exists e. rewrite <- Ho. auto.
  - intros (e & He & Hf & H). apply in_kept_origins. exists e. rewrite Ho. auto.
  - apply length_kept_origins.
  - apply length_kept_origins.
Qed.

Lemma exclusion_origins_membership_witness :
  length (getOriginsByFlag
            (mkSettings (VArr example_whitelist) VNull VNull VNull VNull VNull
               VNull VNull) (str "keepCache")) = 2%nat.
Proof.
  apply (proj2 (proj2 (proj2 (exclusion_origins_membership
    (mkSettings (VArr example_whitelist) VNull VNull VNull VNull VNull VNull VNull)
    example_whitelist eq_refl)))).
Defined.

(** X6.  Nothing is excluded when the stored whitelist is not an array
    (the call of [filter] throws and the [catch] answers the empty
    array), and nothing is excluded for a flag name other than
    [keepCookies] and [keepCache]. *)
Theorem exclusion_origins_empty (s : Settings) (flagName : jsstring) :
  ((forall entries, whitelist s <> VArr entries) ->
     getOriginsByFlag s flagName = [])
  /\ (flagName <> str "keepCookies" -> flagName <> str "keepCache" ->
        getOriginsByFlag s flagName = []).
Proof.
  unfold getOriginsByFlag. split.
  - intros H. destruct (whitelist s) as [| | | | | |entries]; try reflexivity.
    exfalso. exact (H entries eq_refl).
  - intros Hc Hk. destruct (whitelist s) as [| | | | | |entries]; try reflexivity.
    assert (Hnone : forall e, strict_eq_num (entry_prop e flagName) 1 = false).
    { intros e. unfold entry_prop.
      rewrite (str_eqb_neq flagName WHITELIST_KEYS.KEEP_COOKIES Hc),
        (str_eqb_neq flagName WHITELIST_KEYS.KEEP_CACHE Hk).
      destruct (str_eqb flagName WHITELIST_KEYS.DOMAIN); reflexivity. }
    induction entries as [|e entries IH]; [reflexivity|].
    cbn [List.filter]. rewrite Hnone. exact IH.
Qed.

Lemma exclusion_origins_empty_witness :
  getOriginsByFlag
    (mkSettings (VNum 0) VNull VNull VNull VNull VNull VNull VNull)
    (str "keepCookies") = [].
Proof.
  apply (proj1 (exclusion_origins_empty
    (mkSettings (VNum 0) VNull VNull VNull VNull VNull VNull VNull)
    (str "keepCookies"))).
  intros entries. discriminate.
Defined.



Section PopupClick.

Lemma whitelist_or_empty_items (store : gmap jsstring value) :
  Popup.whitelist_or_empty (items_of [STORAGE_KEYS.WHITELIST] store)
  = Popup.whitelist_or_empty store.
Proof.
  unfold Popup.whitelist_or_empty. rewrite prop_items_of_single. reflexivity.
Qed.

Lemma findIndex_status (d : jsstring) (wl : list WhitelistEntry) :
  (match Popup.findIndex d wl with Some _ => Popup.Removed | None => Popup.Added end)
  = (if Popup.exists_in d wl then Popup.Removed else Popup.Added).
Proof.
  destruct (Popup.findIndex d wl) eqn:E.
  - destruct (Popup.exists_in d wl) eqn:Ex; [reflexivity|].
    apply findIndex_None in Ex. congruence.
  - apply findIndex_None in E. rewrite E. reflexivity.
Qed.

(** The whole effect of a click on the whitelist button. *)
Lemma addToWhitelist_click_run (d : jsstring) (w : World) :
  Popup.addToWhitelist_click d w =
    match d with
    | [] => (Ok Popup.Ignored, w)
    | _ :: _ =>
        match faults w (clock w) with
        | Some _ => (Ok Popup.LoadFailed, tick w)
        | None =>
            match Popup.whitelist_or_empty (local_store w) with
            | None => (Ok Popup.Unexpected, tick w)
            | Some wl =>
                match faults w (S (clock w)) with
                | Some _ => (Ok Popup.SaveFailed, tick (tick w))
                | None =>
                    (Ok (if Popup.exists_in d wl then Popup.Removed else Popup.Added),
                     set_local_store
                       (<[STORAGE_KEYS.WHITELIST := VArr (Popup.toggled d wl)]>
                          (local_store w))
                       (tick (tick w)))
                end
            end
        end
    end.
Proof.
  unfold Popup.addToWhitelist_click.
  destruct d as [|c d]; [reflexivity|]. cbn [truthy negb].
  unfold try_catch, mbind, M_bind, bind, storage_local_get, host_call,
    mret, M_ret, ret.
  destruct (faults w (clock w)) as [e|] eqn:Ef; [reflexivity|].
  cbn [local_store tick]. rewrite whitelist_or_empty_items.
  destruct (Popup.whitelist_or_empty (local_store w)) as [wl|]; [|reflexivity].
  rewrite <- findIndex_status. unfold Popup.toggled.
  destruct (Popup.findIndex (c :: d) wl) as [i|];
    unfold Popup.saveWhitelistWithMessage, try_catch, mbind, M_bind, bind,
      storage_local_set, host_call, mret, M_ret, ret;
    cbn [faults clock tick];
    destruct (faults w (S (clock w))); reflexivity.
Qed.

End PopupClick.

(** X8.  A click on the whitelist button makes no removal call and
    leaves the session store and the loaded settings alone.  For a
    non-empty current domain, when the read and the write of the store
    succeed and the stored whitelist is an array (or is falsy, which
    counts as the empty array), the click writes the toggled whitelist
    under the key [whitelist] and nothing else, and reports a removal
    when the domain was present and an addition when it was absent.  In
    every other case the persistent store is left as it was. *)
Theorem popup_click_store (d : jsstring) (w : World) :
  let run := Popup.addToWhitelist_click d in
  removals (exec run w) = removals w
  /\ session_store (exec run w) = session_store w
  /\ settings (exec run w) = settings w
  /\ (forall wl : list WhitelistEntry,
        d <> [] -> faults w (clock w) = None -> faults w (S (clock w)) = None ->
        Popup.whitelist_or_empty (local_store w) = Some wl ->
        local_store (exec run w) =
          <[str "whitelist" := VArr (Popup.toggled d wl)]> (local_store w)
        /\ result run w =
             Ok (if Popup.exists_in d wl then Popup.Removed else Popup.Added))
  /\ (d = [] \/ faults w (clock w) <> None \/ faults w (S (clock w)) <> None
      \/ Popup.whitelist_or_empty (local_store w) = None ->
        local_store (exec run w) = local_store w).
Proof.
  intros run. unfold run, exec, result. rewrite addToWhitelist_click_run.
  split; [|split; [|split; [|split]]].
  - destruct d; [reflexivity|]. destruct (faults w (clock w)); [reflexivity|].
    destruct (Popup.whitelist_or_empty (local_store w)); [|reflexivity].
    destruct (faults w (S (clock w))); reflexivity.
  - destruct d; [reflexivity|]. destruct (faults w (clock w)); [reflexivity|].
    destruct (Popup.whitelist_or_empty (local_store w)); [|reflexivity].
    destruct (faults w (S (clock w))); reflexivity.
  - destruct d; [reflexivity|]. destruct (faults w (clock w)); [reflexivity|].
    destruct (Popup.whitelist_or_empty (local_store w)); [|reflexivity].
    destruct (faults w (S (clock w))); reflexivity.
  - intros wl Hd Hf0 Hf1 Hwl. destruct d as [|c d]; [congruence|].
    rewrite Hf0, Hwl, Hf1. split; reflexivity.
  - intros Hcase. destruct d as [|c d]; [reflexivity|].
    destruct (faults w (clock w)) as [e0|]; [reflexivity|].
    destruct (Popup.whitelist_or_empty (local_store w)) as [wl|]; [|reflexivity].
    destruct (faults w (S (clock w))) as [e1|]; [reflexivity|].
    destruct Hcase as [H|[H|[H|H]]]; congruence.
Qed.

Lemma popup_click_store_witness :
  local_store (exec (Popup.addToWhitelist_click (str "c.org")) quiet_world)
  = <[str "whitelist" := VArr [mkEntry (str "c.org") (VNum 1) (VNum 1)]]> ∅.
Proof.
  apply (proj1 (proj1 (proj2 (proj2 (proj2
    (popup_click_store (str "c.org") quiet_world)))) []
      ltac:(discriminate) eq_refl eq_refl eq_refl)).
Defined.

(* ===================================================================== *)
(** ** The save button of the options page *)
(* ===================================================================== *)

Section SaveFacts.

(** What [parseWhitelistLine] returns: a success with a well-formed
    entry and no message, or a failure with a message and no entry. *)
Lemma parse_result_shape (line : jsstring) (index : N) :
  (exists e,
      parseWhitelistLine line index = ParseResult.mk true (Some e) None
      /\ well_formed e
      /\ domain e = nth 0 (List.map trim (split 44 line)) [])
  \/ (exists m, parseWhitelistLine line index = ParseResult.mk false None (Some m)).
Proof.
  unfold parseWhitelistLine.
  set (parts := List.map trim (split 44 line)).
  destruct (valid (validateDomainName (nth 0 parts []))) eqn:Ev; cbn [negb];
    [|right; eauto].
  destruct (length parts =? 1)%nat.
  { left. eexists. split; [reflexivity|].
    split; [|reflexivity]. repeat split; cbn; auto. }
  destruct (length parts =? 3)%nat; [|right; eauto].
  destruct (isValidFlag (nth 1 parts [])) eqn:E1; cbn [negb orb]; [|right; eauto].
  destruct (isValidFlag (nth 2 parts [])) eqn:E2; cbn [negb orb]; [|right; eauto].
  left. eexists. split; [reflexivity|]. split; [|reflexivity].
  apply isValidFlag_spec in E1, E2.
  split; [exact Ev|].
  split; cbn [keepCookies keepCache].
  - destruct E1 as [-> | ->]; [left | right]; reflexivity.
  - destruct E2 as [-> | ->]; [left | right]; reflexivity.
Qed.

Lemma parse_lines_shape (lines : list jsstring) (index : N)
    (wl : list WhitelistEntry) (errs : list jsstring) :
  parse_lines lines index = (wl, errs) ->
  Forall well_formed wl /\ (length wl + length errs = length lines)%nat.
Proof.
  revert index wl errs.
  induction lines as [|line lines IH]; intros index wl errs; cbn [parse_lines].
  - intros [= <- <-]. split; [constructor | reflexivity].
  - destruct (parse_lines lines (index + 1)) as [wl' errs'] eqn:Er.
    destruct (IH _ _ _ Er) as [Hwf Hlen].
    destruct (parse_result_shape line index) as [(e & -> & He & _)|(m & ->)];
      cbn [ParseResult.success ParseResult.entry ParseResult.error];
      intros [= <- <-]; cbn [length].
    + split; [constructor; assumption | lia].
    + split; [assumption | lia].
Qed.

(** The scan reports nothing exactly when the domains are pairwise
    distinct and none of them has been seen before. *)
Lemma duplicate_scan_nil (wl : list WhitelistEntry) (index : N)
    (seen : gmap jsstring N) :
  Save.duplicate_scan wl index seen = [] <->
  List.NoDup (List.map domain wl)
  /\ forall d, In d (List.map domain wl) -> seen !! d = None.
Proof.
  revert index seen.
  induction wl as [|e wl IH]; intros index seen;
    cbn [Save.duplicate_scan List.map].
  - split; [|reflexivity]. intros _. split; [constructor | intros d []].
  - destruct (seen !! domain e) as [first|] eqn:Es.
    + split; [discriminate|]. intros [_ H].
      specialize (H (domain e) (or_introl eq_refl)). congruence.
    + rewrite IH. split.
      * intros [Hu Hs]. split.
        -- apply List.NoDup_cons; [|exact Hu]. intros Hin.
           specialize (Hs _ Hin). rewrite lookup_insert_eq in Hs. discriminate.
        -- intros d [<-|Hin]; [exact Es|].
           specialize (Hs _ Hin). apply lookup_insert_None in Hs. tauto.
      * intros [Hu Hs]. apply List.NoDup_cons_iff in Hu as [Hn Hu].
        split; [exact Hu|]. intros d Hin. apply lookup_insert_None.
        split; [apply Hs; right; exact Hin|]. intros <-. contradiction.
Qed.

(** The whole effect of a click on the save button. *)
Lemma save_click_run (text : jsstring) (boxes : Save.Checkboxes) (w : World) :
  Save.save_click text boxes w =
    let parsed := parse_lines (textarea_lines text) 0 in
    if (0 <? length (snd parsed))%nat then (Ok (Save.InvalidLines (snd parsed)), w)
    else if (0 <? length (Save.duplicate_scan (fst parsed) 0 ∅))%nat
      then (Ok (Save.Duplicates (Save.duplicate_scan (fst parsed) 0 ∅)), w)
    else match faults w (clock w) with
         | Some _ => (Ok Save.SaveFailed, tick w)
         | None =>
             (Ok Save.Saved,
              set_local_store
                (write_items (Save.saved_items (fst parsed) boxes) (local_store w))
                (tick w))
         end.
Proof.
  unfold Save.save_click.
  destruct (parse_lines (textarea_lines text) 0) as [wl errs]. cbn [fst snd].
  destruct (0 <? length errs)%nat; [reflexivity|].
  destruct (0 <? length (Save.duplicate_scan wl 0 ∅))%nat; [reflexivity|].
  unfold try_catch, mbind, M_bind, bind, storage_local_set, host_call,
    mret, M_ret, ret.
  destruct (faults w (clock w)); reflexivity.
Qed.

Lemma length_zero_nil {A} (l : list A) : (0 <? length l)%nat = false -> l = [].
Proof. destruct l; [reflexivity | discriminate]. Qed.

End SaveFacts.

(** X9.  [parseWhitelistLine] returns either a success, with an entry and
    no message, or a failure, with a message and no entry; the entry of a
    success has a domain that [validateDomainName] accepts, the trimmed
    first part of the line, and flags that are the numbers 0 or 1. *)
Theorem parseWhitelistLine_result (line : jsstring) (index : N) :
  let r := parseWhitelistLine line index in
  (ParseResult.success r = true ->
     exists e,
       ParseResult.entry r = Some e /\ ParseResult.error r = None
       /\ valid (validateDomainName (domain e)) = true
       /\ domain e = trim (nth 0 (split 44 line) [])
       /\ (keepCookies e = VNum 0 \/ keepCookies e = VNum 1)
       /\ (keepCache e = VNum 0 \/ keepCache e = VNum 1))
  /\ (ParseResult.success r = false ->
        ParseResult.entry r = None /\ exists m, ParseResult.error r = Some m).
Proof.
  intros r. unfold r.
  destruct (parse_result_shape line index) as [(e & -> & (Hv & Hc & Hk) & Hd)|(m & ->)];
    cbn [ParseResult.success ParseResult.entry ParseResult.error].
  - split; [|discriminate]. intros _. exists e. repeat split; try assumption.
    rewrite Hd. change [] with (trim []) at 1. apply map_nth.
  - split; [discriminate|]. intros _. split; [reflexivity | eauto].
Qed.

Lemma parseWhitelistLine_result_witness :
  exists e,
    ParseResult.entry (parseWhitelistLine (str " b.org ,0,1") 3) = Some e
    /\ domain e = str "b.org".
Proof.
  destruct (proj1 (parseWhitelistLine_result (str " b.org ,0,1") 3) eq_refl)
    as (e & He & _ & _ & Hd & _).
  exists e. split; [exact He | exact Hd].
Defined.

(** X10.  Parsing the lines of the text area gives one entry or one
    message for every line, and every entry it gives is well formed. *)
Theorem parse_lines_accounts_for_every_line (lines : list jsstring) (index : N) :
  (length (fst (parse_lines lines index)) + length (snd (parse_lines lines index))
     = length lines)%nat
  /\ Forall well_formed (fst (parse_lines lines index)).
Proof.
  destruct (parse_lines lines index) as [wl errs] eqn:E.
  destruct (parse_lines_shape lines index wl errs E) as [Hwf Hlen].
  cbn [fst snd]. split; assumption.
Qed.

(** X11.  The duplicate check of the save handler reports nothing exactly
    when no two entries share a domain. *)
Theorem duplicate_scan_unique (wl : list WhitelistEntry) :
  Save.duplicate_scan wl 0 ∅ = [] <-> List.NoDup (List.map domain wl).
Proof.
  rewrite duplicate_scan_nil. split; [tauto|].
  intros H. split; [exact H|]. intros d _. apply lookup_empty.
Qed.

(** X12.  A click on the save button makes no removal call and leaves
    the session store and the loaded settings alone.  When it reports
    success, every line of the text parsed, the entries are well formed
    with pairwise distinct domains, and the store holds the eight items
    of these entries and the check boxes on top of what it held.  When it
    reports anything else the persistent store is as it was. *)
Theorem save_click_store (text : jsstring) (boxes : Save.Checkboxes) (w : World) :
  let run := Save.save_click text boxes in
  removals (exec run w) = removals w
  /\ session_store (exec run w) = session_store w
  /\ settings (exec run w) = settings w
  /\ (result run w = Ok Save.Saved ->
        exists wl,
          parse_lines (textarea_lines text) 0 = (wl, [])
          /\ Forall well_formed wl
          /\ List.NoDup (List.map domain wl)
          /\ local_store (exec run w) =
               write_items (Save.saved_items wl boxes) (local_store w))
  /\ (result run w <> Ok Save.Saved -> local_store (exec run w) = local_store w).
Proof.
  intros run. unfold run, exec, result. rewrite save_click_run.
  destruct (parse_lines (textarea_lines text) 0) as [wl errs] eqn:Ep.
  cbv zeta. cbn [fst snd].
  destruct (0 <? length errs)%nat eqn:Ee.
  { repeat split; try discriminate. }
  destruct (0 <? length (Save.duplicate_scan wl 0 ∅))%nat eqn:Ed.
  { repeat split; try discriminate. }
  destruct (faults w (clock w)) as [e|].
  { repeat split; try discriminate. }
  repeat split.
  - intros _. exists wl. apply length_zero_nil in Ee, Ed. subst errs.
    destruct (parse_lines_shape _ _ _ _ Ep) as [Hwf _].
    repeat split; try assumption.
    apply duplicate_scan_nil in Ed. tauto.
  - intros H. exfalso. apply H. reflexivity.
Qed.

Lemma save_click_store_witness :
  exists wl,
    parse_lines (textarea_lines (str "a.com,1,0")) 0 = (wl, [])
    /\ List.NoDup (List.map domain wl).
Proof.
  destruct (proj1 (proj2 (proj2 (proj2
    (save_click_store (str "a.com,1,0")
       (Save.mkCheckboxes true false true true true true true) quiet_world))))
    ltac:(vm_compute; reflexivity)) as (wl & Hp & _ & Hu & _).
  exists wl. split; [exact Hp | exact Hu].
Defined.

Section TextArea.

Lemma split_app (c : N) (a b : jsstring) :
  split c (a ++ c :: b) = split c a ++ split c b.
Proof.
  induction a as [|x a IH]; cbn [app split]; unfold unit_eqb.
  - rewrite N.eqb_refl. reflexivity.
  - rewrite IH. destruct (x =? c); [reflexivity|].
    destruct (split c a) as [|h r] eqn:Es; [|reflexivity].
    exfalso. exact (split_nonempty c a Es).
Qed.

Lemma textarea_lines_app (a b : jsstring) :
  textarea_lines (a ++ [10] ++ b) = textarea_lines a ++ textarea_lines b.
Proof.
  unfold textarea_lines. cbn [app].
  rewrite split_app, List.map_app, List.filter_app. reflexivity.
Qed.

Lemma split_units (c : N) (s p : jsstring) (x : N) :
  In p (split c s) -> In x p -> In x s.
Proof.
  revert p. induction s as [|y s IH]; intros p; cbn [split].
  - intros [<-|[]] [].
  - unfold unit_eqb. destruct (split c s) as [|h r] eqn:Es.
    { exfalso. exact (split_nonempty c s Es). }
    destruct (y =? c).
    + intros [<-|Hp] Hx; [destruct Hx|]. right. exact (IH p Hp Hx).
    + intros [<-|Hp] Hx.
      * destruct Hx as [<-|Hx]; [left; reflexivity|].
        right. apply (IH h); [left; reflexivity | exact Hx].
      * right. apply (IH p); [right; exact Hp | exact Hx].
Qed.

Lemma trim_spaces (s : jsstring) : forallb is_space s = true -> trim s = [].
Proof.
  intros H. unfold trim.
  assert (Hs : trimStart s = []).
  { induction s as [|c s IH]; [reflexivity|].
    cbn [forallb] in H. apply andb_true_iff in H as [Hc Hs].
    cbn [trimStart]. rewrite Hc. exact (IH Hs). }
  rewrite Hs. reflexivity.
Qed.

Lemma textarea_lines_blank (ws : jsstring) :
  forallb is_space ws = true -> textarea_lines ws = [].
Proof.
  intros H. unfold textarea_lines.
  assert (Hparts : forall p, In p (split 10 ws) -> trim p = []).
  { intros p Hp. apply trim_spaces. apply forallb_forall. intros x Hx.
    rewrite forallb_forall in H. apply H. exact (split_units 10 ws p x Hp Hx). }
  induction (split 10 ws) as [|p parts IH]; [reflexivity|].
  cbn [List.map List.filter]. rewrite (Hparts p) by (left; reflexivity).
  cbn [length Nat.ltb Nat.leb]. apply IH. intros q Hq. apply Hparts. right.
  exact Hq.
Qed.

End TextArea.

(** X13.  The lines the save handler reads from a text are those of its
    first part followed by those of its second part, for every cut at a
    newline; a part made of white space only gives no line.  So blank
    lines never count, and the line numbers of the messages count the
    other lines only. *)
Theorem textarea_lines_skip_blank (a ws b : jsstring) :
  textarea_lines (a ++ [10] ++ b) = textarea_lines a ++ textarea_lines b
  /\ (forallb is_space ws = true ->
        textarea_lines ws = []
        /\ textarea_lines (a ++ [10] ++ ws ++ [10] ++ b)
           = textarea_lines (a ++ [10] ++ b)
        /\ parse_lines (textarea_lines (ws ++ [10] ++ b)) 0
           = parse_lines (textarea_lines b) 0).
Proof.
  split; [apply textarea_lines_app|].
  intros H. split; [apply textarea_lines_blank; exact H|]. split.
  - rewrite !textarea_lines_app, (textarea_lines_blank ws H). reflexivity.
  - rewrite textarea_lines_app, (textarea_lines_blank ws H). reflexivity.
Qed.

Lemma textarea_lines_skip_blank_witness :
  textarea_lines (str "a.com" ++ [10] ++ str "   " ++ [10] ++ str "b.org")
  = textarea_lines (str "a.com" ++ [10] ++ str "b.org").
Proof.
  apply (proj1 (proj2 (proj2
    (textarea_lines_skip_blank (str "a.com") (str "   ") (str "b.org")) eq_refl))).
Defined.

(** X14.  When a text parses without any message, the text the options
    page shows for the parsed whitelist parses to the same whitelist,
    again without any message. *)
Theorem textarea_value_parses_back (text : jsstring) (wl : list WhitelistEntry) :
  parse_lines (textarea_lines text) 0 = (wl, []) ->
  parse_lines (textarea_lines (textarea_value wl)) 0 = (wl, []).
Proof.
  intros H. destruct (parse_lines_shape _ _ _ _ H) as [Hwf _].
  rewrite textarea_lines_value by exact Hwf.
  apply parse_lines_whitelist. exact Hwf.
Qed.

Lemma textarea_value_parses_back_witness :
  parse_lines
    (textarea_lines
       (textarea_value [mkEntry (str "a.com") (VNum 1) (VNum 1);
                        mkEntry (str "b.org") (VNum 0) (VNum 1)])) 0
  = ([mkEntry (str "a.com") (VNum 1) (VNum 1);
      mkEntry (str "b.org") (VNum 0) (VNum 1)], []).
Proof.
  apply (textarea_value_parses_back
           (str "  a.com" ++ [10; 10] ++ str "b.org , 0,1 ")).
  vm_compute. reflexivity.
Defined.

(* ===================================================================== *)
(** ** Saving and loading *)
(* ===================================================================== *)

Section SaveLoad.

Lemma key_in_keys (key : jsstring) : In key Loader.keys -> key ∈ Loader.keys.
Proof. apply list_elem_of_In. Qed.

(** What a reload reads after the eight items have been written. *)
Lemma reload_saved (wl : list WhitelistEntry) (boxes : Save.Checkboxes)
    (store : gmap jsstring value) :
  applyLoadedSettings
    (items_of Loader.keys (write_items (Save.saved_items wl boxes) store))
  = {| whitelist := VArr wl;
       runOnStartup := VBool (Save.box_runOnStartup boxes);
       runOnClose := VBool (Save.box_runOnClose boxes);
       removeDownloads := VBool (Save.box_removeDownloads boxes);
       removeFormData := VBool (Save.box_removeFormData boxes);
       removeHistory := VBool (Save.box_removeHistory boxes);
       removeCookies := VBool (Save.box_removeCookies boxes);
       removeCacheAndStorage := VBool (Save.box_removeCacheAndStorage boxes) |}.
Proof.
  unfold applyLoadedSettings.
  rewrite !prop_items_of by (apply key_in_keys; cbn; tauto).
  unfold prop, write_items, Save.saved_items. cbn [List.fold_left fst snd].
  repeat (rewrite lookup_insert_ne by keys_differ).
  rewrite lookup_insert_eq.
  do 7 (try (repeat (rewrite lookup_insert_ne by keys_differ);
             rewrite lookup_insert_eq)).
  reflexivity.
Qed.

End SaveLoad.

(** X15.  Loading after a successful save gives exactly what was saved:
    the whitelist parsed from the text and, for the seven flags, the
    state of the check boxes, whatever the store held before. *)
Theorem save_then_load (text : jsstring) (boxes : Save.Checkboxes) (w : World) :
  result (Save.save_click text boxes) w = Ok Save.Saved ->
  faults w (S (clock w)) = None ->
  settings (exec Loader.load (exec (Save.save_click text boxes) w)) =
    {| whitelist := VArr (fst (parse_lines (textarea_lines text) 0));
       runOnStartup := VBool (Save.box_runOnStartup boxes);
       runOnClose := VBool (Save.box_runOnClose boxes);
       removeDownloads := VBool (Save.box_removeDownloads boxes);
       removeFormData := VBool (Save.box_removeFormData boxes);
       removeHistory := VBool (Save.box_removeHistory boxes);
       removeCookies := VBool (Save.box_removeCookies boxes);
       removeCacheAndStorage := VBool (Save.box_removeCacheAndStorage boxes) |}.
Proof.
  unfold result, exec. rewrite save_click_run. cbv zeta.
  destruct (0 <? length (snd (parse_lines (textarea_lines text) 0)))%nat;
    [discriminate|].
  destruct (0 <? length (Save.duplicate_scan _ 0 ∅))%nat; [discriminate|].
  destruct (faults w (clock w)); [discriminate|].
  intros _ Hload. cbn [snd]. rewrite load_run.
  cbn [faults clock set_local_store tick]. rewrite Hload.
  cbn [snd settings set_settings]. unfold reloaded.
  cbn [local_store set_local_store tick]. apply reload_saved.
Qed.

Lemma save_then_load_witness :
  whitelist (settings (exec Loader.load
     (exec (Save.save_click (str "a.com,1,0")
              (Save.mkCheckboxes true false true true true true true))
           quiet_world)))
  = VArr [mkEntry (str "a.com") (VNum 1) (VNum 0)].
Proof.
  rewrite (save_then_load (str "a.com,1,0")
             (Save.mkCheckboxes true false true true true true true) quiet_world
             ltac:(vm_compute; reflexivity) eq_refl).
  vm_compute. reflexivity.
Defined.

(** X16.  [load] overwrites the settings wholesale from the store and
    never writes the store.  When the read fails it throws the error of
    the host and the settings in memory stay as they were; when it
    succeeds the settings are those of [applyLoadedSettings] on the
    stored items, whatever they were before. *)
Theorem load_outcome (w : World) :
  local_store (exec Loader.load w) = local_store w
  /\ removals (exec Loader.load w) = removals w
  /\ (forall e, faults w (clock w) = Some e ->
        result Loader.load w = Throw e
        /\ settings (exec Loader.load w) = settings w)
  /\ (faults w (clock w) = None ->
        result Loader.load w = Ok tt
        /\ settings (exec Loader.load w) =
             applyLoadedSettings (items_of Loader.keys (local_store w))).
Proof.
  unfold exec, result. rewrite load_run.
  destruct (faults w (clock w)) as [e|].
  - split; [reflexivity|]. split; [reflexivity|]. split.
    + intros e' [= <-]. split; reflexivity.
    + discriminate.
  - split; [reflexivity|]. split; [reflexivity|]. split.
    + discriminate.
    + intros _. split; reflexivity.
Qed.

Lemma load_outcome_witness :
  settings (exec Loader.load (closing_world [])) =
    applyLoadedSettings (items_of Loader.keys (local_store (closing_world []))).
Proof.
  apply (proj2 (proj2 (proj2 (proj2 (load_outcome (closing_world [])))) eq_refl)).
Defined.

(* ===================================================================== *)
(** ** The listeners of the background script *)
(* ===================================================================== *)

Section Listeners.

Lemma loadSettings_run (w : World) :
  Background.loadSettings w =
    (Ok tt,
     match faults w (clock w) with
     | Some _ => tick w
     | None => set_settings (reloaded w) (tick w)
     end).
Proof.
  unfold Background.loadSettings, try_catch. rewrite load_run.
  destruct (faults w (clock w)); reflexivity.
Qed.

Lemma onStartup_run (w : World) :
  Background.onStartup w =
    EventHandler.handleStartupIfNeeded (snd (Background.loadSettings w)).
Proof.
  unfold Background.onStartup, mbind, M_bind, bind.
  rewrite loadSettings_run. reflexivity.
Qed.

Lemma onRemoved_run (windowId : N) (w : World) :
  Background.onRemoved windowId w = EventHandler.handleWindowCloseEvent windowId w.
Proof.
  unfold Background.onRemoved, try_catch.
  rewrite handleWindowCloseEvent_run. reflexivity.
Qed.

(** The startup handler never writes the persistent store. *)
Lemma handleStartupIfNeeded_local_store (w : World) :
  local_store (snd (EventHandler.handleStartupIfNeeded w)) = local_store w.
Proof.
  rewrite handleStartupIfNeeded_run. cbn [snd].
  destruct (faults w (clock w)); [reflexivity|].
  destruct (guard_set w); [reflexivity|].
  destruct (truthy (runOnStartup (settings w))); [|reflexivity].
  cbv zeta. destruct (result DataCleaner.clearAll (tick w)); [|reflexivity].
  match goal with
  | |- context [match ?x with Some _ => _ | None => _ end] => destruct x
  end; reflexivity.
Qed.

Lemma handleWindowCloseEvent_local_store (windowId : N) (w : World) :
  local_store (snd (EventHandler.handleWindowCloseEvent windowId w)) = local_store w.
Proof.
  rewrite handleWindowCloseEvent_run. cbn [snd].
  destruct (faults w (clock w)); [reflexivity|]. cbv zeta.
  destruct (truthy (runOnClose (reloaded w))); [|reflexivity].
  destruct (faults w (S (clock w))); [reflexivity|].
  destruct (no_window_left (normal_windows w)); reflexivity.
Qed.

Lemma first_fault_none (w : World) (from n : nat) :
  first_fault w from n = None <->
  forall i, (i < n)%nat -> faults w (from + i + clock w) = None.
Proof.
  revert from. induction n as [|n IH]; intros from; cbn [first_fault].
  - split; [intros _ i Hi; lia | reflexivity].
  - unfold settled_at. destruct (faults w (from + clock w)) as [e|] eqn:E.
    + split; [discriminate|]. intros H. specialize (H O ltac:(lia)).
      rewrite Nat.add_0_r in H. congruence.
    + rewrite IH. split.
      * intros H i Hi. destruct i as [|i].
        -- rewrite Nat.add_0_r. exact E.
        -- specialize (H i ltac:(lia)).
           replace (from + S i + clock w)%nat with (S from + i + clock w)%nat by lia.
           exact H.
      * intros H i Hi. specialize (H (S i) ltac:(lia)).
        replace (S from + i + clock w)%nat with (from + S i + clock w)%nat by lia.
        exact H.
Qed.

End Listeners.

(** X17.  No listener of the background script lets an error out: the
    startup, window-close and install listeners always return, and the
    message listener always returns its boolean, whatever errors the host
    reports for the calls they make. *)
Theorem listeners_never_throw (w : World) (windowId : N)
    (request : EventHandler.Request) (sender : EventHandler.Sender) :
  result Background.onStartup w = Ok tt
  /\ result (Background.onRemoved windowId) w = Ok tt
  /\ result Background.onInstalled w = Ok tt
  /\ exists willRespond : bool,
       result (Background.onMessage request sender) w = Ok willRespond.
Proof.
  unfold result. split; [|split; [|split]].
  - rewrite onStartup_run, handleStartupIfNeeded_run. reflexivity.
  - rewrite onRemoved_run, handleWindowCloseEvent_run. reflexivity.
  - unfold Background.onInstalled. rewrite loadSettings_run. reflexivity.
  - unfold Background.onMessage. rewrite handleMessage_run.
    destruct (truthy (EventHandler.id sender) && _); [|eauto].
    destruct (strict_eq_str _ _); eauto.
Qed.

(** X18.  The background script never writes the persistent store: after
    any of its four listeners the store is what it was. *)
Theorem listeners_keep_persistent_store (w : World) (windowId : N)
    (request : EventHandler.Request) (sender : EventHandler.Sender) :
  local_store (exec Background.onStartup w) = local_store w
  /\ local_store (exec (Background.onRemoved windowId) w) = local_store w
  /\ local_store (exec Background.onInstalled w) = local_store w
  /\ local_store (exec (Background.onMessage request sender) w) = local_store w.
Proof.
  unfold exec. split; [|split; [|split]].
  - rewrite onStartup_run, handleStartupIfNeeded_local_store, loadSettings_run.
    cbn [snd]. destruct (faults w (clock w)); reflexivity.
  - rewrite onRemoved_run. apply handleWindowCloseEvent_local_store.
  - unfold Background.onInstalled. rewrite loadSettings_run. cbn [snd].
    destruct (faults w (clock w)); reflexivity.
  - unfold Background.onMessage. rewrite handleMessage_run.
    destruct (truthy (EventHandler.id sender) && _); [|reflexivity].
    destruct (strict_eq_str _ _); reflexivity.
Qed.

(** X19.  At the start of the browser, when the settings load and the
    guard is read and unset, the cleaning is decided on the stored
    [runOnStartup], not on the value in memory: the calls of one
    [clearAll] under the reloaded settings are made when it is truthy,
    and no removal call is made when it is falsy or was never stored. *)
Theorem onStartup_decides_on_store (w : World) :
  faults w (clock w) = None ->
  faults w (S (clock w)) = None ->
  guard_set w = false ->
  let s' := applyLoadedSettings (items_of Loader.keys (local_store w)) in
  removals (exec Background.onStartup w) =
    removals w ++ (if truthy (runOnStartup s') then Spec.cleaning_calls s' else [])
  /\ (local_store w !! str "runOnStartup" = None ->
        removals (exec Background.onStartup w) = removals w).
Proof.
  intros Hload Hread Hguard s'.
  assert (Hrun : removals (exec Background.onStartup w) =
    removals w ++ (if truthy (runOnStartup s') then Spec.cleaning_calls s' else [])).
  { unfold exec. rewrite onStartup_run, loadSettings_run, Hload. cbn [snd].
    rewrite handleStartupIfNeeded_run. cbn [snd faults clock set_settings tick].
    rewrite Hread.
    change (guard_set (set_settings (reloaded w) (tick w))) with (guard_set w).
    rewrite Hguard. cbn [settings set_settings].
    change (reloaded w) with s'.
    destruct (truthy (runOnStartup s')); [|cbn; rewrite app_nil_r; reflexivity].
    cbv zeta. destruct (result DataCleaner.clearAll _); [|reflexivity].
    match goal with
    | |- context [match ?x with Some _ => _ | None => _ end] => destruct x
    end; reflexivity. }
  split; [exact Hrun|].
  intros Hnone. rewrite Hrun.
  assert (Hs : runOnStartup s' = VBool false).
  { unfold s', applyLoadedSettings. cbn [runOnStartup].
    rewrite prop_items_of by (apply key_in_keys; cbn; tauto).
    unfold prop. change STORAGE_KEYS.RUN_ON_STARTUP with (str "runOnStartup").
    rewrite Hnone. reflexivity. }
  rewrite Hs. cbn. apply app_nil_r.
Qed.

Lemma onStartup_decides_on_store_witness :
  removals (exec Background.onStartup (closing_world [1])) = [].
Proof.
  apply (proj2 (onStartup_decides_on_store (closing_world [1])
           eq_refl eq_refl eq_refl)).
  vm_compute. reflexivity.
Defined.

(** X20.  When the read of the settings fails at the start of the
    browser, the startup handler runs on the settings in memory.  A
    process that still has its default settings then makes no removal
    call, whatever the store holds. *)
Theorem onStartup_load_failure (w : World) (e : Error) :
  faults w (clock w) = Some e ->
  exec Background.onStartup w = exec EventHandler.handleStartupIfNeeded (tick w)
  /\ (settings w = initializeDefaults ->
        removals (exec Background.onStartup w) = removals w).
Proof.
  intros Hload.
  assert (Hrun : exec Background.onStartup w
                 = exec EventHandler.handleStartupIfNeeded (tick w)).
  { unfold exec. rewrite onStartup_run, loadSettings_run, Hload. reflexivity. }
  split; [exact Hrun|].
  intros Hs. rewrite Hrun. unfold exec. rewrite handleStartupIfNeeded_run.
  cbn [snd settings tick]. rewrite Hs.
  destruct (faults (tick w) (clock (tick w))); [reflexivity|].
  destruct (guard_set (tick w)); reflexivity.
Qed.

Lemma onStartup_load_failure_witness :
  removals (exec Background.onStartup unreadable_store) = [].
Proof.
  apply (proj2 (onStartup_load_failure unreadable_store
                  (mkError (str "read failed")) eq_refl) eq_refl).
Defined.

(** X21.  A message of the extension itself whose action is not
    [deleteData] changes nothing: no response, no removal call, and the
    listener returns [false].  Whatever the message, at most one
    response is sent. *)
Theorem handleMessage_other_actions
    (request : EventHandler.Request) (sender : EventHandler.Sender) (w : World) :
  let run := EventHandler.handleMessage request sender in
  (EventHandler.id sender = VStr (runtime_id w) -> runtime_id w <> [] ->
   EventHandler.action request <> VStr (str "deleteData") ->
     run w = (Ok false, w))
  /\ (responses (exec run w) = responses w
      \/ exists r, responses (exec run w) = responses w ++ [r]).
Proof.
  intros run. unfold run, exec. rewrite handleMessage_run. split.
  - intros Hid Hne Hact. rewrite Hid. cbn [truthy strict_eq_str].
    rewrite str_eqb_refl.
    destruct (runtime_id w) as [|c r]; [congruence|]. cbn [andb].
    destruct (strict_eq_str (EventHandler.action request) (str "deleteData")) eqn:E;
      [|reflexivity].
    apply strict_eq_str_true in E. contradiction.
  - destruct (truthy (EventHandler.id sender) && _); [|right; eauto].
    destruct (strict_eq_str _ _); [right; eauto | left; reflexivity].
Qed.

Lemma handleMessage_other_actions_witness :
  EventHandler.handleMessage (EventHandler.mkRequest (VStr (str "ping")))
    (EventHandler.mkSender (VStr (str "dehistory"))) quiet_world
  = (Ok false, quiet_world).
Proof.
  apply (proj1 (handleMessage_other_actions
    (EventHandler.mkRequest (VStr (str "ping")))
    (EventHandler.mkSender (VStr (str "dehistory"))) quiet_world)).
  - reflexivity.
  - discriminate.
  - intros H. vm_compute in H. discriminate H.
Defined.

(** X22.  [clearAll] makes between one and three removal calls and
    touches nothing else: the settings, both stores and the responses
    stay as they were.  It succeeds exactly when the host reports no
    error for any of the calls it made. *)
Theorem clearAll_outcome (w : World) :
  let w' := exec DataCleaner.clearAll w in
  let calls := (length (removals w') - length (removals w))%nat in
  (1 <= calls <= 3)%nat
  /\ calls = (1 + (if truthy (removeCookies (settings w)) then 1 else 0)
                + (if truthy (removeCacheAndStorage (settings w)) then 1 else 0))%nat
  /\ clock w' = (calls + clock w)%nat
  /\ settings w' = settings w
  /\ local_store w' = local_store w
  /\ session_store w' = session_store w
  /\ responses w' = responses w
  /\ (result DataCleaner.clearAll w = Ok tt <->
        forall i, (i < calls)%nat -> faults w (i + clock w) = None).
Proof.
  intros w' calls.
  assert (Hcalls : calls = length (Spec.cleaning_calls (settings w))).
  { unfold calls, w', exec. rewrite clearAll_run. cbn [snd removals after_calls].
    rewrite length_app. lia. }
  assert (Hn : length (Spec.cleaning_calls (settings w)) =
    (1 + (if truthy (removeCookies (settings w)) then 1 else 0)
       + (if truthy (removeCacheAndStorage (settings w)) then 1 else 0))%nat).
  { unfold Spec.cleaning_calls.
    destruct (truthy (removeCookies (settings w)));
      destruct (truthy (removeCacheAndStorage (settings w))); reflexivity. }
  split.
  { rewrite Hcalls, Hn.
    destruct (truthy (removeCookies (settings w)));
      destruct (truthy (removeCacheAndStorage (settings w))); cbn; lia. }
  split; [rewrite Hcalls; exact Hn|].
  rewrite Hcalls. unfold w', exec, result. rewrite clearAll_run.
  cbn [fst snd clock settings local_store session_store responses after_calls].
  repeat (split; [reflexivity|]).
  rewrite <- (first_fault_none w 0).
  destruct (first_fault w 0 _); split; congruence.
Qed.

(* ===================================================================== *)
(** ** More on domain names *)
(* ===================================================================== *)

Section Recasing.

(** A change of the units that keeps what the rules look at. *)
Variable f : N -> N.
Hypothesis f_dot : forall c, unit_eqb (f c) 46 = unit_eqb c 46.
Hypothesis f_label_unit : forall c, is_label_unit (f c) = is_label_unit c.
Hypothesis f_hyphen : forall c, is_hyphen (f c) = is_hyphen c.
Hypothesis f_letter : forall c, is_letter (f c) = is_letter c.










End Recasing.

Section ValidNames.




End ValidNames.


(** X24.  A name that [validateDomainName] accepts is made of ASCII
    letters, digits, hyphens and dots only, holds a dot, is at most 253
    units long, and is left as it is by [trim]; in particular it holds no
    comma, no white space and no newline. *)
Theorem valid_domain_alphabet (d : jsstring) :
  valid (validateDomainName d) = true ->
  (forall c, In c d ->
      (is_letter c || is_digit c || (c =? 45) || (c =? 46)) = true)
  /\ In 46 d
  /\ (length d <= 253)%nat
  /\ trim d = d
  /\ ~ In 44 d /\ ~ In 32 d /\ ~ In 10 d.
Proof.
  intros Hv.
  assert (Hunits := valid_units d Hv).
  apply validateDomainName_core in Hv as (Hlen & Hre & _).
  rewrite test_DOMAIN_REGEX in Hre.
  split.
  { intros c Hc. destruct (shape_units d Hre c Hc) as [H| ->]; [|reflexivity].
    unfold is_label_unit, is_alnum, is_hyphen in H.
    rewrite H. reflexivity. }
  split.
  { unfold domain_shape in Hre. apply andb_true_iff in Hre as [Hre _].
    apply andb_true_iff in Hre as [Hn _]. apply Nat.leb_le in Hn.
    rewrite split_length in Hn.
    destruct (List.filter (fun x => unit_eqb x 46) d) as [|x l] eqn:Ef;
      [cbn in Hn; lia|].
    assert (Hx : In x (List.filter (fun x => unit_eqb x 46) d))
      by (rewrite Ef; left; reflexivity).
    apply filter_In in Hx as [Hx Hd]. apply N.eqb_eq in Hd. subst x. exact Hx. }
  split; [exact Hlen|].
  split; [apply trim_id; intros c Hc; apply (Hunits c Hc)|].
  repeat split; intros Hin.
  - destruct (Hunits 44 Hin) as (_ & H & _). congruence.
  - destruct (Hunits 32 Hin) as (H & _ & _). discriminate H.
  - destruct (Hunits 10 Hin) as (_ & _ & H). congruence.
Qed.

Lemma valid_domain_alphabet_witness : In 46 (str "Sub-1.Example.COM").
Proof.
  apply (proj1 (proj2 (valid_domain_alphabet (str "Sub-1.Example.COM")
           ltac:(vm_compute; reflexivity)))).
Defined.

(** X25.  For flags that are the numbers 0 or 1, the line of an entry
    parses back to that very entry exactly when [validateDomainName]
    accepts its domain. *)
Theorem entry_line_parses_back_iff_valid (d : jsstring) (cookies cache : bool)
    (index : N) :
  let e := mkEntry d (VNum (flag_number cookies)) (VNum (flag_number cache)) in
  parseWhitelistLine (entry_line e) index = ParseResult.mk true (Some e) None
  <-> valid (validateDomainName d) = true.
Proof.
  intros e. split.
  - intros H.
    destruct (parse_result_shape (entry_line e) index)
      as [(e' & H' & (Hv & _) & _)|(m & H')]; rewrite H' in H.
    + injection H as Heq. rewrite Heq in Hv. exact Hv.
    + discriminate H.
  - intros Hv. apply parse_entry_line. split; [exact Hv|].
    unfold e. cbn [keepCookies keepCache].
    destruct cookies, cache; cbn [flag_number]; auto.
Qed.

(* ===================================================================== *)
(** ** Opening the options page and saving *)
(* ===================================================================== *)

Section OpenAndSave.

Lemma checked_boolean (result : gmap jsstring value) (key : jsstring) (b : bool) :
  boolean_or_absent (prop result key) ->
  VBool (OptionsPage.checked result key (VBool b))
  = coalesce (prop result key) (VBool b).
Proof.
  unfold OptionsPage.checked.
  intros [-> | [-> | (b' & ->)]]; reflexivity.
Qed.

Lemma reloaded_items (store : gmap jsstring value) :
  applyLoadedSettings (items_of Loader.keys store) = applyLoadedSettings store.
Proof.
  unfold applyLoadedSettings.
  rewrite !prop_items_of by (apply key_in_keys; cbn; tauto). reflexivity.
Qed.

End OpenAndSave.

(** X26.  Opening the options page and pressing save without editing
    keeps the settings: when the stored whitelist is an array of well-
    formed entries with pairwise distinct domains (or is absent, which
    reads as the empty array), every stored flag is a boolean or absent,
    and the write succeeds, the save reports success and a reload
    afterwards gives the settings a reload gave before. *)
Theorem open_and_save_keeps_settings (w : World) (wl : list WhitelistEntry) :
  coalesce (prop (local_store w) (str "whitelist")) (VArr []) = VArr wl ->
  Forall well_formed wl ->
  List.NoDup (List.map domain wl) ->
  (forall key, In key Loader.keys -> key <> str "whitelist" ->
     boolean_or_absent (prop (local_store w) key)) ->
  faults w (clock w) = None ->
  exists text boxes,
    OptionsPage.shown (local_store w) = Some (text, boxes)
    /\ result (Save.save_click text boxes) w = Ok Save.Saved
    /\ applyLoadedSettings
         (items_of Loader.keys (local_store (exec (Save.save_click text boxes) w)))
       = applyLoadedSettings (items_of Loader.keys (local_store w)).
Proof.
  intros Hwl Hwf Hu Hflags Hwrite.
  assert (Hshown : OptionsPage.stored_whitelist (local_store w) = Some wl).
  { unfold OptionsPage.stored_whitelist.
    change STORAGE_KEYS.WHITELIST with (str "whitelist").
    destruct (prop (local_store w) (str "whitelist")); cbn in Hwl |- *;
      congruence. }
  unfold OptionsPage.shown. rewrite Hshown.
  eexists. eexists. split; [reflexivity|].
  unfold result, exec. rewrite save_click_run.
  rewrite textarea_lines_value by exact Hwf.
  rewrite parse_lines_whitelist by exact Hwf. cbv zeta. cbn [fst snd length Nat.ltb Nat.leb].
  assert (Hd : Save.duplicate_scan wl 0 ∅ = []).
  { apply duplicate_scan_nil. split; [exact Hu|]. intros d _. apply lookup_empty. }
  rewrite Hd. cbn [length Nat.ltb Nat.leb]. rewrite Hwrite. cbn [fst snd].
  split; [reflexivity|].
  cbn [local_store set_local_store tick]. rewrite reload_saved, reloaded_items.
  unfold applyLoadedSettings. cbn [Save.box_runOnStartup Save.box_runOnClose
    Save.box_removeDownloads Save.box_removeFormData Save.box_removeHistory
    Save.box_removeCookies Save.box_removeCacheAndStorage].
  change STORAGE_KEYS.WHITELIST with (str "whitelist"). rewrite Hwl.
  unfold DEFAULT_SETTINGS.RUN_ON_STARTUP, DEFAULT_SETTINGS.RUN_ON_CLOSE,
    DEFAULT_SETTINGS.REMOVE_DOWNLOADS, DEFAULT_SETTINGS.REMOVE_FORMDATA,
    DEFAULT_SETTINGS.REMOVE_HISTORY, DEFAULT_SETTINGS.REMOVE_COOKIES,
    DEFAULT_SETTINGS.REMOVE_CACHE_AND_STORAGE.
  rewrite !checked_boolean
    by (apply Hflags; [cbn; tauto | keys_differ]).
  reflexivity.
Qed.

Lemma open_and_save_keeps_settings_witness :
  exists text boxes,
    OptionsPage.shown (local_store (closing_world [])) = Some (text, boxes)
    /\ result (Save.save_click text boxes) (closing_world []) = Ok Save.Saved.
Proof.
  destruct (open_and_save_keeps_settings (closing_world []) []) as
    (text & boxes & Hs & Hr & _).
  - reflexivity.
  - constructor.
  - constructor.
  - intros key Hin _. cbn in Hin.
    repeat (destruct Hin as [<-|Hin];
            [first [ left; vm_compute; reflexivity
                   | right; right; exists true; vm_compute; reflexivity ]|]).
    contradiction.
  - reflexivity.
  - exists text, boxes. split; [exact Hs | exact Hr].
Defined.
